(** * TMY: typical meteorological year from hourly solar-radiation tables

    A shallow embedding of [src/checking.py]:

    - [process_solar_data]: the row scan that turns date-marker rows and
      hourly value rows into long-format records, one per tracked year;
    - [calculate_tmm]: the Finkelstein-Schafer selection of one
      representative year per calendar month;
    - [calculate_tmy]: the concatenation of the selected month blocks.

    Modelling choices.  Data frames are lists of records in row order; a
    frame built from an empty list of dicts has no columns, so looking up a
    column in it raises [KeyError].  Radiation values are exact rationals
    ([Q]); rounding of binary floating point is outside the model.  The row
    scan only copies the values.  The selection is given twice: on records
    whose values are numbers, where the NaN that the code itself creates
    (the mean of an empty selection) is [None], and, in module [WithNaN], on
    records whose value may be the NaN of an empty cell; the two agree on
    records without missing values (lemma [calculate_tmm_lift]).  Python
    exceptions are values of [exn]; a function that may raise returns a
    [result].  File reading, writing and printing are left out, except that
    the diagnostic printed for a skipped date is kept as a log entry.  The
    hour offset is added as pandas 2 adds it: outside the 64-bit range of
    nanoseconds the sum raises OutOfBoundsTimedelta or OutOfBoundsDatetime,
    which are ValueErrors, so the loop skips the record.  For [calculate_tmy]
    the frames are also kept in a store, to tell a frame that is read from a
    frame that is built. *)

From Stdlib Require Import ZArith QArith Qabs Qround Qminmax List String Ascii Bool Lia.
From Stdlib Require Import DecimalString Sorted Lqa Permutation.
Import ListNotations.

Local Open Scope Z_scope.

(** ** Exceptions and results *)

Inductive exn : Type :=
| KeyError (key : string)
    (* KeyError: a frame without that column *)
| BroadcastError (n m : nat)
    (* ValueError: operands could not be broadcast together with shapes (n,) (m,) *)
| ZeroSizeReduction (op : string)
    (* ValueError: zero-size array to reduction operation <op> which has no identity *)
| NoObjectsToConcatenate
    (* ValueError: No objects to concatenate *)
| InvalidLiteral (s : string)
    (* ValueError: invalid literal for int() with base 10 *)
| CannotConvertNaN
    (* ValueError: cannot convert float NaN to integer *)
| EmptySequence.
    (* ValueError: min() arg is an empty sequence *)

Inductive result (A : Type) : Type :=
| Ok (a : A)
| Raise (e : exn).

Arguments Ok {A} a.
Arguments Raise {A} e.

Definition bind {A B : Type} (r : result A) (k : A -> result B) : result B :=
  match r with
  | Ok a => k a
  | Raise e => Raise e
  end.

Notation "x <- r ;; k" := (bind r (fun x => k))
  (at level 61, r at next level, right associativity).

(** [for x in l: st = body st x], where the body may raise. *)
Fixpoint for_each {S X : Type} (body : S -> X -> result S) (l : list X) (st : S)
  : result S :=
  match l with
  | [] => Ok st
  | x :: l' => st' <- body st x ;; for_each body l' st'
  end.

(** ** Characters and Python's [int] on strings *)

Definition code (c : ascii) : Z := Z.of_N (N_of_ascii c).

(** White space as [str.isspace] and the [\s] of a regular expression see
    it, restricted to ASCII: tab to carriage return, the four separators
    28..31, and the blank. *)
Definition is_space (c : ascii) : bool :=
  ((9 <=? code c) && (code c <=? 13)) || ((28 <=? code c) && (code c <=? 32)).

(** White space as [int] skips it around a literal: tab to carriage return
    and the blank; [int] rejects the separators 28..31. *)
Definition is_int_space (c : ascii) : bool :=
  ((9 <=? code c) && (code c <=? 13)) || (code c =? 32).

Definition digit_of (c : ascii) : option Z :=
  if (48 <=? code c) && (code c <=? 57) then Some (code c - 48) else None.

Fixpoint lstrip_with (space : ascii -> bool) (l : list ascii) : list ascii :=
  match l with
  | c :: l' => if space c then lstrip_with space l' else l
  | [] => []
  end.

(** Leading white space of a regular expression's [\s+]. *)
Definition lstrip (l : list ascii) : list ascii := lstrip_with is_space l.

(** The white space that [int] drops on both sides of a literal. *)
Definition int_strip (l : list ascii) : list ascii :=
  rev (lstrip_with is_int_space (rev (lstrip_with is_int_space l))).

Inductive lit_state : Type := LStart | LDigit | LUnderscore.

(** Decimal digits, with single underscores allowed between digits. *)
Fixpoint int_digits (st : lit_state) (acc : Z) (l : list ascii) : option Z :=
  match l with
  | [] => match st with LDigit => Some acc | _ => None end
  | c :: l' =>
      match digit_of c with
      | Some d => int_digits LDigit (10 * acc + d) l'
      | None =>
          if Ascii.eqb c "_"
          then match st with
               | LDigit => int_digits LUnderscore acc l'
               | _ => None
               end
          else None
      end
  end.

(** [int(s)] for a string [s]; [None] is ValueError. *)
Definition int_of_str (s : string) : option Z :=
  match int_strip (list_ascii_of_string s) with
  | c :: l =>
      if Ascii.eqb c "+" then int_digits LStart 0 l
      else if Ascii.eqb c "-" then option_map Z.opp (int_digits LStart 0 l)
      else int_digits LStart 0 (c :: l)
  | [] => None
  end.

(** ['-' in s] *)
Definition contains_dash (s : string) : bool :=
  existsb (Ascii.eqb "-") (list_ascii_of_string s).

(** ** Calendar *)

Definition is_leap_year (year : Z) : bool :=
  (year mod 4 =? 0) && (negb (year mod 100 =? 0) || (year mod 400 =? 0)).

Definition days_in_month (y m : Z) : Z :=
  if m =? 2 then (if is_leap_year y then 29 else 28)
  else if (m =? 4) || (m =? 6) || (m =? 9) || (m =? 11) then 30
  else 31.

(** A calendar date and, for a timestamp, the hour of the day. *)
Record date : Type := mkDate { d_year : Z; d_month : Z; d_day : Z }.

Record timestamp : Type := mkTs { ts_date : date; ts_hour : Z }.

Definition next_day (d : date) : date :=
  if d_day d <? days_in_month (d_year d) (d_month d)
  then mkDate (d_year d) (d_month d) (d_day d + 1)
  else if d_month d <? 12 then mkDate (d_year d) (d_month d + 1) 1
  else mkDate (d_year d + 1) 1 1.

Definition prev_day (d : date) : date :=
  if 1 <? d_day d then mkDate (d_year d) (d_month d) (d_day d - 1)
  else if 1 <? d_month d
       then mkDate (d_year d) (d_month d - 1) (days_in_month (d_year d) (d_month d - 1))
  else mkDate (d_year d - 1) 12 31.

Definition add_days (n : Z) (d : date) : date :=
  match n with
  | Z0 => d
  | Zpos p => Pos.iter next_day d p
  | Zneg p => Pos.iter prev_day d p
  end.

(** pandas keeps a time difference and a timestamp as a signed 64-bit count
    of nanoseconds.  A difference of [hour] hours exists when its nanoseconds
    fit; a timestamp on a whole hour exists from 1677-09-21 01:00 (the first
    after [Timestamp.min], 1677-09-21 00:12:43.145224193) to 2262-04-11 23:00
    (the last before [Timestamp.max], 2262-04-11 23:47:16.854775807). *)
Definition int64_max : Z := 9223372036854775807.

Definition ns_per_hour : Z := 3600000000000.

Definition timedelta_fits (hour : Z) : bool := Z.abs (hour * ns_per_hour) <=? int64_max.

(** Year, month, day and hour compared in that order. *)
Definition ts_leb (a b : timestamp) : bool :=
  let ya := d_year (ts_date a) in let yb := d_year (ts_date b) in
  let ma := d_month (ts_date a) in let mb := d_month (ts_date b) in
  let da := d_day (ts_date a) in let db := d_day (ts_date b) in
  (ya <? yb) || ((ya =? yb) &&
    ((ma <? mb) || ((ma =? mb) &&
      ((da <? db) || ((da =? db) && (ts_hour a <=? ts_hour b)))))).

Definition timestamp_min : timestamp := mkTs (mkDate 1677 9 21) 1.

Definition timestamp_max : timestamp := mkTs (mkDate 2262 4 11) 23.

Definition timestamp_fits (t : timestamp) : bool :=
  ts_leb timestamp_min t && ts_leb t timestamp_max.

(** [midnight d + pd.to_timedelta(hour, unit='h')]; [None] is the
    OutOfBoundsTimedelta of the difference or the OutOfBoundsDatetime of the
    sum, both of them ValueErrors. *)
Definition add_hours (d : date) (hour : Z) : option timestamp :=
  if timedelta_fits hour then
    let t := mkTs (add_days (hour / 24) d) (hour mod 24) in
    if timestamp_fits t then Some t else None
  else None.

(** ** [pd.to_datetime(s, format="%d-%b %Y")]

    The format compiles to the regular expression
    [(?P<d>3[0-1]|[1-2]\d|0[1-9]|[1-9]| [1-9])-(?P<b>jan|...|dec)\s+(?P<Y>\d\d\d\d)],
    matched case-insensitively from the start of the string; the match has
    to cover the whole string and the date has to exist. *)

Definition is_digit (c : ascii) : bool :=
  match digit_of c with Some _ => true | None => false end.

Definition digit_val (c : ascii) : Z := code c - 48.

(** The alternatives of [%d] that match at the head of [l], in the order the
    regular expression tries them, each with the day and the rest. *)
Definition match_d (l : list ascii) : list (Z * list ascii) :=
  (match l with
   | a :: b :: r =>
       (if Ascii.eqb a "3" && (Ascii.eqb b "0" || Ascii.eqb b "1")
        then [(30 + digit_val b, r)] else [])
       ++ (if (Ascii.eqb a "1" || Ascii.eqb a "2") && is_digit b
           then [(10 * digit_val a + digit_val b, r)] else [])
       ++ (if Ascii.eqb a "0" && is_digit b && negb (Ascii.eqb b "0")
           then [(digit_val b, r)] else [])
   | _ => []
   end)
  ++ (match l with
      | a :: r => if is_digit a && negb (Ascii.eqb a "0") then [(digit_val a, r)] else []
      | [] => []
      end)
  ++ (match l with
      | a :: b :: r =>
          if Ascii.eqb a " " && is_digit b && negb (Ascii.eqb b "0")
          then [(digit_val b, r)] else []
      | _ => []
      end).

Definition lower (c : ascii) : ascii :=
  if (65 <=? code c) && (code c <=? 90)
  then ascii_of_N (N_of_ascii c + 32) else c.

Definition month_abbr : list (string * Z) :=
  [("jan", 1); ("feb", 2); ("mar", 3); ("apr", 4); ("may", 5); ("jun", 6);
   ("jul", 7); ("aug", 8); ("sep", 9); ("oct", 10); ("nov", 11); ("dec", 12)]%string.

Fixpoint lookup_abbr (s : string) (tbl : list (string * Z)) : option Z :=
  match tbl with
  | [] => None
  | (name, m) :: tbl' => if String.eqb s name then Some m else lookup_abbr s tbl'
  end.

(** [%b]: every abbreviation has three letters, so at most one matches. *)
Definition match_b (l : list ascii) : option (Z * list ascii) :=
  match l with
  | a :: b :: c :: r =>
      match lookup_abbr (string_of_list_ascii [lower a; lower b; lower c]) month_abbr with
      | Some m => Some (m, r)
      | None => None
      end
  | _ => None
  end.

(** [\s+(?P<Y>\d\d\d\d)] up to the end of the string. *)
Definition match_Y (l : list ascii) : option Z :=
  match l with
  | c :: l' =>
      if is_space c then
        match lstrip l' with
        | [y1; y2; y3; y4] =>
            if is_digit y1 && is_digit y2 && is_digit y3 && is_digit y4
            then Some (1000 * digit_val y1 + 100 * digit_val y2
                       + 10 * digit_val y3 + digit_val y4)
            else None
        | _ => None
        end
      else None
  | [] => None
  end.

(** What follows a candidate for [%d]: the dash, the month, the year. *)
Definition match_after_d (dr : Z * list ascii) : option date :=
  match snd dr with
  | c :: r =>
      if Ascii.eqb c "-" then
        match match_b r with
        | Some (m, r') =>
            match match_Y r' with
            | Some y => Some (mkDate y m (fst dr))
            | None => None
            end
        | None => None
        end
      else None
  | [] => None
  end.

Fixpoint first_match {X Y : Type} (f : X -> option Y) (l : list X) : option Y :=
  match l with
  | [] => None
  | x :: l' => match f x with Some y => Some y | None => first_match f l' end
  end.

(** [None] is ValueError: no match, unconverted data, or a day that the
    month does not have.  The year read is always the tracked year appended
    to the label (lemma [to_datetime_year]), so the bounds of pandas'
    timestamps are never met by the parse itself. *)
Definition to_datetime (s : string) : option date :=
  match first_match match_after_d (match_d (list_ascii_of_string s)) with
  | Some d =>
      if (1 <=? d_year d) && (d_day d <=? days_in_month (d_year d) (d_month d))
      then Some d else None
  | None => None
  end.

(** ** [process_solar_data] *)

(** The first cell of a row as pandas hands it over: a string, a number
    (taken with the integer that [int] makes of it), or the NaN of an empty
    cell.  Strings are ASCII. *)
Inductive cell : Type :=
| CStr (s : string)
| CInt (n : Z)
| CNaN.

(** [row.iloc[0]] and [row.iloc[1:]] *)
Record RawRow : Type := mkRow { first : cell; values : list Q }.

Record processed_row : Type := mkRec {
  Year : Z;
  Month : Z;
  Day : Z;
  Hour : Z;
  Solar_Radiation : Q
}.

(** [range(2019, 2024)], and the list [years] of [calculate_tmm]. *)
Definition years : list Z := [2019; 2020; 2021; 2022; 2023].

(** The state of the scan: the date label in force, the records appended so
    far, and the labels and years reported as invalid. *)
Record scan_state : Type := mkScan {
  current_date : option string;
  processed_data : list processed_row;
  skipped : list (option string * Z)
}.

(** [f"{year}"] *)
Definition str_of_int (n : Z) : string := NilZero.string_of_int (Z.to_int n).

(** [f"{current_date} {year}"]; an unset label prints as [None]. *)
Definition date_string (label : option string) (year : Z) : string :=
  ((match label with Some s => s | None => "None" end) ++ " " ++ str_of_int year)%string.

(** [int(row.iloc[0])] *)
Definition int_of_cell (c : cell) : result Z :=
  match c with
  | CStr s => match int_of_str s with Some n => Ok n | None => Raise (InvalidLiteral s) end
  | CInt n => Ok n
  | CNaN => Raise CannotConvertNaN
  end.

(** [isinstance(row.iloc[0], str) and '-' in row.iloc[0]] *)
Definition is_date_marker (c : cell) : option string :=
  match c with
  | CStr s => if contains_dash s then Some s else None
  | _ => None
  end.

(** [full_date.strftime('%m-%d') == '02-29'] *)
Definition is_feb_29 (t : timestamp) : bool :=
  (d_month (ts_date t) =? 2) && (d_day (ts_date t) =? 29).

(** [pd.to_datetime(f"{current_date} {year}", format="%d-%b %Y")
    + pd.to_timedelta(hour, unit='h')]; [None] is a ValueError, of the parse
    or of the 64-bit bounds. *)
Definition full_date_of (label : option string) (year hour : Z) : option timestamp :=
  match to_datetime (date_string label year) with
  | Some d => add_hours d hour
  | None => None
  end.

(** The body of the loop over [zip(range(2019, 2024), row.iloc[1:])]. *)
Definition year_step (hour : Z) (st : scan_state) (yv : Z * Q) : scan_state :=
  let (year, value) := yv in
  match full_date_of (current_date st) year hour with
  | Some full_date =>
      let value := if negb (is_leap_year year) && is_feb_29 full_date then 0%Q else value in
      mkScan (current_date st)
             (processed_data st ++
                [mkRec year (d_month (ts_date full_date)) (d_day (ts_date full_date))
                       (ts_hour full_date) value])
             (skipped st)
  | None =>
      mkScan (current_date st) (processed_data st)
             (skipped st ++ [(current_date st, year)])
  end.

(** The body of the loop over the rows. *)
Definition row_step (st : scan_state) (row : RawRow) : result scan_state :=
  match is_date_marker (first row) with
  | Some s => Ok (mkScan (Some s) (processed_data st) (skipped st))
  | None =>
      hour <- int_of_cell (first row) ;;
      Ok (fold_left (year_step hour) (combine years (values row)) st)
  end.

Definition initial_state : scan_state := mkScan None [] [].

Definition scan (data : list RawRow) : result scan_state :=
  for_each row_step data initial_state.

Definition process_solar_data (data : list RawRow) : result (list processed_row) :=
  st <- scan data ;; Ok (processed_data st).

(** ** Series and arrays *)

(** Python's [sum]: a left fold from 0. *)
Definition Qsum (l : list Q) : Q := fold_left Qplus l 0%Q.

Definition Qlen (l : list Q) : Q := inject_Z (Z.of_nat (List.length l)).

(** The mean of a non-empty group. *)
Definition mean_of (l : list Q) : Q := (Qsum l / Qlen l)%Q.

(** [Series.mean()]; the NaN of an empty series is [None]. *)
Definition series_mean (l : list Q) : option Q :=
  match l with
  | [] => None
  | _ => Some (mean_of l)
  end.

(** The group keys of [groupby('Hour')]: the distinct hours, ascending. *)
Fixpoint insert_key (h : Z) (l : list Z) : list Z :=
  match l with
  | [] => [h]
  | k :: l' =>
      if h <? k then h :: l
      else if h =? k then l
      else k :: insert_key h l'
  end.

Definition group_keys (df : list processed_row) : list Z :=
  fold_right insert_key [] (map Hour df).

Definition hour_is (h : Z) (r : processed_row) : bool := Hour r =? h.
Definition month_is (m : Z) (r : processed_row) : bool := Month r =? m.
Definition year_is (y : Z) (r : processed_row) : bool := Year r =? y.

(** [df.groupby('Hour')['Solar Radiation'].mean()]: index and values. *)
Definition groupby_hour_mean (df : list processed_row) : list (Z * Q) :=
  map (fun h => (h, mean_of (map Solar_Radiation (filter (hour_is h) df))))
      (group_keys df).

(** [Series.values] *)
Definition series_values (s : list (Z * Q)) : list Q := map snd s.

Fixpoint zip_with {A B C : Type} (f : A -> B -> C) (a : list A) (b : list B) : list C :=
  match a, b with
  | x :: a', y :: b' => f x y :: zip_with f a' b'
  | _, _ => []
  end.

(** [a - b] on one-dimensional arrays: element by element when the lengths
    agree, an array of length one is stretched, anything else raises. *)
Definition np_sub (a b : list Q) : result (list Q) :=
  if Nat.eqb (List.length a) (List.length b) then Ok (zip_with Qminus a b)
  else match a, b with
       | [x], _ => Ok (map (fun y => x - y)%Q b)
       | _, [y] => Ok (map (fun x => x - y)%Q a)
       | _, _ => Raise (BroadcastError (List.length a) (List.length b))
       end.

Definition np_max (a : list Q) : result Q :=
  match a with
  | [] => Raise (ZeroSizeReduction "maximum")
  | x :: l => Ok (fold_left Qmax l x)
  end.

Definition np_min (a : list Q) : result Q :=
  match a with
  | [] => Raise (ZeroSizeReduction "minimum")
  | x :: l => Ok (fold_left Qmin l x)
  end.

(** The constant [1e-10]. *)
Definition eps : Q := (1 # 10000000000)%Q.

(** [round(x, 2)]: to the nearest hundredth, halves to the even one. *)
Definition rint (q : Q) : Z :=
  let f := Qfloor q in
  match (q - inject_Z f ?= 1 # 2)%Q with
  | Lt => f
  | Gt => f + 1
  | Eq => if Z.even f then f else f + 1
  end.

Definition round2 (q : Q) : Q := (inject_Z (rint (q * 100)) / 100)%Q.

(** ** [calculate_tmm] *)

Record tmm_row : Type := mkTmm {
  T_Month : Z;
  Representative_Year : Z;
  Average_Solar_Radiation : option Q
}.

(** The body of the loop over [years]: the statistic of one year. *)
Definition fs_stat (month_data : list processed_row) (year : Z) : result Q :=
  let long_term_hourly_avg := groupby_hour_mean month_data in
  let year_data := filter (year_is year) month_data in
  let year_hourly_avg := groupby_hour_mean year_data in
  diff <- np_sub (series_values long_term_hourly_avg) (series_values year_hourly_avg) ;;
  hi <- np_max (series_values long_term_hourly_avg) ;;
  lo <- np_min (series_values long_term_hourly_avg) ;;
  let cdf_diff := map (fun x => Qabs (x / (hi - lo + eps)))%Q diff in
  Ok (Qsum cdf_diff).

(** [d[k] = v] on a dict kept in insertion order. *)
Fixpoint dict_set (k : Z) (v : Q) (d : list (Z * Q)) : list (Z * Q) :=
  match d with
  | [] => [(k, v)]
  | (k', v') :: d' => if k' =? k then (k, v) :: d' else (k', v') :: dict_set k v d'
  end.

Definition fs_statistics (month_data : list processed_row) : result (list (Z * Q)) :=
  for_each (fun d year => s <- fs_stat month_data year ;; Ok (dict_set year s d))
           years [].

Definition Qlt_bool (x y : Q) : bool := negb (Qle_bool y x).

(** [min(d, key=d.get)]: the scan keeps the first key and replaces it only by
    a key with a strictly smaller value. *)
Definition min_step (best item : Z * Q) : Z * Q :=
  if Qlt_bool (snd item) (snd best) then item else best.

Definition min_by_value (d : list (Z * Q)) : option Z :=
  match d with
  | [] => None
  | x :: l => Some (fst (fold_left min_step l x))
  end.

Definition months : list Z := [1; 2; 3; 4; 5; 6; 7; 8; 9; 10; 11; 12].

(** The body of the loop over [range(1, 13)]. *)
Definition tmm_month (processed_data : list processed_row) (month : Z) : result tmm_row :=
  match processed_data with
  | [] => Raise (KeyError "Month")
  | _ =>
      let month_data := filter (month_is month) processed_data in
      stats <- fs_statistics month_data ;;
      match min_by_value stats with
      | None => Raise EmptySequence
      | Some representative_year =>
          let representative_data := filter (year_is representative_year) month_data in
          let avg_solar_radiation := series_mean (map Solar_Radiation representative_data) in
          Ok (mkTmm month representative_year (option_map round2 avg_solar_radiation))
      end
  end.

Definition calculate_tmm (processed_data : list processed_row) : result (list tmm_row) :=
  for_each (fun tmm_results month =>
              row <- tmm_month processed_data month ;; Ok (tmm_results ++ [row]))
           months [].

(** ** [calculate_tmy] *)

Definition selected_by (row : tmm_row) (r : processed_row) : bool :=
  month_is (T_Month row) r && year_is (Representative_Year row) r.

Definition tmy_block (processed_data : list processed_row) (row : tmm_row)
  : result (list processed_row) :=
  match processed_data with
  | [] => Raise (KeyError "Month")
  | _ => Ok (filter (selected_by row) processed_data)
  end.

(** [pd.concat(frames, ignore_index=True)] *)
Definition pd_concat (frames : list (list processed_row)) : result (list processed_row) :=
  match frames with
  | [] => Raise NoObjectsToConcatenate
  | _ => Ok (List.concat frames)
  end.

Definition calculate_tmy (tmm_data : list tmm_row) (processed_data : list processed_row)
  : result (list processed_row) :=
  tmy_data_list <-
    for_each (fun acc row => block <- tmy_block processed_data row ;; Ok (acc ++ [block]))
             tmm_data [] ;;
  pd_concat tmy_data_list.

(** ** [calculate_tmy] on a store of frames

    A data frame is an object: the caller and [calculate_tmy] hold a
    reference to the same frame of records.  A store gives, for each address,
    the rows of the frame that lives there.  Indexing a frame with a boolean
    mask and [pd.concat] read their operands and put their result into a new
    frame; [tmy_data_list] holds the addresses of the blocks. *)

Definition frame : Type := list processed_row.

Definition store : Type := list frame.

Definition frame_at (st : store) (a : nat) : frame := nth a st [].

Definition new_frame (st : store) (f : frame) : store * nat :=
  (st ++ [f], List.length st).

(** [processed_data[(processed_data['Month'] == month) & (processed_data['Year'] == year)]] *)
Definition tmy_block_st (st : store) (processed_data : nat) (row : tmm_row)
  : result (store * nat) :=
  block <- tmy_block (frame_at st processed_data) row ;; Ok (new_frame st block).

Definition calculate_tmy_st (st : store) (tmm_data : list tmm_row) (processed_data : nat)
  : result (store * nat) :=
  loop <-
    for_each (fun (acc : store * list nat) row =>
                month_data <- tmy_block_st (fst acc) processed_data row ;;
                Ok (fst month_data, snd acc ++ [snd month_data]))
             tmm_data (st, []) ;;
  tmy_data <- pd_concat (map (frame_at (fst loop)) (snd loop)) ;;
  Ok (new_frame (fst loop) tmy_data).

(** * [calculate_tmm] on records with missing values

    [pd.read_csv] reads an empty cell as NaN and [process_solar_data] hands
    it on as the value of the record.  In this module the value of a record
    is a number or NaN ([None]).  [mean] skips NaN and is NaN without any
    number; numpy's arithmetic, [max], [min] and [abs] and Python's [sum]
    let NaN through; every comparison with NaN is false.  All divisors here
    are a range plus [1e-10], never zero. *)

Module WithNaN.

Definition float : Type := option Q.

Record processed_row : Type := mkRec {
  Year : Z;
  Month : Z;
  Day : Z;
  Hour : Z;
  Solar_Radiation : float
}.

Definition lift2 (op : Q -> Q -> Q) (x y : float) : float :=
  match x, y with
  | Some a, Some b => Some (op a b)
  | _, _ => None
  end.

Definition fadd : float -> float -> float := lift2 Qplus.
Definition fsub : float -> float -> float := lift2 Qminus.
Definition fdiv : float -> float -> float := lift2 Qdiv.
Definition fmax : float -> float -> float := lift2 Qmax.
Definition fmin : float -> float -> float := lift2 Qmin.
Definition fabs : float -> float := option_map Qabs.

(** [x < y] *)
Definition flt (x y : float) : bool :=
  match x, y with
  | Some a, Some b => Qlt_bool a b
  | _, _ => false
  end.

(** The numbers of a series. *)
Fixpoint numbers (l : list float) : list Q :=
  match l with
  | [] => []
  | Some x :: l' => x :: numbers l'
  | None :: l' => numbers l'
  end.

(** [Series.mean()], with [skipna=True]. *)
Definition mean (l : list float) : float := series_mean (numbers l).

Definition group_keys (df : list processed_row) : list Z :=
  fold_right insert_key [] (map Hour df).

Definition hour_is (h : Z) (r : processed_row) : bool := Hour r =? h.
Definition month_is (m : Z) (r : processed_row) : bool := Month r =? m.
Definition year_is (y : Z) (r : processed_row) : bool := Year r =? y.

(** [df.groupby('Hour')['Solar Radiation'].mean()]: index and values. *)
Definition groupby_hour_mean (df : list processed_row) : list (Z * float) :=
  map (fun h => (h, mean (map Solar_Radiation (filter (hour_is h) df))))
      (group_keys df).

Definition series_values (s : list (Z * float)) : list float := map snd s.

Definition np_sub (a b : list float) : result (list float) :=
  if Nat.eqb (List.length a) (List.length b) then Ok (zip_with fsub a b)
  else match a, b with
       | [x], _ => Ok (map (fun y => fsub x y) b)
       | _, [y] => Ok (map (fun x => fsub x y) a)
       | _, _ => Raise (BroadcastError (List.length a) (List.length b))
       end.

Definition np_max (a : list float) : result float :=
  match a with
  | [] => Raise (ZeroSizeReduction "maximum")
  | x :: l => Ok (fold_left fmax l x)
  end.

Definition np_min (a : list float) : result float :=
  match a with
  | [] => Raise (ZeroSizeReduction "minimum")
  | x :: l => Ok (fold_left fmin l x)
  end.

(** The body of the loop over [years]: the statistic of one year. *)
Definition fs_stat (month_data : list processed_row) (year : Z) : result float :=
  let long_term_hourly_avg := groupby_hour_mean month_data in
  let year_data := filter (year_is year) month_data in
  let year_hourly_avg := groupby_hour_mean year_data in
  diff <- np_sub (series_values long_term_hourly_avg) (series_values year_hourly_avg) ;;
  hi <- np_max (series_values long_term_hourly_avg) ;;
  lo <- np_min (series_values long_term_hourly_avg) ;;
  let cdf_diff := map (fun x => fabs (fdiv x (fadd (fsub hi lo) (Some eps)))) diff in
  Ok (fold_left fadd cdf_diff (Some 0%Q)).

Fixpoint dict_set (k : Z) (v : float) (d : list (Z * float)) : list (Z * float) :=
  match d with
  | [] => [(k, v)]
  | (k', v') :: d' => if k' =? k then (k, v) :: d' else (k', v') :: dict_set k v d'
  end.

Definition fs_statistics (month_data : list processed_row) : result (list (Z * float)) :=
  for_each (fun d year => s <- fs_stat month_data year ;; Ok (dict_set year s d))
           years [].

(** [min(d, key=d.get)]: the scan keeps the first key and replaces it only by
    a key whose value compares smaller; a NaN value never does, and is never
    replaced once it is kept. *)
Definition min_step (best item : Z * float) : Z * float :=
  if flt (snd item) (snd best) then item else best.

Definition min_by_value (d : list (Z * float)) : option Z :=
  match d with
  | [] => None
  | x :: l => Some (fst (fold_left min_step l x))
  end.

(** The body of the loop over [range(1, 13)]. *)
Definition tmm_month (processed_data : list processed_row) (month : Z) : result tmm_row :=
  match processed_data with
  | [] => Raise (KeyError "Month")
  | _ =>
      let month_data := filter (month_is month) processed_data in
      stats <- fs_statistics month_data ;;
      match min_by_value stats with
      | None => Raise EmptySequence
      | Some representative_year =>
          let representative_data := filter (year_is representative_year) month_data in
          let avg_solar_radiation := mean (map Solar_Radiation representative_data) in
          Ok (mkTmm month representative_year (option_map round2 avg_solar_radiation))
      end
  end.

Definition calculate_tmm (processed_data : list processed_row) : result (list tmm_row) :=
  for_each (fun tmm_results month =>
              row <- tmm_month processed_data month ;; Ok (tmm_results ++ [row]))
           months [].

End WithNaN.

(** A record without a missing value, as a record of [WithNaN]. *)
Definition lift_row (r : processed_row) : WithNaN.processed_row :=
  WithNaN.mkRec (Year r) (Month r) (Day r) (Hour r) (Some (Solar_Radiation r)).

Definition lift_stat (p : Z * Q) : Z * WithNaN.float := (fst p, Some (snd p)).

(** * Auxiliary definitions for the statements *)

(** A loop that collects one result per element. *)
Fixpoint map_result {X Y : Type} (f : X -> result Y) (l : list X) : result (list Y) :=
  match l with
  | [] => Ok []
  | x :: l' => y <- f x ;; ys <- map_result f l' ;; Ok (y :: ys)
  end.

(** What one year of one value row appends to the records and to the log. *)
Definition emitted (label : option string) (hour : Z) (yv : Z * Q) : list processed_row :=
  match full_date_of label (fst yv) hour with
  | Some full_date =>
      [mkRec (fst yv) (d_month (ts_date full_date)) (d_day (ts_date full_date))
             (ts_hour full_date)
             (if negb (is_leap_year (fst yv)) && is_feb_29 full_date then 0%Q else snd yv)]
  | None => []
  end.

Definition reported (label : option string) (hour : Z) (yv : Z * Q)
  : list (option string * Z) :=
  match full_date_of label (fst yv) hour with
  | Some _ => []
  | None => [(label, fst yv)]
  end.

(** The records and the log of a scan that starts under [label], and the
    label it ends with. *)
Fixpoint scan_from (label : option string) (data : list RawRow)
  : result (option string * list processed_row * list (option string * Z)) :=
  match data with
  | [] => Ok (label, [], [])
  | row :: data' =>
      match is_date_marker (first row) with
      | Some s => scan_from (Some s) data'
      | None =>
          hour <- int_of_cell (first row) ;;
          out <- scan_from label data' ;;
          let yvs := combine years (values row) in
          Ok (fst (fst out),
              flat_map (emitted label hour) yvs ++ snd (fst out),
              flat_map (reported label hour) yvs ++ snd out)
      end
  end.

(** Value rows, each with the label in force when it is scanned. *)
Definition is_value_row (row : RawRow) : bool :=
  match is_date_marker (first row) with Some _ => false | None => true end.

Definition value_rows (data : list RawRow) : list RawRow := filter is_value_row data.

Fixpoint labelled (label : option string) (data : list RawRow)
  : list (option string * RawRow) :=
  match data with
  | [] => []
  | row :: data' =>
      match is_date_marker (first row) with
      | Some s => labelled (Some s) data'
      | None => (label, row) :: labelled label data'
      end
  end.

Definition date_fails (label : option string) (year : Z) : bool :=
  match to_datetime (date_string label year) with
  | Some _ => false
  | None => true
  end.

(** The (label, year) combinations, one per value row and tracked year,
    whose date cannot be built. *)
Definition failing_combinations (data : list RawRow) : list (option string * Z) :=
  flat_map (fun lr => map (pair (fst lr)) (filter (date_fails (fst lr)) years))
           (labelled None data).

(** [t] is what remains of [l] after some first characters. *)
Definition suffix_of (t l : list ascii) : Prop := exists p, l = p ++ t.

(** The records of one value row under its label: one for each tracked year
    whose date can be built. *)
Definition row_records (lr : option string * RawRow) : list processed_row :=
  match int_of_cell (first (snd lr)) with
  | Ok hour => flat_map (emitted (fst lr) hour) (combine years (values (snd lr)))
  | Raise _ => []
  end.

(** A value row whose first cell converts with [int]. *)
Definition hour_converts (row : RawRow) : Prop :=
  is_value_row row = true /\ exists hour, int_of_cell (first row) = Ok hour.

(** What the scan reports for value rows met before any date marker. *)
Definition unlabelled_reports (pre : list RawRow) : list (option string * Z) :=
  flat_map (fun row => map (fun yv => (@None string, fst yv)) (combine years (values row)))
           pre.

(** ** Sample inputs *)

Definition sample_values : list Q := [1; 2; 3; 4; 5]%Q.

(** One hour under 29-Feb. *)
Definition feb29_table (hour : Z) (vs : list Q) : list RawRow :=
  [mkRow (CStr "29-Feb") []; mkRow (CInt hour) vs].

(** Two value rows without a label, then a well-formed day and a day that no
    year has. *)
Definition sample_table : list RawRow :=
  [mkRow (CStr "0") sample_values; mkRow (CInt 1) sample_values;
   mkRow (CStr "15-Jan") []; mkRow (CStr "0") sample_values;
   mkRow (CStr "31-Apr") []; mkRow (CStr "0") sample_values;
   mkRow (CStr "29-Feb") []; mkRow (CStr "12") sample_values].

(** The block of one selection. *)
Definition block_of (processed_data : list processed_row) (row : tmm_row)
  : list processed_row :=
  filter (selected_by row) processed_data.

(** One record in January, one in February, and the two selections in the
    reverse order. *)
Definition two_month_records : list processed_row :=
  [mkRec 2019 1 1 0 1%Q; mkRec 2019 2 1 0 2%Q].

Definition reversed_selections : list tmm_row :=
  [mkTmm 2 2019 (Some 2%Q); mkTmm 1 2019 (Some 1%Q)].

(** The records of one month, and of one year within them. *)
Definition month_data_of (processed_data : list processed_row) (month : Z)
  : list processed_row :=
  filter (month_is month) processed_data.

Definition year_data_of (month_data : list processed_row) (year : Z)
  : list processed_row :=
  filter (year_is year) month_data.

(** Every month has records and, within each month, every tracked year has
    records for as many distinct hours as the month as a whole. *)
Definition hours_aligned (processed_data : list processed_row) : Prop :=
  forall m, In m months ->
    month_data_of processed_data m <> [] /\
    forall y, In y years ->
      List.length (group_keys (year_data_of (month_data_of processed_data m) y)) =
      List.length (group_keys (month_data_of processed_data m)).

(** One record per tracked year in every month but [skip]. *)
Definition all_months_but (skip : Z) : list processed_row :=
  flat_map (fun m => if m =? skip then [] else map (fun y => mkRec y m 1 0 1%Q) years)
           months.

(** Two hours in every month, for 2019 only. *)
Definition only_2019 : list processed_row :=
  flat_map (fun m => [mkRec 2019 m 1 0 1%Q; mkRec 2019 m 1 1 1%Q]) months.

(** Three records per month and tracked year; the years differ in a single
    value, and 2021 carries the middle one. *)
Definition spread_records : list processed_row :=
  flat_map (fun m =>
    flat_map (fun y => [mkRec y m 1 0 (inject_Z (y - 2019));
                        mkRec y m 1 1 (1 # 3)%Q;
                        mkRec y m 2 0 1%Q]) years) months.

Definition spread_selections : list tmm_row :=
  map (fun m => mkTmm m 2021 (Some (111 # 100)%Q)) months.



(** The profiles in the words of the specification: for a fixed month, the
    mean value at hour [h] over all tracked years, and over one year. *)
Definition longTermProfile (month_data : list processed_row) (h : Z) : Q :=
  mean_of (map Solar_Radiation (filter (fun r => Hour r =? h) month_data)).

Definition candidateProfile (month_data : list processed_row) (y h : Z) : Q :=
  mean_of (map Solar_Radiation
               (filter (fun r => (Year r =? y) && (Hour r =? h)) month_data)).

(** The hours for which a profile is defined. *)
Definition profile_hours (df : list processed_row) : list Z := group_keys df.

Fixpoint sum_over (hs : list Z) (f : Z -> Q) : Q :=
  match hs with
  | [] => 0%Q
  | h :: hs' => (f h + sum_over hs' f)%Q
  end.

Definition is_max_over (hs : list Z) (f : Z -> Q) (hi : Q) : Prop :=
  (exists h, In h hs /\ hi = f h) /\ forall h, In h hs -> (f h <= hi)%Q.

Definition is_min_over (hs : list Z) (f : Z -> Q) (lo : Q) : Prop :=
  (exists h, In h hs /\ lo = f h) /\ forall h, In h hs -> (lo <= f h)%Q.

(** ** Further definitions: the scan *)

(** A date of the calendar. *)
Definition valid_date (d : date) : Prop :=
  1 <= d_month d <= 12 /\ 1 <= d_day d <= days_in_month (d_year d) (d_month d).

(** The records of [sample_table]. *)
Definition sample_records : list processed_row :=
  Eval vm_compute in
    match process_solar_data sample_table with
    | Ok pd => pd
    | Raise _ => []
    end.

(** The label of a day as the tables write it: the day in two digits, a
    dash and the English abbreviation of the month. *)
Definition month_names : list string :=
  ["Jan"; "Feb"; "Mar"; "Apr"; "May"; "Jun";
   "Jul"; "Aug"; "Sep"; "Oct"; "Nov"; "Dec"]%string.

Definition digit_char (n : Z) : ascii := ascii_of_N (Z.to_N (48 + n)).

Definition day_label (d m : Z) : string :=
  (String (digit_char (d / 10)) (String (digit_char (d mod 10)) "-")
   ++ nth (Z.to_nat (m - 1)) month_names "")%string.

Definition date_eqb (a b : date) : bool :=
  (d_year a =? d_year b) && (d_month a =? d_month b) && (d_day a =? d_day b).

(** What [to_datetime] makes of the label of day [d] of month [m] in year
    [y], checked against the calendar. *)
Definition label_parses (y m d : Z) : bool :=
  match to_datetime (date_string (Some (day_label d m)) y) with
  | Some dt => (d <=? days_in_month y m) && date_eqb dt (mkDate y m d)
  | None => negb (d <=? days_in_month y m)
  end.

Definition one_to (n : nat) : list Z := map Z.of_nat (seq 1 n).

(** ** Further definitions: the script *)

(** The three steps of the script, without the files it writes. *)
Definition main (data : list RawRow)
  : result (list processed_row * list tmm_row * list processed_row) :=
  pd <- process_solar_data data ;;
  tmm_data <- calculate_tmm pd ;;
  tmy_data <- calculate_tmy tmm_data pd ;;
  Ok (pd, tmm_data, tmy_data).

(** ** Further definitions: the selection *)

(** The shapes [(n,)] and [(k,)] that numpy can combine. *)
Definition broadcastable (n k : nat) : bool :=
  Nat.eqb n k || Nat.eqb n 1 || Nat.eqb k 1.

(** What the loop body over the months needs in order to return. *)
Definition month_selectable (pd : list processed_row) (m : Z) : Prop :=
  month_data_of pd m <> [] /\
  forall y, In y years ->
    broadcastable (List.length (group_keys (month_data_of pd m)))
                  (List.length (group_keys (year_data_of (month_data_of pd m) y))) = true.

(** The statistic of 2021 in the January of [spread_records]. *)
Definition spread_stat_2021 : Q :=
  Eval vm_compute in
    match fs_stat (month_data_of spread_records 1) 2021 with
    | Ok v => v
    | Raise _ => 0%Q
    end.

(** A single hour per month, and February for 2020 only. *)
Definition leap_only_records : list processed_row :=
  flat_map (fun m => if m =? 2 then [mkRec 2020 2 29 0 7%Q]
                     else map (fun y => mkRec y m 1 0 1%Q) years) months.

Definition leap_only_selections : list tmm_row :=
  Eval vm_compute in
    match calculate_tmm leap_only_records with
    | Ok out => out
    | Raise _ => []
    end.

(** Two outcomes that agree: the same error, or related values. *)
Definition same_result {A : Type} (R : A -> A -> Prop) (x y : result A) : Prop :=
  match x, y with
  | Ok a, Ok b => R a b
  | Raise e, Raise e' => e = e'
  | _, _ => False
  end.

(** Two entries of the dict of statistics that agree. *)
Definition same_stat (p q : Z * Q) : Prop := fst p = fst q /\ (snd p == snd q)%Q.

(** ** Further sample inputs *)

(** The last day of the year and an hour offset of sixty days. *)
Definition rollover_table : list RawRow :=
  [mkRow (CStr "31-Dec") []; mkRow (CInt 1440) sample_values].

Definition rollover_records : list processed_row :=
  Eval vm_compute in
    match process_solar_data rollover_table with
    | Ok pd => pd
    | Raise _ => []
    end.

(** The first day of every month, with one hour. *)
Definition first_days_table : list RawRow :=
  flat_map (fun m => [mkRow (CStr (day_label 1 m)) []; mkRow (CInt 0) sample_values])
           (one_to 12).

Definition first_days_records : list processed_row :=
  Eval vm_compute in
    match process_solar_data first_days_table with
    | Ok pd => pd
    | Raise _ => []
    end.

Definition first_days_selections : list tmm_row :=
  Eval vm_compute in
    match calculate_tmm first_days_records with
    | Ok out => out
    | Raise _ => []
    end.

(** A row without what the scan does not read: the values of a date marker
    and the values after the fifth. *)
Definition tidy_row (row : RawRow) : RawRow :=
  match is_date_marker (first row) with
  | Some _ => mkRow (first row) []
  | None => mkRow (first row) (firstn 5 (values row))
  end.

(** ** [visualize_tmy_comparison]: the data that is plotted *)

(** The group keys of a [groupby] on an integer column: its distinct values,
    ascending. *)
Definition keys_of (col : processed_row -> Z) (df : list processed_row) : list Z :=
  fold_right insert_key [] (map col df).

(** [processed_data.groupby(['Month', 'Year'])['Solar Radiation'].mean().reset_index()]:
    one row for each pair of month and year that has records, the pairs in
    ascending order. *)
Definition original_monthly_avg (processed_data : list processed_row)
  : list (Z * Z * Q) :=
  flat_map (fun m =>
              map (fun y => (m, y,
                             mean_of (map Solar_Radiation
                                          (filter (year_is y)
                                                  (filter (month_is m) processed_data)))))
                  (keys_of Year (filter (month_is m) processed_data)))
           (keys_of Month processed_data).

(** [tmy_data.groupby('Month')['Solar Radiation'].mean()]: index and values. *)
Definition tmy_monthly_avg (tmy_data : list processed_row) : list (Z * Q) :=
  map (fun m => (m, mean_of (map Solar_Radiation (filter (month_is m) tmy_data))))
      (keys_of Month tmy_data).

(** [original_monthly_avg[original_monthly_avg['Year'] == year]], as the
    months and values given to [plt.scatter]. *)
Definition scatter_points (avg : list (Z * Z * Q)) (year : Z) : list (Z * Q) :=
  map (fun t => (fst (fst t), snd t)) (filter (fun t => snd (fst t) =? year) avg).

(** What the function gives to the plotting library: one scatter series for
    each year of [range(2019, 2024)] and the line of the typical year.  The
    series frame [tmy_data] has its columns, as [calculate_tmy] returns it. *)
Definition visualize_tmy_comparison (processed_data tmy_data : list processed_row)
  : result (list (Z * list (Z * Q)) * list (Z * Q)) :=
  match processed_data with
  | [] => Raise (KeyError "Month")
  | _ =>
      let original := original_monthly_avg processed_data in
      let tmy_line := tmy_monthly_avg tmy_data in
      Ok (map (fun year => (year, scatter_points original year)) years, tmy_line)
  end.

Definition first_days_series : list processed_row :=
  Eval vm_compute in
    match calculate_tmy first_days_selections first_days_records with
    | Ok tmy => tmy
    | Raise _ => []
    end.

Definition first_days_plot : list (Z * list (Z * Q)) * list (Z * Q) :=
  Eval vm_compute in
    match visualize_tmy_comparison first_days_records first_days_series with
    | Ok p => p
    | Raise _ => ([], [])
    end.

(** An hour cell as the tables write it, and what the row classifier and
    [int] make of it. *)
Definition hour_cell_reads (h : Z) : bool :=
  match is_date_marker (CStr (str_of_int h)), int_of_cell (CStr (str_of_int h)) with
  | None, Ok n => n =? h
  | _, _ => false
  end.

(** ** Further definitions: missing values and short years *)

(** One record per tracked year in every month, valued 0 to 4 by year; the
    cell of January 2019 is empty. *)
Definition blank_cell_records : list WithNaN.processed_row :=
  flat_map (fun m =>
    map (fun y => WithNaN.mkRec y m 1 0
                    (if (m =? 1) && (y =? 2019) then None
                     else Some (inject_Z (y - 2019))))
        years) months.

Definition blank_cell_selections : list tmm_row :=
  mkTmm 1 2019 None :: map (fun m => mkTmm m 2021 (Some (200 # 100)%Q)) (tl months).

(** January with two hours, of which 2019 has only the first; one record per
    tracked year in the other months. *)
Definition short_year_records : list processed_row :=
  [mkRec 2019 1 1 0 1%Q; mkRec 2020 1 1 0 1%Q; mkRec 2021 1 1 0 1%Q;
   mkRec 2022 1 1 0 1%Q; mkRec 2023 1 1 0 1%Q;
   mkRec 2020 1 1 1 12%Q; mkRec 2021 1 1 1 11%Q;
   mkRec 2022 1 1 1 9%Q; mkRec 2023 1 1 1 8%Q]
  ++ all_months_but 1.

Definition short_year_selections : list tmm_row :=
  mkTmm 1 2021 (Some (600 # 100)%Q)
  :: map (fun m => mkTmm m 2019 (Some (100 # 100)%Q)) (tl months).

(** The hours present in both profiles, of the month and of the year. *)
Definition common_hours (month_data : list processed_row) (y : Z) : list Z :=
  filter (fun h => existsb (Z.eqb h) (profile_hours (year_data_of month_data y)))
         (profile_hours month_data).

(** The statistic in the words of the specification, for the maximum [hi]
    and the minimum [lo] of the long-term profile. *)
Definition FS (month_data : list processed_row) (y : Z) (hi lo : Q) : Q :=
  (sum_over (common_hours month_data y)
            (fun h => Qabs (longTermProfile month_data h - candidateProfile month_data y h))
   / (hi - lo + (1 # 10000000000)))%Q.

(** * Properties *)

(** ** Loops that collect one result per element *)

Lemma for_each_collect {X Y : Type} (f : X -> result Y) (l : list X) (acc : list Y) :
  for_each (fun acc x => y <- f x ;; Ok (acc ++ [y])) l acc =
  ys <- map_result f l ;; Ok (acc ++ ys).
Proof.
  revert acc; induction l as [|x l IH]; intros acc; simpl.
  - now rewrite app_nil_r.
  - destruct (f x) as [y|e]; simpl; [|reflexivity].
    rewrite IH. destruct (map_result f l) as [ys|e]; simpl; [|reflexivity].
    now rewrite <- app_assoc.
Qed.

Lemma map_result_ok {X Y : Type} (f : X -> result Y) (l : list X) (ys : list Y) :
  map_result f l = Ok ys -> Forall2 (fun x y => f x = Ok y) l ys.
Proof.
  revert ys; induction l as [|x l IH]; intros ys; simpl.
  - intros H; injection H as <-; constructor.
  - destruct (f x) as [y|e] eqn:Ef; simpl; [|discriminate].
    destruct (map_result f l) as [zs|e]; simpl; [|discriminate].
    intros H; injection H as <-. constructor; auto.
Qed.

Lemma map_result_total {X Y : Type} (f : X -> result Y) (l : list X) :
  (forall x, In x l -> exists y, f x = Ok y) -> exists ys, map_result f l = Ok ys.
Proof.
  induction l as [|x l IH]; intros H; simpl.
  - now exists [].
  - destruct (H x (or_introl eq_refl)) as [y ->].
    destruct IH as [ys ->]; [intros; apply H; now right|].
    now exists (y :: ys).
Qed.

Lemma map_result_raise {X Y : Type} (f : X -> result Y) (l : list X) (x : X) (e : exn) :
  In x l -> f x = Raise e -> exists e', map_result f l = Raise e'.
Proof.
  induction l as [|a l IH]; simpl; [tauto|].
  intros [->|Hin] Hx.
  - rewrite Hx. now exists e.
  - destruct (f a) as [y|e0]; simpl; [|now exists e0].
    destruct (IH Hin Hx) as [e' ->]. now exists e'.
Qed.

Lemma Forall2_in_l {X Y : Type} (P : X -> Y -> Prop) (l : list X) (ys : list Y) (x : X) :
  Forall2 P l ys -> In x l -> exists y, In y ys /\ P x y.
Proof.
  induction 1 as [|a b l ys Hab _ IH]; simpl; [tauto|].
  intros [->|Hin]; [exists b; auto|].
  destruct (IH Hin) as [y [? ?]]; exists y; auto.
Qed.

Lemma Forall2_in_r {X Y : Type} (P : X -> Y -> Prop) (l : list X) (ys : list Y) (y : Y) :
  Forall2 P l ys -> In y ys -> exists x, In x l /\ P x y.
Proof.
  induction 1 as [|a b l ys Hab _ IH]; simpl; [tauto|].
  intros [->|Hin]; [exists a; auto|].
  destruct (IH Hin) as [x [? ?]]; exists x; auto.
Qed.

(** ** Reading the date *)

Lemma list_ascii_of_string_app (s t : string) :
  list_ascii_of_string (s ++ t) = list_ascii_of_string s ++ list_ascii_of_string t.
Proof. induction s as [|c s IH]; cbn; [reflexivity|now rewrite IH]. Qed.

Lemma same_length_tails {A : Type} (l1 l2 t1 t2 : list A) :
  l1 ++ t1 = l2 ++ t2 -> List.length t1 = List.length t2 -> t1 = t2.
Proof.
  revert l2; induction l1 as [|a l1 IH]; intros [|b l2] H Hlen; cbn in H.
  - exact H.
  - exfalso. rewrite H in Hlen. cbn in Hlen. rewrite length_app in Hlen. lia.
  - exfalso. rewrite <- H in Hlen. cbn in Hlen. rewrite length_app in Hlen. lia.
  - injection H as _ H. now apply IH with l2.
Qed.

Lemma suffix_of_trans (a b c : list ascii) : suffix_of a b -> suffix_of b c -> suffix_of a c.
Proof. intros [p ->] [q ->]. exists (q ++ p). now rewrite app_assoc. Qed.

Lemma lstrip_with_suffix (space : ascii -> bool) (l : list ascii) :
  suffix_of (lstrip_with space l) l.
Proof.
  induction l as [|c l [p IH]]; [now exists []|]. cbn.
  destruct (space c); [|now exists []].
  exists (c :: p). cbn. now rewrite <- IH.
Qed.

Lemma lstrip_suffix (l : list ascii) : suffix_of (lstrip l) l.
Proof. apply lstrip_with_suffix. Qed.

Lemma match_d_suffix (l : list ascii) (d : Z) (rest : list ascii) :
  In (d, rest) (match_d l) -> suffix_of rest l.
Proof.
  unfold match_d. intros H.
  destruct l as [|a [|b r]]; cbn in H;
    repeat match goal with
           | H : _ \/ _ |- _ => destruct H as [H|H]
           | H : In _ (_ ++ _) |- _ => apply in_app_iff in H
           | H : In _ (if ?c then _ else _) |- _ => destruct c; cbn in H
           | H : In _ [] |- _ => contradiction
           | H : (_, _) = (_, _) |- _ => injection H as _ <-
           | H : False |- _ => contradiction
           end;
    first [now exists [a; b] | now exists [a]].
Qed.

Lemma match_Y_tail (l : list ascii) (y : Z) :
  match_Y l = Some y ->
  exists y1 y2 y3 y4,
    suffix_of [y1; y2; y3; y4] l /\
    y = 1000 * digit_val y1 + 100 * digit_val y2 + 10 * digit_val y3 + digit_val y4.
Proof.
  unfold match_Y. destruct l as [|c l]; [discriminate|].
  destruct (is_space c); [|discriminate].
  pose proof (lstrip_suffix l) as Hs.
  destruct (lstrip l) as [|y1 [|y2 [|y3 [|y4 [|z t]]]]]; try discriminate.
  destruct (is_digit y1 && is_digit y2 && is_digit y3 && is_digit y4); [|discriminate].
  intros H; injection H as <-. exists y1, y2, y3, y4. split; [|reflexivity].
  apply suffix_of_trans with l; [exact Hs|now exists [c]].
Qed.

Lemma match_after_d_year (dr : Z * list ascii) (d : date) :
  match_after_d dr = Some d ->
  d_day d = fst dr /\
  exists y1 y2 y3 y4,
    suffix_of [y1; y2; y3; y4] (snd dr) /\
    d_year d = 1000 * digit_val y1 + 100 * digit_val y2 + 10 * digit_val y3 + digit_val y4.
Proof.
  unfold match_after_d. destruct (snd dr) as [|c r] eqn:Er; [discriminate|].
  destruct (Ascii.eqb c "-"); [|discriminate].
  unfold match_b. destruct r as [|a [|b [|c' r']]]; try discriminate.
  destruct (lookup_abbr _ month_abbr) as [m|]; [|discriminate].
  destruct (match_Y r') as [y|] eqn:Ey; [|discriminate].
  intros H; injection H as <-. split; [reflexivity|].
  destruct (match_Y_tail r' y Ey) as (y1 & y2 & y3 & y4 & Hs & ->).
  exists y1, y2, y3, y4. split; [|reflexivity].
  apply suffix_of_trans with r'; [exact Hs|now exists [c; a; b; c']].
Qed.

Lemma first_match_some {X Y : Type} (f : X -> option Y) (l : list X) (y : Y) :
  first_match f l = Some y -> exists x, In x l /\ f x = Some y.
Proof.
  induction l as [|x l IH]; cbn; [discriminate|].
  destruct (f x) as [y'|] eqn:E.
  - intros H; injection H as <-. exists x; auto.
  - intros H. destruct (IH H) as [x' [? ?]]. exists x'; auto.
Qed.

(** The year that [to_datetime] reads is the tracked year that was appended
    to the label, whatever the label is. *)
Lemma to_datetime_year (label : option string) (y : Z) (d : date) :
  In y years -> to_datetime (date_string label y) = Some d ->
  d_year d = y /\ d_day d <= days_in_month y (d_month d).
Proof.
  intros Hy. unfold to_datetime.
  destruct (first_match _ _) as [d'|] eqn:E; [|discriminate].
  destruct (_ && _) eqn:Hvalid; [|discriminate].
  intros H; injection H as <-.
  apply andb_true_iff in Hvalid. destruct Hvalid as [_ Hday]. apply Z.leb_le in Hday.
  apply first_match_some in E. destruct E as ((dd & rest) & Hin & Hafter).
  apply match_d_suffix in Hin.
  apply match_after_d_year in Hafter.
  destruct Hafter as (_ & y1 & y2 & y3 & y4 & Hs & Hyear). cbn [snd] in Hs.
  pose proof (suffix_of_trans _ _ _ Hs Hin) as [p Hp].
  assert (Hd : d_year d' = y).
  { unfold date_string in Hp. rewrite !list_ascii_of_string_app in Hp.
    rewrite app_assoc in Hp. cbn in Hy.
    repeat (destruct Hy as [<-|Hy];
            [apply same_length_tails in Hp; [|reflexivity];
             injection Hp as <- <- <- <-; rewrite Hyear; reflexivity|]).
    contradiction. }
  rewrite <- Hd at 2. split; assumption.
Qed.

(** Within the day and in a tracked year the offset stays far inside the
    64-bit bounds. *)
Lemma add_hours_within_day (d : date) (hour : Z) :
  In (d_year d) years -> 0 <= hour < 24 -> add_hours d hour = Some (mkTs d hour).
Proof.
  intros Hy H. unfold add_hours.
  assert (Hfits : timedelta_fits hour = true)
    by (unfold timedelta_fits, ns_per_hour, int64_max; apply Z.leb_le; lia).
  rewrite Hfits, Z.div_small, Z.mod_small by lia. cbn [add_days].
  assert (Hts : timestamp_fits (mkTs d hour) = true).
  { unfold timestamp_fits, ts_leb, timestamp_min, timestamp_max. cbn [ts_date ts_hour d_year].
    cbn in Hy. repeat (destruct Hy as [<-|Hy]; [reflexivity|]). contradiction. }
  now rewrite Hts.
Qed.

Lemma full_date_within_day (label : option string) (y hour : Z) :
  In y years -> 0 <= hour < 24 ->
  full_date_of label y hour =
  option_map (fun d => mkTs d hour) (to_datetime (date_string label y)).
Proof.
  intros Hy Hh. unfold full_date_of.
  destruct (to_datetime (date_string label y)) as [d|] eqn:E; [|reflexivity].
  destruct (to_datetime_year label y d Hy E) as [Hd _].
  cbn [option_map]. apply add_hours_within_day; [now rewrite Hd|exact Hh].
Qed.


(** [int] does not skip the separators 28..31 that [str.isspace] and [\s]
    accept; the date format accepts one in front of the year. *)
Lemma separators_of_int_and_of_the_date :
  int_of_str (String "028" "7") = None /\
  int_of_str (String "009" "7 ") = Some 7 /\
  to_datetime (String.append "15-Jan" (String "028" "2019")) = Some (mkDate 2019 1 15).
Proof. repeat split; reflexivity. Qed.

(** An offset whose nanoseconds do not fit, or that carries the date past
    2262-04-11, costs the record. *)
Lemma offsets_out_of_bounds :
  add_hours (mkDate 2019 1 15) 3000000 = None /\
  add_hours (mkDate 2019 1 15) (-3000000) = None /\
  add_hours (mkDate 2019 1 15) 2200000 = None /\
  add_hours (mkDate 2019 1 15) 2000000 = Some (mkTs (mkDate 2247 3 14) 8) /\
  scan [mkRow (CStr "15-Jan") []; mkRow (CInt 3000000) sample_values] =
  Ok (mkScan (Some "15-Jan"%string) []
             (map (pair (Some "15-Jan"%string)) years)).
Proof. repeat split; vm_compute; reflexivity. Qed.

(** ** The row scan *)

Lemma fold_year_step (hour : Z) (yvs : list (Z * Q)) (st : scan_state) :
  fold_left (year_step hour) yvs st =
  mkScan (current_date st)
         (processed_data st ++ flat_map (emitted (current_date st) hour) yvs)
         (skipped st ++ flat_map (reported (current_date st) hour) yvs).
Proof.
  revert st; induction yvs as [|[y v] yvs IH]; intros st; simpl.
  - rewrite !app_nil_r. now destruct st.
  - rewrite IH. unfold year_step, emitted, reported; simpl.
    destruct (full_date_of (current_date st) y hour); simpl;
      now rewrite <- ?app_assoc, ?app_nil_r.
Qed.

Lemma for_each_row_step (data : list RawRow) (st : scan_state) :
  for_each row_step data st =
  out <- scan_from (current_date st) data ;;
  Ok (mkScan (fst (fst out)) (processed_data st ++ snd (fst out)) (skipped st ++ snd out)).
Proof.
  revert st; induction data as [|row data IH]; intros st; simpl.
  - rewrite !app_nil_r. now destruct st.
  - unfold row_step. destruct (is_date_marker (first row)) as [s|]; simpl.
    + now rewrite IH.
    + destruct (int_of_cell (first row)) as [hour|e]; simpl; [|reflexivity].
      rewrite IH, fold_year_step; simpl.
      destruct (scan_from (current_date st) data) as [[[l r] k]|e]; simpl; [|reflexivity].
      now rewrite !app_assoc.
Qed.

Lemma scan_from_app (label : option string) (pre post : list RawRow) :
  scan_from label (pre ++ post) =
  a <- scan_from label pre ;;
  b <- scan_from (fst (fst a)) post ;;
  Ok (fst (fst b), snd (fst a) ++ snd (fst b), snd a ++ snd b).
Proof.
  revert label; induction pre as [|row pre IH]; intros label; simpl.
  - now destruct (scan_from label post) as [[[l r] k]|e].
  - destruct (is_date_marker (first row)) as [s|]; [apply IH|].
    destruct (int_of_cell (first row)) as [hour|e]; simpl; [|reflexivity].
    rewrite IH.
    destruct (scan_from label pre) as [[[l r] k]|e]; simpl; [|reflexivity].
    destruct (scan_from l post) as [[[l' r'] k']|e]; simpl; [|reflexivity].
    now rewrite !app_assoc.
Qed.

Lemma reported_filter (label : option string) (hour : Z) (yvs : list (Z * Q)) :
  0 <= hour < 24 -> incl (map fst yvs) years ->
  flat_map (reported label hour) yvs =
  map (pair label) (filter (date_fails label) (map fst yvs)).
Proof.
  intros Hh. induction yvs as [|[y v] yvs IH]; simpl; intros Hy; [reflexivity|].
  apply incl_cons_inv in Hy. destruct Hy as [Hy Hys].
  unfold reported at 1, date_fails at 1; simpl.
  rewrite (full_date_within_day label y hour Hy Hh).
  destruct (to_datetime (date_string label y)); simpl; now rewrite IH.
Qed.

Lemma emitted_reported_length (label : option string) (hour : Z) (yvs : list (Z * Q)) :
  (List.length (flat_map (emitted label hour) yvs)
   + List.length (flat_map (reported label hour) yvs) = List.length yvs)%nat.
Proof.
  induction yvs as [|[y v] yvs IH]; simpl; [reflexivity|].
  rewrite !length_app. unfold emitted at 1, reported at 1; simpl.
  destruct (full_date_of label y hour); simpl; lia.
Qed.

Lemma map_fst_combine {A B : Type} (l : list A) (l' : list B) :
  List.length l = List.length l' -> map fst (combine l l') = l.
Proof.
  revert l'; induction l as [|a l IH]; intros [|b l']; simpl; try discriminate; auto.
  intros H; f_equal; apply IH; lia.
Qed.

Lemma scan_from_complete (data : list RawRow) (label : option string) :
  (forall row, In row data -> is_value_row row = true ->
     List.length (values row) = List.length years /\
     exists hour, int_of_cell (first row) = Ok hour /\ 0 <= hour < 24) ->
  exists last,
    scan_from label data =
      Ok (last, flat_map row_records (labelled label data),
          flat_map (fun lr => map (pair (fst lr)) (filter (date_fails (fst lr)) years))
                   (labelled label data)) /\
    (List.length (flat_map row_records (labelled label data))
     + List.length (flat_map (fun lr => map (pair (fst lr))
                                           (filter (date_fails (fst lr)) years))
                             (labelled label data))
     = List.length (value_rows data) * List.length years)%nat.
Proof.
  revert label; induction data as [|row data IH]; intros label H.
  - now exists label.
  - assert (Hd : forall r, In r data -> is_value_row r = true ->
                 List.length (values r) = List.length years /\
                 exists hour, int_of_cell (first r) = Ok hour /\ 0 <= hour < 24)
      by (intros; apply H; simpl; auto).
    pose proof (H row (or_introl eq_refl)) as Hrow.
    unfold value_rows; cbn [scan_from labelled filter].
    unfold is_value_row in Hrow |- * at 1.
    destruct (is_date_marker (first row)) as [s|].
    + destruct (IH (Some s) Hd) as (last & -> & Hlen). now exists last.
    + destruct (Hrow eq_refl) as [Hvals [hour [Hhour Hday]]]. rewrite Hhour.
      destruct (IH label Hd) as (last & -> & Hlen).
      cbn [bind fst snd flat_map].
      assert (Hrr : row_records (label, row) =
                    flat_map (emitted label hour) (combine years (values row)))
        by (unfold row_records; cbn [fst snd]; now rewrite Hhour).
      assert (Hfst : map fst (combine years (values row)) = years)
        by (apply map_fst_combine; symmetry; exact Hvals).
      assert (Hrep : flat_map (reported label hour) (combine years (values row)) =
                     map (pair label) (filter (date_fails label) years)).
      { rewrite reported_filter; [now rewrite Hfst|exact Hday|].
        rewrite Hfst. apply incl_refl. }
      rewrite Hrr, Hrep.
      eexists; split; [reflexivity|].
      pose proof (emitted_reported_length label hour (combine years (values row))) as E.
      rewrite Hrep in E.
      rewrite length_combine, Hvals, Nat.min_id in E.
      rewrite !length_app. cbn [List.length]. fold (value_rows data). lia.
Qed.

(** ** Claims about [process_solar_data] *)

(** C7: when every value row carries one value per tracked year and an hour
    of the day (0 to 23), the scan runs to its end; each value row yields one
    record for each tracked year whose date can be built, and each
    (label, year) combination whose date cannot be built is reported and
    costs exactly that one record.  So the number of records is the number of
    value rows times the number of tracked years, minus the number of failing
    combinations. *)
Theorem C7_record_count (data : list RawRow) :
  (forall row, In row data -> is_value_row row = true ->
     List.length (values row) = List.length years /\
     exists hour, int_of_cell (first row) = Ok hour /\ 0 <= hour < 24) ->
  exists st,
    scan data = Ok st /\
    process_solar_data data = Ok (processed_data st) /\
    processed_data st = flat_map row_records (labelled None data) /\
    skipped st = failing_combinations data /\
    Z.of_nat (List.length (processed_data st)) =
      Z.of_nat (List.length (value_rows data)) * Z.of_nat (List.length years)
      - Z.of_nat (List.length (failing_combinations data)).
Proof.
  intros H. unfold process_solar_data, scan, failing_combinations.
  rewrite for_each_row_step. cbn [initial_state current_date processed_data skipped app].
  destruct (scan_from_complete data None H) as (last & -> & Hlen).
  cbn [bind fst snd]. eexists; repeat split.
  cbn [processed_data]. lia.
Qed.

Lemma C7_record_count_witness :
  exists st,
    scan sample_table = Ok st /\
    process_solar_data sample_table = Ok (processed_data st) /\
    processed_data st = flat_map row_records (labelled None sample_table) /\
    skipped st = failing_combinations sample_table /\
    Z.of_nat (List.length (processed_data st)) =
      Z.of_nat (List.length (value_rows sample_table)) * Z.of_nat (List.length years)
      - Z.of_nat (List.length (failing_combinations sample_table)).
Proof.
  apply (C7_record_count sample_table).
  intros row Hin Hv. simpl in Hin.
  repeat (destruct Hin as [<-|Hin];
          [first [discriminate Hv
                 | split; [reflexivity|];
                   match goal with
                   | |- exists h, int_of_cell ?c = Ok h /\ _ =>
                       let v := eval vm_compute in (int_of_cell c) in
                       match v with Ok ?n => exists n end
                   end; split; [reflexivity | lia]]|]).
  contradiction.
Defined.

Lemma to_datetime_unset (year : Z) : to_datetime (date_string None year) = None.
Proof. reflexivity. Qed.

Lemma emitted_unset (hour : Z) (yvs : list (Z * Q)) :
  flat_map (emitted None hour) yvs = [].
Proof.
  induction yvs as [|[y v] l IHl]; [reflexivity|].
  cbn [flat_map]. unfold emitted at 1, full_date_of. cbn [fst].
  now rewrite to_datetime_unset.
Qed.

Lemma reported_unset (hour : Z) (yvs : list (Z * Q)) :
  flat_map (reported None hour) yvs = map (fun yv => (None, fst yv)) yvs.
Proof.
  induction yvs as [|[y v] l IHl]; [reflexivity|].
  cbn [flat_map map]. unfold reported at 1, full_date_of. cbn [fst].
  rewrite to_datetime_unset. cbn [app]. now rewrite IHl.
Qed.

Lemma scan_from_unlabelled (pre : list RawRow) :
  Forall hour_converts pre ->
  scan_from None pre = Ok (None, [], unlabelled_reports pre).
Proof.
  induction 1 as [|row pre [Hv [hour Hh]] _ IH]; [reflexivity|].
  cbn [scan_from]. unfold is_value_row in Hv.
  destruct (is_date_marker (first row)); [discriminate|].
  rewrite Hh, IH. cbn [bind fst snd]. unfold unlabelled_reports; cbn [flat_map].
  now rewrite emitted_unset, reported_unset.
Qed.

(** C9: value rows met before any date marker leave the label unset; every
    date built from the unset label fails, the failure is caught and reported,
    no record is appended for any tracked year, and the scan goes on: the
    records of the whole table are those of the rows that follow. *)
Theorem C9_rows_before_first_marker (pre rest : list RawRow) :
  Forall hour_converts pre ->
  (exists st,
      scan pre = Ok st /\ current_date st = None /\ processed_data st = [] /\
      skipped st = unlabelled_reports pre) /\
  process_solar_data (pre ++ rest) = process_solar_data rest.
Proof.
  intros Hpre. pose proof (scan_from_unlabelled pre Hpre) as Hscan.
  unfold process_solar_data, scan. rewrite !for_each_row_step.
  cbn [initial_state current_date processed_data skipped app].
  rewrite scan_from_app, Hscan. cbn [bind fst snd app].
  split; [eexists; repeat split|].
  now destruct (scan_from None rest) as [[[l r] k]|e].
Qed.

Lemma C9_rows_before_first_marker_witness :
  (exists st,
      scan (firstn 2 sample_table) = Ok st /\ current_date st = None /\
      processed_data st = [] /\
      skipped st = unlabelled_reports (firstn 2 sample_table)) /\
  process_solar_data (firstn 2 sample_table ++ skipn 2 sample_table) =
  process_solar_data (skipn 2 sample_table).
Proof.
  apply (C9_rows_before_first_marker (firstn 2 sample_table) (skipn 2 sample_table)).
  repeat constructor; eexists; reflexivity.
Defined.

(** ** The zeroing branch within the day *)

(** For an hour of the day the zeroing branch of the loop body is never
    taken, whatever the label: a record that comes out for a tracked year
    carries the value of the row, and a record dated February 29 comes out
    for a leap year only. *)
Lemma zeroing_unreachable_within_day (label : option string) (hour y : Z) (v : Q)
      (r : processed_row) :
  In y years -> 0 <= hour < 24 ->
  In r (emitted label hour (y, v)) ->
  Year r = y /\ Hour r = hour /\ Solar_Radiation r = v /\
  (Month r = 2 -> Day r = 29 -> is_leap_year y = true).
Proof.
  intros Hy Hh. unfold emitted. cbn [fst snd].
  rewrite (full_date_within_day label y hour Hy Hh).
  destruct (to_datetime (date_string label y)) as [d|] eqn:E; [|contradiction].
  destruct (to_datetime_year label y d Hy E) as [Hd Hday].
  cbn [option_map ts_date ts_hour].
  intros [<-|[]]. cbn [Year Hour Month Day Solar_Radiation].
  assert (Hleap : d_month d = 2 -> d_day d = 29 -> is_leap_year y = true).
  { intros Hm H29. rewrite Hm, H29 in Hday. unfold days_in_month in Hday.
    cbn in Hday. destruct (is_leap_year y); [reflexivity|lia]. }
  repeat split; auto.
  unfold is_feb_29. cbn [ts_date].
  destruct (is_leap_year y) eqn:El; cbn [negb andb]; [reflexivity|].
  destruct (d_month d =? 2) eqn:Em; cbn [andb]; [|reflexivity].
  destruct (d_day d =? 29) eqn:E29; [|reflexivity].
  apply Z.eqb_eq in Em. apply Z.eqb_eq in E29.
  specialize (Hleap Em E29). discriminate.
Qed.

(** C1, as the code behaves: under the label 29-Feb and an hour of the day,
    the date cannot be built for the years that are not leap years, so those
    years get no record at all (they are reported as invalid instead); only
    the leap year 2020 gets its record, with its value unchanged.  The
    zeroing branch of the loop body is never reached for such a row. *)
Theorem C1_feb29_drops_non_leap_years (hour : Z) (v19 v20 v21 v22 v23 : Q) :
  0 <= hour < 24 ->
  scan (feb29_table hour [v19; v20; v21; v22; v23]) =
  Ok (mkScan (Some "29-Feb"%string)
             [mkRec 2020 2 29 hour v20]
             [(Some "29-Feb"%string, 2019); (Some "29-Feb"%string, 2021);
              (Some "29-Feb"%string, 2022); (Some "29-Feb"%string, 2023)]).
Proof.
  intros Hh. unfold scan, feb29_table. rewrite for_each_row_step.
  cbn -[full_date_of]. unfold emitted, reported. cbn [fst snd].
  rewrite !full_date_within_day by first [exact Hh | cbn; tauto].
  reflexivity.
Qed.

Lemma C1_feb29_drops_non_leap_years_witness :
  scan (feb29_table 0 sample_values) =
  Ok (mkScan (Some "29-Feb"%string)
             [mkRec 2020 2 29 0 2%Q]
             [(Some "29-Feb"%string, 2019); (Some "29-Feb"%string, 2021);
              (Some "29-Feb"%string, 2022); (Some "29-Feb"%string, 2023)]).
Proof.
  apply (C1_feb29_drops_non_leap_years 0 1 2 3 4 5)%Q. lia.
Defined.

(** ** Claims about [calculate_tmy] *)

Lemma map_result_tmy_block (recs : list processed_row) (sels : list tmm_row) :
  recs <> [] -> map_result (tmy_block recs) sels = Ok (map (block_of recs) sels).
Proof.
  intros Hrecs. induction sels as [|s sels IH]; [reflexivity|].
  cbn [map_result map]. rewrite IH. unfold tmy_block.
  destruct recs; [contradiction|reflexivity].
Qed.

Lemma calculate_tmy_ok (sels : list tmm_row) (recs : list processed_row) :
  sels <> [] -> recs <> [] ->
  calculate_tmy sels recs = Ok (flat_map (block_of recs) sels).
Proof.
  intros Hsels Hrecs. unfold calculate_tmy.
  rewrite for_each_collect, map_result_tmy_block by assumption.
  cbn [bind app]. rewrite flat_map_concat_map.
  destruct sels; [contradiction|reflexivity].
Qed.

Lemma calculate_tmy_inv (sels : list tmm_row) (recs out : list processed_row) :
  calculate_tmy sels recs = Ok out -> sels <> [] /\ recs <> [].
Proof.
  unfold calculate_tmy. rewrite for_each_collect.
  destruct sels as [|s sels]; [discriminate|].
  destruct recs as [|r recs]; [discriminate|].
  intros _; split; discriminate.
Qed.

Lemma block_of_month (recs : list processed_row) (s : tmm_row) (r : processed_row) :
  In r (block_of recs s) -> In r recs /\ Month r = T_Month s /\ Year r = Representative_Year s.
Proof.
  unfold block_of. rewrite filter_In. unfold selected_by, month_is, year_is.
  rewrite andb_true_iff, !Z.eqb_eq. tauto.
Qed.

Lemma StronglySorted_app (l1 l2 : list Z) :
  StronglySorted Z.le l1 -> StronglySorted Z.le l2 ->
  (forall x y, In x l1 -> In y l2 -> x <= y) ->
  StronglySorted Z.le (l1 ++ l2).
Proof.
  induction 1 as [|a l1 Hs IH Ha]; intros H2 Hle; [exact H2|].
  cbn [app]. constructor.
  - apply IH; [exact H2|]. intros x y Hx Hy. apply Hle; [now right|exact Hy].
  - apply Forall_app; split; [exact Ha|].
    apply Forall_forall. intros y Hy. apply Hle; [now left|exact Hy].
Qed.

Lemma StronglySorted_constant (m : Z) (l : list Z) :
  (forall x, In x l -> x = m) -> StronglySorted Z.le l.
Proof.
  induction l as [|a l IH]; intros H; constructor.
  - apply IH. intros; apply H; now right.
  - apply Forall_forall. intros x Hx.
    rewrite (H a (or_introl eq_refl)), (H x (or_intror Hx)). lia.
Qed.

Lemma blocks_month_sorted (recs : list processed_row) (sels : list tmm_row) :
  StronglySorted Z.le (map T_Month sels) ->
  StronglySorted Z.le (map Month (flat_map (block_of recs) sels)).
Proof.
  induction sels as [|s sels IH]; intros Hs; [constructor|].
  cbn [flat_map map] in *. rewrite map_app.
  apply StronglySorted_inv in Hs. destruct Hs as [Hs Hall].
  apply StronglySorted_app.
  - apply (StronglySorted_constant (T_Month s)).
    intros x Hx. apply in_map_iff in Hx. destruct Hx as (r & <- & Hr).
    now apply block_of_month in Hr.
  - now apply IH.
  - intros x y Hx Hy.
    apply in_map_iff in Hx. destruct Hx as (r & <- & Hr).
    apply block_of_month in Hr. destruct Hr as (_ & -> & _).
    apply in_map_iff in Hy. destruct Hy as (r' & <- & Hr').
    apply in_flat_map in Hr'. destruct Hr' as (s' & Hs' & Hr').
    apply block_of_month in Hr'. destruct Hr' as (_ & -> & _).
    rewrite Forall_forall in Hall. apply Hall. now apply in_map.
Qed.

(** C4, as the code behaves: the assembled series is the concatenation of
    the selections' blocks in the order in which the selections are supplied;
    each block holds the records of that month and representative year in
    their original order.  The months of the series ascend when the
    selections are supplied in ascending month order, as [calculate_tmm]
    supplies them; the assembly does not sort. *)
Theorem C4_blocks_in_supplied_order (sels : list tmm_row) (recs : list processed_row) :
  sels <> [] -> recs <> [] ->
  exists out,
    calculate_tmy sels recs = Ok out /\
    out = flat_map (fun s => filter (fun r => (Month r =? T_Month s)
                                              && (Year r =? Representative_Year s)) recs)
                   sels /\
    (StronglySorted Z.le (map T_Month sels) -> StronglySorted Z.le (map Month out)).
Proof.
  intros Hsels Hrecs. exists (flat_map (block_of recs) sels).
  split; [now apply calculate_tmy_ok|]. split; [reflexivity|].
  apply blocks_month_sorted.
Qed.

Lemma C4_blocks_in_supplied_order_witness :
  exists out,
    calculate_tmy (rev reversed_selections) two_month_records = Ok out /\
    out = flat_map (fun s => filter (fun r => (Month r =? T_Month s)
                                              && (Year r =? Representative_Year s))
                                    two_month_records)
                   (rev reversed_selections) /\
    (StronglySorted Z.le (map T_Month (rev reversed_selections)) ->
     StronglySorted Z.le (map Month out)).
Proof.
  apply (C4_blocks_in_supplied_order (rev reversed_selections) two_month_records);
    discriminate.
Defined.

(** C4 as stated fails: with the February selection supplied before the
    January one, the February block comes first in the series. *)
Lemma C4_supplied_order_counterexample :
  exists out,
    calculate_tmy reversed_selections two_month_records = Ok out /\
    map Month out = [2; 1] /\
    ~ StronglySorted Z.le (map Month out).
Proof.
  eexists. split; [reflexivity|]. split; [reflexivity|].
  intros H. apply StronglySorted_inv in H. destruct H as [_ H].
  apply Forall_inv in H. revert H. cbn. lia.
Qed.

Lemma frame_at_old (st more : store) (a : nat) :
  (a < List.length st)%nat -> frame_at (st ++ more) a = frame_at st a.
Proof. intros H. unfold frame_at. now apply app_nth1. Qed.

Lemma frame_at_exists (st : store) (a : nat) :
  frame_at st a <> [] -> (a < List.length st)%nat.
Proof.
  intros H. destruct (Nat.lt_ge_cases a (List.length st)) as [Hlt|Hge]; [exact Hlt|].
  exfalso. apply H. unfold frame_at. now apply nth_overflow.
Qed.

Lemma frames_at_new (st blocks : store) :
  map (frame_at (st ++ blocks)) (seq (List.length st) (List.length blocks)) = blocks.
Proof.
  revert st; induction blocks as [|b blocks IH]; intros st; [reflexivity|].
  cbn [List.length seq map]. f_equal.
  - unfold frame_at. apply nth_middle.
  - specialize (IH (st ++ [b])). rewrite <- app_assoc in IH. cbn [app] in IH.
    rewrite length_app in IH. cbn [List.length] in IH.
    now rewrite Nat.add_1_r in IH.
Qed.

Lemma tmy_block_st_ok (st : store) (processed_data : nat) (s : tmm_row) :
  frame_at st processed_data <> [] ->
  tmy_block_st st processed_data s =
  Ok (st ++ [block_of (frame_at st processed_data) s], List.length st).
Proof.
  intros H. unfold tmy_block_st, tmy_block, block_of, new_frame.
  destruct (frame_at st processed_data); [contradiction|reflexivity].
Qed.

Lemma tmy_loop_st (sels : list tmm_row) (st : store) (addrs : list nat)
      (processed_data : nat) :
  frame_at st processed_data <> [] ->
  for_each (fun (acc : store * list nat) row =>
              month_data <- tmy_block_st (fst acc) processed_data row ;;
              Ok (fst month_data, snd acc ++ [snd month_data]))
           sels (st, addrs) =
  Ok (st ++ map (block_of (frame_at st processed_data)) sels,
      addrs ++ seq (List.length st) (List.length sels)).
Proof.
  revert st addrs; induction sels as [|s sels IH]; intros st addrs Hrecs.
  - cbn. now rewrite !app_nil_r.
  - pose proof (frame_at_exists st processed_data Hrecs) as Hlt.
    cbn [for_each fst snd]. rewrite tmy_block_st_ok by exact Hrecs.
    cbn [bind fst snd].
    set (b := block_of (frame_at st processed_data) s).
    assert (Hsame : frame_at (st ++ [b]) processed_data = frame_at st processed_data)
      by now apply frame_at_old.
    rewrite IH by now rewrite Hsame.
    rewrite Hsame, length_app. cbn [List.length map seq].
    rewrite Nat.add_1_r, <- !app_assoc. reflexivity.
Qed.

Lemma calculate_tmy_st_ok (st : store) (sels : list tmm_row) (processed_data : nat) :
  sels <> [] -> frame_at st processed_data <> [] ->
  calculate_tmy_st st sels processed_data =
  Ok (st ++ map (block_of (frame_at st processed_data)) sels
         ++ [flat_map (block_of (frame_at st processed_data)) sels],
      (List.length st + List.length sels)%nat).
Proof.
  intros Hsels Hrecs. unfold calculate_tmy_st.
  rewrite tmy_loop_st by exact Hrecs. cbn [bind fst snd app].
  rewrite <- (length_map (block_of (frame_at st processed_data)) sels) at 1.
  rewrite frames_at_new. unfold pd_concat, new_frame.
  destruct sels as [|s sels]; [contradiction|]. cbn [map bind].
  change (block_of (frame_at st processed_data) s
          :: map (block_of (frame_at st processed_data)) sels)
    with (map (block_of (frame_at st processed_data)) (s :: sels)).
  rewrite <- flat_map_concat_map, length_app, length_map, <- app_assoc.
  reflexivity.
Qed.

Lemma block_of_in (recs : list processed_row) (s : tmm_row) (r : processed_row) :
  In r (block_of recs s) <->
  In r recs /\ Month r = T_Month s /\ Year r = Representative_Year s.
Proof.
  unfold block_of. rewrite filter_In. unfold selected_by, month_is, year_is.
  rewrite andb_true_iff, !Z.eqb_eq. tauto.
Qed.

(** C10: the series is a new frame; a record is in it exactly when it is a
    record of the input frame, with all five fields, whose month and year are
    those of a selection; its length is the sum, over the selections, of the
    number of input records whose month is the selection's month and whose
    year is its representative year.  Every frame that existed before the
    assembly, the input frame of records among them, holds the same rows
    afterwards. *)
Theorem C10_series_from_input (st : store) (processed_data : nat) (sels : list tmm_row) :
  sels <> [] -> frame_at st processed_data <> [] ->
  exists st' tmy_data,
    calculate_tmy_st st sels processed_data = Ok (st', tmy_data) /\
    calculate_tmy sels (frame_at st processed_data) = Ok (frame_at st' tmy_data) /\
    (forall r, In r (frame_at st' tmy_data) <->
       In r (frame_at st processed_data) /\
       exists s, In s sels /\ Month r = T_Month s /\ Year r = Representative_Year s) /\
    List.length (frame_at st' tmy_data) =
      list_sum (map (fun s =>
                       List.length
                         (filter (fun r => (Month r =? T_Month s)
                                           && (Year r =? Representative_Year s))
                                 (frame_at st processed_data)))
                    sels) /\
    (forall a, (a < List.length st)%nat -> frame_at st' a = frame_at st a) /\
    frame_at st' processed_data = frame_at st processed_data /\
    (List.length st <= tmy_data)%nat.
Proof.
  intros Hsels Hrecs. pose proof (frame_at_exists st processed_data Hrecs) as Hlt.
  rewrite calculate_tmy_st_ok by assumption.
  set (recs := frame_at st processed_data) in *.
  eexists; eexists; split; [reflexivity|].
  assert (Hout : frame_at (st ++ map (block_of recs) sels ++ [flat_map (block_of recs) sels])
                          (List.length st + List.length sels)
                 = flat_map (block_of recs) sels).
  { rewrite app_assoc. unfold frame_at.
    rewrite <- (length_map (block_of recs) sels), <- length_app. apply nth_middle. }
  rewrite Hout. split; [now apply calculate_tmy_ok|].
  split; [|split; [|split; [|split]]].
  - intros r. rewrite in_flat_map. split.
    + intros (s & Hs & Hr). apply block_of_in in Hr. destruct Hr as (Hin & Hm & Hy).
      split; [exact Hin|]. now exists s.
    + intros (Hin & s & Hs & Hm & Hy). exists s. split; [exact Hs|].
      apply block_of_in; auto.
  - clear Hsels Hout. induction sels as [|s sels IH]; [reflexivity|].
    cbn [flat_map map list_sum]. rewrite length_app, IH. reflexivity.
  - intros a Ha. now apply frame_at_old.
  - now apply frame_at_old.
  - lia.
Qed.

Lemma C10_series_from_input_witness :
  exists st' tmy_data,
    calculate_tmy_st [two_month_records] reversed_selections 0 = Ok (st', tmy_data) /\
    calculate_tmy reversed_selections (frame_at [two_month_records] 0)
      = Ok (frame_at st' tmy_data) /\
    (forall r, In r (frame_at st' tmy_data) <->
       In r (frame_at [two_month_records] 0) /\
       exists s, In s reversed_selections /\
                 Month r = T_Month s /\ Year r = Representative_Year s) /\
    List.length (frame_at st' tmy_data) =
      list_sum (map (fun s =>
                       List.length
                         (filter (fun r => (Month r =? T_Month s)
                                           && (Year r =? Representative_Year s))
                                 (frame_at [two_month_records] 0)))
                    reversed_selections) /\
    (forall a, (a < List.length [two_month_records])%nat ->
               frame_at st' a = frame_at [two_month_records] a) /\
    frame_at st' 0 = frame_at [two_month_records] 0 /\
    (List.length [two_month_records] <= tmy_data)%nat.
Proof.
  apply (C10_series_from_input [two_month_records] 0%nat reversed_selections);
    discriminate.
Defined.

(** ** The loops of [calculate_tmm] *)

Lemma calculate_tmm_collect (pd : list processed_row) :
  calculate_tmm pd = map_result (tmm_month pd) months.
Proof.
  unfold calculate_tmm. rewrite for_each_collect.
  now destruct (map_result (tmm_month pd) months).
Qed.

Lemma fs_statistics_inv (md : list processed_row) (stats : list (Z * Q)) :
  fs_statistics md = Ok stats ->
  exists vs, map_result (fs_stat md) years = Ok vs /\ stats = combine years vs.
Proof.
  unfold fs_statistics, years. cbn [for_each map_result bind].
  destruct (fs_stat md 2019) as [v1|]; [|discriminate].
  destruct (fs_stat md 2020) as [v2|]; [|discriminate].
  destruct (fs_stat md 2021) as [v3|]; [|discriminate].
  destruct (fs_stat md 2022) as [v4|]; [|discriminate].
  destruct (fs_stat md 2023) as [v5|]; [|discriminate].
  cbn. intros H; injection H as <-. now eexists.
Qed.

Lemma fs_statistics_total (md : list processed_row) :
  (forall y, In y years -> exists v, fs_stat md y = Ok v) ->
  exists vs, fs_statistics md = Ok (combine years vs) /\
             map_result (fs_stat md) years = Ok vs /\
             List.length vs = List.length years.
Proof.
  intros H. unfold fs_statistics, years. cbn [for_each map_result bind].
  destruct (H 2019) as [v1 ->]; [cbn; tauto|].
  destruct (H 2020) as [v2 ->]; [cbn; tauto|].
  destruct (H 2021) as [v3 ->]; [cbn; tauto|].
  destruct (H 2022) as [v4 ->]; [cbn; tauto|].
  destruct (H 2023) as [v5 ->]; [cbn; tauto|].
  now exists [v1; v2; v3; v4; v5].
Qed.

Lemma fs_statistics_empty : fs_statistics [] = Raise (ZeroSizeReduction "maximum").
Proof. reflexivity. Qed.

Lemma min_fold_in (l : list (Z * Q)) (x : Z * Q) : In (fold_left min_step l x) (x :: l).
Proof.
  revert x; induction l as [|a l IH]; intros x; [now left|].
  cbn [fold_left]. destruct (IH (min_step x a)) as [H|H]; [|now right; right].
  rewrite <- H. unfold min_step. destruct (Qlt_bool (snd a) (snd x)); cbn; auto.
Qed.

Lemma min_by_value_in (d : list (Z * Q)) (y : Z) :
  min_by_value d = Some y -> In y (map fst d).
Proof.
  destruct d as [|x l]; [discriminate|]. cbn [min_by_value].
  intros H; injection H as <-. apply in_map, min_fold_in.
Qed.

Lemma tmm_month_inv (pd : list processed_row) (m : Z) (row : tmm_row) :
  tmm_month pd m = Ok row ->
  pd <> [] /\
  exists stats,
    fs_statistics (month_data_of pd m) = Ok stats /\
    min_by_value stats = Some (Representative_Year row) /\
    T_Month row = m /\
    Average_Solar_Radiation row =
      option_map round2
        (series_mean (map Solar_Radiation
                          (year_data_of (month_data_of pd m) (Representative_Year row)))).
Proof.
  unfold tmm_month, month_data_of, year_data_of.
  destruct pd as [|r pd]; [discriminate|].
  destruct (fs_statistics (filter (month_is m) (r :: pd))) as [stats|]; [|discriminate].
  cbn [bind]. destruct (min_by_value stats) as [y|] eqn:Hmin; [|discriminate].
  intros H; injection H as <-. split; [discriminate|].
  exists stats. cbn. auto.
Qed.

Lemma map_fst_combine_le {A B : Type} (l : list A) (l' : list B) (x : A) :
  In x (map fst (combine l l')) -> In x l.
Proof.
  revert l'; induction l as [|a l IH]; intros [|b l']; cbn; try tauto.
  intros [->|H]; [now left|right; eauto].
Qed.

Lemma tmm_month_year (pd : list processed_row) (m : Z) (row : tmm_row) :
  tmm_month pd m = Ok row -> In (Representative_Year row) years.
Proof.
  intros H. apply tmm_month_inv in H. destruct H as (_ & stats & Hs & Hmin & _).
  apply fs_statistics_inv in Hs. destruct Hs as (vs & _ & ->).
  apply min_by_value_in in Hmin. eapply map_fst_combine_le; eauto.
Qed.

Lemma calculate_tmm_rows (pd : list processed_row) (out : list tmm_row) :
  calculate_tmm pd = Ok out ->
  Forall2 (fun m row => tmm_month pd m = Ok row) months out.
Proof. rewrite calculate_tmm_collect. apply map_result_ok. Qed.

Lemma calculate_tmm_shape (pd : list processed_row) (out : list tmm_row) :
  calculate_tmm pd = Ok out ->
  map T_Month out = months /\
  Forall (fun row => In (Representative_Year row) years) out.
Proof.
  intros H. apply calculate_tmm_rows in H.
  induction H as [|m row ms out Hrow _ [IH1 IH2]]; [split; constructor|].
  split.
  - cbn [map]. f_equal; [|exact IH1].
    apply tmm_month_inv in Hrow. now destruct Hrow as (_ & stats & _ & _ & Hm & _).
  - constructor; [|exact IH2]. eapply tmm_month_year; eauto.
Qed.

(** ** Empty months *)

(** C8, as the code behaves: when some month has no record the run fails,
    it does not complete with a degenerate selection.  The iteration of that
    month raises numpy's error for the maximum of an empty array (or, when
    the record set is empty altogether, the key error of a frame without
    columns); neither names the month. *)
Theorem C8_empty_month_raises (pd : list processed_row) (m : Z) :
  In m months -> month_data_of pd m = [] ->
  (exists e, calculate_tmm pd = Raise e) /\
  tmm_month pd m =
    Raise (match pd with [] => KeyError "Month" | _ => ZeroSizeReduction "maximum" end).
Proof.
  intros Hm Hempty.
  assert (Hrow : tmm_month pd m =
    Raise (match pd with [] => KeyError "Month" | _ => ZeroSizeReduction "maximum" end)).
  { unfold tmm_month. destruct pd as [|r pd]; [reflexivity|].
    unfold month_data_of in Hempty. now rewrite Hempty, fs_statistics_empty. }
  split; [|exact Hrow].
  rewrite calculate_tmm_collect. eapply map_result_raise; eauto.
Qed.

Lemma C8_empty_month_raises_witness :
  (exists e, calculate_tmm (all_months_but 2) = Raise e) /\
  tmm_month (all_months_but 2) 2 = Raise (ZeroSizeReduction "maximum").
Proof.
  apply (C8_empty_month_raises (all_months_but 2) 2); [cbn; tauto | reflexivity].
Defined.

(** C8 as stated fails: the error does not tell which month has no data.
    With February missing and with March missing the run raises the very
    same exception, so no reading of the exception gives the month. *)
Lemma C8_month_not_named_counterexample :
  ~ exists month_of : exn -> Z,
      forall pd m,
        In m months -> month_data_of pd m = [] ->
        (forall m', In m' months -> m' <> m -> month_data_of pd m' <> []) ->
        exists e, calculate_tmm pd = Raise e /\ month_of e = m.
Proof.
  intros [month_of H].
  assert (Hfull : forall k m', In k [2; 3] -> In m' months -> m' <> k ->
                               month_data_of (all_months_but k) m' <> []).
  { intros k m' Hk Hm' Hne. cbn in Hk, Hm'.
    repeat (destruct Hk as [<-|Hk]; [|]); try contradiction;
    repeat (destruct Hm' as [<-|Hm']; [first [contradiction | discriminate]|]);
    contradiction. }
  destruct (H (all_months_but 2) 2) as [e2 [He2 Hm2]];
    [cbn; tauto | reflexivity | intros; apply Hfull; cbn; tauto |].
  destruct (H (all_months_but 3) 3) as [e3 [He3 Hm3]];
    [cbn; tauto | reflexivity | intros; apply Hfull; cbn; tauto |].
  assert (E2 : calculate_tmm (all_months_but 2) = Raise (ZeroSizeReduction "maximum"))
    by (vm_compute; reflexivity).
  assert (E3 : calculate_tmm (all_months_but 3) = Raise (ZeroSizeReduction "maximum"))
    by (vm_compute; reflexivity).
  rewrite E2 in He2. rewrite E3 in He3.
  injection He2 as <-. injection He3 as <-. lia.
Qed.

(** ** Completion of the selection *)

Lemma insert_key_nonempty (h : Z) (l : list Z) : insert_key h l <> [].
Proof.
  destruct l as [|k l]; cbn; [discriminate|].
  destruct (h <? k); [discriminate|]. destruct (h =? k); discriminate.
Qed.

Lemma group_keys_nonempty (df : list processed_row) : df <> [] -> group_keys df <> [].
Proof.
  destruct df as [|r df]; [contradiction|]. intros _.
  unfold group_keys. cbn [map fold_right]. apply insert_key_nonempty.
Qed.

Lemma series_values_length (df : list processed_row) :
  List.length (series_values (groupby_hour_mean df)) = List.length (group_keys df).
Proof. unfold series_values, groupby_hour_mean. now rewrite !length_map. Qed.

Lemma np_sub_same_length (a b : list Q) :
  List.length a = List.length b -> np_sub a b = Ok (zip_with Qminus a b).
Proof. intros H. unfold np_sub. now rewrite H, Nat.eqb_refl. Qed.

Lemma np_max_total (a : list Q) : a <> [] -> exists hi, np_max a = Ok hi.
Proof. destruct a; [contradiction|]. intros _. now eexists. Qed.

Lemma np_min_total (a : list Q) : a <> [] -> exists lo, np_min a = Ok lo.
Proof. destruct a; [contradiction|]. intros _. now eexists. Qed.

Lemma length_nonempty {A : Type} (l : list A) : l <> [] <-> List.length l <> 0%nat.
Proof. destruct l; cbn; split; intros H; try contradiction; discriminate. Qed.

Lemma fs_stat_total (md : list processed_row) (y : Z) :
  md <> [] ->
  List.length (group_keys (year_data_of md y)) = List.length (group_keys md) ->
  exists v, fs_stat md y = Ok v.
Proof.
  intros Hmd Hlen. unfold fs_stat. fold (year_data_of md y).
  rewrite np_sub_same_length by (rewrite !series_values_length; now symmetry).
  cbn [bind].
  assert (Hne : series_values (groupby_hour_mean md) <> []).
  { apply length_nonempty. rewrite series_values_length.
    apply length_nonempty. now apply group_keys_nonempty. }
  destruct (np_max_total _ Hne) as [hi ->]. destruct (np_min_total _ Hne) as [lo ->].
  cbn [bind]. now eexists.
Qed.

Lemma min_by_value_total (d : list (Z * Q)) :
  d <> [] -> exists y, min_by_value d = Some y.
Proof. destruct d; [contradiction|]. intros _. now eexists. Qed.

Lemma tmm_month_total (pd : list processed_row) (m : Z) :
  month_data_of pd m <> [] ->
  (forall y, In y years ->
     List.length (group_keys (year_data_of (month_data_of pd m) y)) =
     List.length (group_keys (month_data_of pd m))) ->
  exists row, tmm_month pd m = Ok row.
Proof.
  intros Hmd Hlen. unfold tmm_month.
  destruct pd as [|r pd]; [now contradiction Hmd|].
  fold (month_data_of (r :: pd) m).
  destruct (fs_statistics_total (month_data_of (r :: pd) m)) as (vs & -> & _ & Hvs).
  { intros y Hy. apply fs_stat_total; auto. }
  cbn [bind].
  destruct (min_by_value_total (combine years vs)) as [y ->]; [|now eexists].
  apply length_nonempty. rewrite length_combine, Hvs, Nat.min_id. discriminate.
Qed.

(** C6, as the code behaves: when every month has records and, within every
    month, each tracked year has records for as many distinct hours as the
    month as a whole, the selection completes with exactly twelve entries,
    for the months 1 to 12 in ascending order, each with a representative
    year among the tracked years. *)
Theorem C6_twelve_selections (pd : list processed_row) :
  hours_aligned pd ->
  exists out,
    calculate_tmm pd = Ok out /\
    map T_Month out = [1; 2; 3; 4; 5; 6; 7; 8; 9; 10; 11; 12] /\
    List.length out = 12%nat /\
    Forall (fun row => In (Representative_Year row) years) out.
Proof.
  intros H.
  destruct (map_result_total (tmm_month pd) months) as [out Hout].
  { intros m Hm. destruct (H m Hm) as [Hmd Hlen]. now apply tmm_month_total. }
  rewrite <- calculate_tmm_collect in Hout.
  exists out. destruct (calculate_tmm_shape pd out Hout) as [Hm Hy].
  repeat split; auto.
  rewrite <- (length_map T_Month), Hm. reflexivity.
Qed.

(** C6 as stated fails: every month has records, yet the selection raises
    instead of returning twelve entries, because 2020 has no record for the
    two hours of January. *)
Lemma C6_records_in_every_month_counterexample :
  (forall m, In m months -> month_data_of only_2019 m <> []) /\
  calculate_tmm only_2019 = Raise (BroadcastError 2 0).
Proof.
  split; [|vm_compute; reflexivity].
  intros m Hm. cbn in Hm.
  repeat (destruct Hm as [<-|Hm]; [discriminate|]). contradiction.
Qed.

Lemma hours_aligned_spread : hours_aligned spread_records.
Proof.
  intros m Hm. cbn in Hm.
  repeat (destruct Hm as [<-|Hm];
          [split; [discriminate|]; intros y Hy; cbn in Hy;
           repeat (destruct Hy as [<-|Hy]; [reflexivity|]); contradiction|]).
  contradiction.
Defined.

Lemma C6_twelve_selections_witness :
  exists out,
    calculate_tmm spread_records = Ok out /\
    map T_Month out = [1; 2; 3; 4; 5; 6; 7; 8; 9; 10; 11; 12] /\
    List.length out = 12%nat /\
    Forall (fun row => In (Representative_Year row) years) out.
Proof.
  apply (C6_twelve_selections spread_records). exact hours_aligned_spread.
Defined.

(** ** The minimum scan *)

Lemma Qlt_bool_iff (x y : Q) : Qlt_bool x y = true <-> (x < y)%Q.
Proof.
  unfold Qlt_bool. rewrite negb_true_iff, <- not_true_iff_false, Qle_bool_iff.
  split; [apply Qnot_le_lt | apply Qlt_not_le].
Qed.

Lemma min_fold_spec (l : list (Z * Q)) (x : Z * Q) :
  (forall it, In it l -> fst x < fst it) ->
  StronglySorted Z.lt (map fst l) ->
  forall it, In it (x :: l) ->
    (snd (fold_left min_step l x) <= snd it)%Q /\
    ((snd it == snd (fold_left min_step l x))%Q -> fst (fold_left min_step l x) <= fst it).
Proof.
  revert x; induction l as [|a l IH]; intros x Hx Hs it Hit.
  - destruct Hit as [<-|[]]. cbn. split; [apply Qle_refl | lia].
  - cbn [map] in Hs. apply StronglySorted_inv in Hs. destruct Hs as [Hs Ha].
    rewrite Forall_forall in Ha.
    assert (Hal : forall it', In it' l -> fst a < fst it')
      by (intros it' H'; apply Ha; now apply in_map).
    assert (Hxl : forall it', In it' l -> fst x < fst it')
      by (intros it' H'; apply Hx; now right).
    cbn [fold_left]. unfold min_step at 2 4 6.
    destruct (Qlt_bool (snd a) (snd x)) eqn:Hlt.
    + apply Qlt_bool_iff in Hlt.
      destruct Hit as [<-|Hit]; [|now apply IH].
      destruct (IH a Hal Hs a (or_introl eq_refl)) as [Hba _].
      split.
      * apply Qle_trans with (snd a); [exact Hba | now apply Qlt_le_weak].
      * intros Heq. exfalso. apply (Qlt_not_le _ _ Hlt). now rewrite Heq.
    + assert (Hle : (snd x <= snd a)%Q).
      { apply Qnot_lt_le. intros C. apply Qlt_bool_iff in C. congruence. }
      destruct (IH x Hxl Hs x (or_introl eq_refl)) as [Hbx Htie].
      destruct Hit as [<-|[<-|Hit]].
      * now split.
      * split; [now apply Qle_trans with (snd x)|].
        intros Heq.
        assert (Hx' : fst x < fst a) by (apply Hx; now left).
        assert (Hxb : (snd x == snd (fold_left min_step l x))%Q).
        { apply Qle_antisym; [|exact Hbx]. now rewrite <- Heq. }
        specialize (Htie Hxb). lia.
      * apply IH; auto. now right.
Qed.

Lemma min_by_value_spec (d : list (Z * Q)) (ry : Z) :
  StronglySorted Z.lt (map fst d) ->
  min_by_value d = Some ry ->
  exists v, In (ry, v) d /\
            forall y w, In (y, w) d -> (v <= w)%Q /\ ((w == v)%Q -> ry <= y).
Proof.
  destruct d as [|x l]; [discriminate|].
  cbn [min_by_value map]. intros Hs H. injection H as <-.
  apply StronglySorted_inv in Hs. destruct Hs as [Hs Hx]. rewrite Forall_forall in Hx.
  exists (snd (fold_left min_step l x)). split.
  - rewrite <- surjective_pairing. apply min_fold_in.
  - intros y w Hin.
    apply (min_fold_spec l x (fun it H => Hx _ (in_map fst _ _ H)) Hs (y, w) Hin).
Qed.

Lemma Forall2_combine_in {A B : Type} (P : A -> B -> Prop) (l : list A) (l' : list B)
      (a : A) (b : B) :
  Forall2 P l l' -> In (a, b) (combine l l') -> P a b.
Proof.
  induction 1 as [|x y l l' Hxy _ IH]; cbn; [tauto|].
  intros [H|H]; [now injection H as <- <-|auto].
Qed.

Lemma Forall2_combine_ex {A B : Type} (P : A -> B -> Prop) (l : list A) (l' : list B)
      (a : A) :
  Forall2 P l l' -> In a l -> exists b, In (a, b) (combine l l') /\ P a b.
Proof.
  induction 1 as [|x y l l' Hxy _ IH]; cbn; [tauto|].
  intros [<-|H]; [exists y; auto|].
  destruct (IH H) as [b [? ?]]. exists b; auto.
Qed.

Lemma years_sorted (vs : list Q) : StronglySorted Z.lt (map fst (combine years vs)).
Proof.
  unfold years.
  destruct vs as [|v1 [|v2 [|v3 [|v4 [|v5 vs]]]]]; cbn;
    repeat (constructor; [|repeat constructor; lia]); constructor.
Qed.

Lemma calculate_tmm_spread : calculate_tmm spread_records = Ok spread_selections.
Proof. vm_compute. reflexivity. Qed.

(** ** The reported average *)

Lemma filter_filter {A : Type} (f g : A -> bool) (l : list A) :
  filter f (filter g l) = filter (fun x => g x && f x) l.
Proof.
  induction l as [|a l IH]; [reflexivity|]. cbn [filter].
  destruct (g a); cbn [filter andb]; [destruct (f a)|]; now rewrite IH.
Qed.







(** ** The statistic *)

Lemma insert_key_in (h k : Z) (l : list Z) : In k (insert_key h l) <-> k = h \/ In k l.
Proof.
  induction l as [|a l IH]; cbn; [intuition|].
  destruct (h <? a) eqn:E1; [cbn; intuition|].
  destruct (h =? a) eqn:E2.
  - apply Z.eqb_eq in E2. subst. cbn. intuition.
  - cbn. rewrite IH. intuition.
Qed.

Lemma profile_hours_in (df : list processed_row) (h : Z) :
  In h (profile_hours df) <-> exists r, In r df /\ Hour r = h.
Proof.
  unfold profile_hours, group_keys. induction df as [|r df IH]; cbn.
  - split; [tauto|]. now intros [r [[] _]].
  - rewrite insert_key_in, IH. split.
    + intros [->|[r' [? ?]]]; [exists r; auto|exists r'; auto].
    + intros [r' [[<-|?] ?]]; [now left|right; now exists r'].
Qed.

Lemma insert_key_sorted (h : Z) (l : list Z) :
  StronglySorted Z.lt l -> StronglySorted Z.lt (insert_key h l).
Proof.
  induction 1 as [|a l Hs IH Ha]; cbn; [repeat constructor|].
  destruct (h <? a) eqn:E1.
  - apply Z.ltb_lt in E1. constructor; [now constructor|].
    constructor; [exact E1|]. eapply Forall_impl; [|exact Ha]. cbn; intros; lia.
  - destruct (h =? a) eqn:E2; [now constructor|].
    apply Z.ltb_ge in E1. apply Z.eqb_neq in E2.
    constructor; [exact IH|]. apply Forall_forall. intros k Hk.
    apply insert_key_in in Hk. destruct Hk as [->|Hk]; [lia|].
    rewrite Forall_forall in Ha. now apply Ha.
Qed.

Lemma profile_hours_sorted (df : list processed_row) :
  StronglySorted Z.lt (profile_hours df).
Proof.
  unfold profile_hours, group_keys.
  induction (map Hour df) as [|h l IH]; cbn; [constructor|now apply insert_key_sorted].
Qed.

Lemma long_term_values (md : list processed_row) :
  series_values (groupby_hour_mean md) = map (longTermProfile md) (group_keys md).
Proof. unfold series_values, groupby_hour_mean. now rewrite map_map. Qed.

Lemma candidate_values (md : list processed_row) (y : Z) :
  series_values (groupby_hour_mean (year_data_of md y)) =
  map (candidateProfile md y) (group_keys (year_data_of md y)).
Proof.
  unfold series_values, groupby_hour_mean. rewrite map_map. apply map_ext.
  intros h. cbn [snd]. unfold candidateProfile, year_data_of.
  now rewrite filter_filter.
Qed.

Lemma zip_with_map {A B C D : Type} (op : B -> C -> D) (f : A -> B) (g : A -> C)
      (l : list A) :
  zip_with op (map f l) (map g l) = map (fun a => op (f a) (g a)) l.
Proof. induction l as [|a l IH]; cbn; [reflexivity|now rewrite IH]. Qed.

Lemma Qmax_cases (x y : Q) : Qmax x y = x \/ Qmax x y = y.
Proof. unfold Qmax, GenericMinMax.gmax. destruct (x ?= y)%Q; auto. Qed.

Lemma Qmin_cases (x y : Q) : Qmin x y = x \/ Qmin x y = y.
Proof. unfold Qmin, GenericMinMax.gmin. destruct (x ?= y)%Q; auto. Qed.

Lemma fold_Qmax_spec (l : list Q) (x : Q) :
  In (fold_left Qmax l x) (x :: l) /\
  forall z, In z (x :: l) -> (z <= fold_left Qmax l x)%Q.
Proof.
  revert x; induction l as [|a l IH]; intros x.
  - cbn. split; [now left|]. intros z [<-|[]]. apply Qle_refl.
  - cbn [fold_left]. destruct (IH (Qmax x a)) as [Hin Hle]. split.
    + destruct Hin as [Hin|Hin]; [|now right; right].
      rewrite <- Hin. destruct (Qmax_cases x a) as [->| ->]; cbn; auto.
    + intros z [Hz|[Hz|Hz]]; subst.
      * apply Qle_trans with (Qmax z a); [apply Q.le_max_l|apply Hle; now left].
      * apply Qle_trans with (Qmax x z); [apply Q.le_max_r|apply Hle; now left].
      * apply Hle. now right.
Qed.

Lemma fold_Qmin_spec (l : list Q) (x : Q) :
  In (fold_left Qmin l x) (x :: l) /\
  forall z, In z (x :: l) -> (fold_left Qmin l x <= z)%Q.
Proof.
  revert x; induction l as [|a l IH]; intros x.
  - cbn. split; [now left|]. intros z [<-|[]]. apply Qle_refl.
  - cbn [fold_left]. destruct (IH (Qmin x a)) as [Hin Hle]. split.
    + destruct Hin as [Hin|Hin]; [|now right; right].
      rewrite <- Hin. destruct (Qmin_cases x a) as [->| ->]; cbn; auto.
    + intros z [Hz|[Hz|Hz]]; subst.
      * apply Qle_trans with (Qmin z a); [apply Hle; now left|apply Q.le_min_l].
      * apply Qle_trans with (Qmin x z); [apply Hle; now left|apply Q.le_min_r].
      * apply Hle. now right.
Qed.

Lemma np_max_over (hs : list Z) (f : Z -> Q) :
  hs <> [] -> exists hi, np_max (map f hs) = Ok hi /\ is_max_over hs f hi.
Proof.
  destruct hs as [|h0 hs]; [contradiction|]. intros _. cbn [map np_max].
  eexists; split; [reflexivity|].
  destruct (fold_Qmax_spec (map f hs) (f h0)) as [Hin Hle].
  change (f h0 :: map f hs) with (map f (h0 :: hs)) in Hin, Hle. split.
  - apply in_map_iff in Hin. destruct Hin as (h & Hh & Hin). now exists h.
  - intros h Hh. apply Hle. now apply in_map.
Qed.

Lemma np_min_over (hs : list Z) (f : Z -> Q) :
  hs <> [] -> exists lo, np_min (map f hs) = Ok lo /\ is_min_over hs f lo.
Proof.
  destruct hs as [|h0 hs]; [contradiction|]. intros _. cbn [map np_min].
  eexists; split; [reflexivity|].
  destruct (fold_Qmin_spec (map f hs) (f h0)) as [Hin Hle].
  change (f h0 :: map f hs) with (map f (h0 :: hs)) in Hin, Hle. split.
  - apply in_map_iff in Hin. destruct Hin as (h & Hh & Hin). now exists h.
  - intros h Hh. apply Hle. now apply in_map.
Qed.

Lemma Qabs_div_pos (x r : Q) : (0 < r)%Q -> (Qabs (x / r) == Qabs x / r)%Q.
Proof.
  intros Hr. unfold Qdiv. rewrite Qabs_Qmult.
  rewrite (Qabs_pos (/ r)); [reflexivity|].
  apply Qinv_le_0_compat. now apply Qlt_le_weak.
Qed.

Lemma scaled_sum (r : Q) (d : Z -> Q) (hs : list Z) (a : Q) :
  (0 < r)%Q ->
  (fold_left Qplus (map (fun x => Qabs (x / r)) (map d hs)) a ==
   a + sum_over hs (fun h => Qabs (d h)) / r)%Q.
Proof.
  intros Hr. revert a; induction hs as [|h hs IH]; intros a; cbn [map fold_left sum_over].
  - unfold Qdiv. ring.
  - rewrite IH, Qabs_div_pos by exact Hr. unfold Qdiv. ring.
Qed.

(** C2: for a month with records and a tracked year whose hourly profile is
    defined for the same hours as the long-term profile, the statistic is
    the sum over those hours of the absolute difference of the two profiles,
    divided by the maximum minus the minimum of the long-term profile plus
    1e-10. *)
Theorem C2_fs_statistic (md : list processed_row) (y : Z) :
  md <> [] ->
  profile_hours (filter (fun r => Year r =? y) md) = profile_hours md ->
  exists fs hi lo,
    fs_stat md y = Ok fs /\
    is_max_over (profile_hours md) (longTermProfile md) hi /\
    is_min_over (profile_hours md) (longTermProfile md) lo /\
    (fs == sum_over (profile_hours md)
                    (fun h => Qabs (longTermProfile md h - candidateProfile md y h))
           / (hi - lo + (1 # 10000000000)))%Q.
Proof.
  unfold profile_hours. intros Hmd Hkeys.
  change (filter (fun r => Year r =? y) md) with (year_data_of md y) in Hkeys.
  pose proof (group_keys_nonempty md Hmd) as Hne.
  unfold fs_stat. fold (year_data_of md y).
  rewrite long_term_values, candidate_values, Hkeys.
  rewrite np_sub_same_length by now rewrite !length_map.
  rewrite zip_with_map. cbn [bind].
  destruct (np_max_over (group_keys md) (longTermProfile md) Hne) as (hi & -> & Hhi).
  destruct (np_min_over (group_keys md) (longTermProfile md) Hne) as (lo & -> & Hlo).
  cbn [bind]. eexists _, hi, lo. split; [reflexivity|]. split; [exact Hhi|].
  split; [exact Hlo|].
  assert (Hr : (0 < hi - lo + eps)%Q).
  { destruct Hhi as [_ Hhi]. destruct Hlo as [[h [Hh ->]] _].
    specialize (Hhi h Hh). unfold eps. lra. }
  unfold Qsum. rewrite (scaled_sum _ (fun h => longTermProfile md h - candidateProfile md y h)%Q)
    by exact Hr.
  unfold eps. ring.
Qed.

Lemma C2_fs_statistic_witness :
  exists fs hi lo,
    fs_stat (month_data_of spread_records 1) 2019 = Ok fs /\
    is_max_over (profile_hours (month_data_of spread_records 1))
                (longTermProfile (month_data_of spread_records 1)) hi /\
    is_min_over (profile_hours (month_data_of spread_records 1))
                (longTermProfile (month_data_of spread_records 1)) lo /\
    (fs == sum_over (profile_hours (month_data_of spread_records 1))
                    (fun h => Qabs (longTermProfile (month_data_of spread_records 1) h
                                    - candidateProfile (month_data_of spread_records 1) 2019 h))
           / (hi - lo + (1 # 10000000000)))%Q.
Proof.
  apply (C2_fs_statistic (month_data_of spread_records 1) 2019).
  - vm_compute. discriminate.
  - vm_compute. reflexivity.
Defined.

(** * Further properties of the row scan *)

(** ** Where the records come from *)

Lemma scan_from_origin (data : list RawRow) (label last : option string)
      (recs : list processed_row) (log : list (option string * Z)) (r : processed_row) :
  scan_from label data = Ok (last, recs, log) -> In r recs ->
  exists lab row hour y v,
    In (lab, row) (labelled label data) /\ int_of_cell (first row) = Ok hour /\
    In (y, v) (combine years (values row)) /\ In r (emitted lab hour (y, v)).
Proof.
  revert label last recs log; induction data as [|row data IH];
    intros label last recs log; cbn [scan_from labelled].
  - intros H; injection H as _ <- _. contradiction.
  - destruct (is_date_marker (first row)) as [s|]; [apply IH|].
    destruct (int_of_cell (first row)) as [hour|] eqn:Eh; [|discriminate].
    cbn [bind].
    destruct (scan_from label data) as [[[l rs] k]|] eqn:Es; [|discriminate].
    cbn [bind fst snd]. intros H; injection H as _ <- _. intros Hin.
    apply in_app_iff in Hin. destruct Hin as [Hin|Hin].
    + apply in_flat_map in Hin. destruct Hin as ([y v] & Hyv & Hr).
      exists label, row, hour, y, v. repeat split; auto. now left.
    + destruct (IH label l rs k Es Hin) as (lab & row' & hour' & y & v & H1 & H2).
      exists lab, row', hour', y, v. split; [now right|exact H2].
Qed.

Lemma labelled_in (data : list RawRow) (label lab : option string) (row : RawRow) :
  In (lab, row) (labelled label data) -> In row data /\ is_value_row row = true.
Proof.
  revert label; induction data as [|a data IH]; intros label; cbn [labelled];
    [intros []|].
  destruct (is_date_marker (first a)) as [s|] eqn:Em.
  - intros H. destruct (IH _ H). split; [now right|assumption].
  - intros [H|H].
    + injection H as _ <-. split; [now left|]. unfold is_value_row. now rewrite Em.
    + destruct (IH _ H). split; [now right|assumption].
Qed.

Lemma process_origin (data : list RawRow) (pd : list processed_row) (r : processed_row) :
  process_solar_data data = Ok pd -> In r pd ->
  exists lab row hour y v,
    In row data /\ is_value_row row = true /\ int_of_cell (first row) = Ok hour /\
    In (y, v) (combine years (values row)) /\ In r (emitted lab hour (y, v)).
Proof.
  unfold process_solar_data, scan. rewrite for_each_row_step.
  cbn [initial_state current_date processed_data skipped app].
  destruct (scan_from None data) as [[[l rs] k]|] eqn:Es; [|discriminate].
  cbn [bind fst snd processed_data]. intros H; injection H as <-. intros Hin.
  destruct (scan_from_origin _ _ _ _ _ _ Es Hin) as (lab & row & hour & y & v & H1 & H2 & H3 & H4).
  apply labelled_in in H1. destruct H1.
  exists lab, row, hour, y, v. repeat split; auto.
Qed.

Lemma combine_years_in (vs : list Q) (y : Z) (v : Q) :
  In (y, v) (combine years vs) -> In y years /\ In v vs.
Proof. intros H. split; [eapply in_combine_l|eapply in_combine_r]; eauto. Qed.

(** ** Ranges of the fields *)

Lemma days_in_month_bounds (y m : Z) : 28 <= days_in_month y m <= 31.
Proof.
  unfold days_in_month. destruct (m =? 2); [destruct (is_leap_year y); lia|].
  destruct (_ || _); lia.
Qed.

Lemma next_day_valid (d : date) : valid_date d -> valid_date (next_day d).
Proof.
  unfold valid_date, next_day. intros [Hm Hd].
  destruct (d_day d <? _) eqn:E1; cbn [d_year d_month d_day].
  - apply Z.ltb_lt in E1. lia.
  - destruct (d_month d <? 12) eqn:E2; cbn [d_year d_month d_day].
    + apply Z.ltb_lt in E2. pose proof (days_in_month_bounds (d_year d) (d_month d + 1)). lia.
    + pose proof (days_in_month_bounds (d_year d + 1) 1). lia.
Qed.

Lemma prev_day_valid (d : date) : valid_date d -> valid_date (prev_day d).
Proof.
  unfold valid_date, prev_day. intros [Hm Hd].
  destruct (1 <? d_day d) eqn:E1; cbn [d_year d_month d_day].
  - apply Z.ltb_lt in E1. lia.
  - destruct (1 <? d_month d) eqn:E2; cbn [d_year d_month d_day].
    + apply Z.ltb_lt in E2. pose proof (days_in_month_bounds (d_year d) (d_month d - 1)). lia.
    + cbn. lia.
Qed.

Lemma add_days_valid (n : Z) (d : date) : valid_date d -> valid_date (add_days n d).
Proof.
  intros H. destruct n as [|p|p]; cbn [add_days]; [exact H| |].
  - apply Pos.iter_invariant; [intros; now apply next_day_valid|exact H].
  - apply Pos.iter_invariant; [intros; now apply prev_day_valid|exact H].
Qed.

Lemma code_digit (c : ascii) : is_digit c = true -> 0 <= digit_val c <= 9.
Proof.
  unfold is_digit, digit_of, digit_val.
  destruct (_ && _) eqn:E; [|discriminate]. intros _.
  apply andb_true_iff in E. destruct E as [E1 E2].
  apply Z.leb_le in E1. apply Z.leb_le in E2. lia.
Qed.

Lemma code_inj (c c' : ascii) : code c = code c' -> c = c'.
Proof.
  unfold code. intros H. apply N2Z.inj in H.
  rewrite <- (ascii_N_embedding c), <- (ascii_N_embedding c'). now rewrite H.
Qed.

Lemma digit_not_zero (c : ascii) :
  is_digit c = true -> Ascii.eqb c "0" = false -> 1 <= digit_val c <= 9.
Proof.
  intros Hd Hz. pose proof (code_digit c Hd) as H.
  assert (digit_val c <> 0); [|lia].
  intros H0. apply Ascii.eqb_neq in Hz. apply Hz. apply code_inj.
  unfold digit_val in H0. change (code "0") with 48. lia.
Qed.

Lemma eqb_digit_val (c k : ascii) : Ascii.eqb c k = true -> digit_val c = digit_val k.
Proof. intros H. apply Ascii.eqb_eq in H. now subst. Qed.

#[local] Opaque Z.add Z.mul.

Lemma match_d_range (l : list ascii) (d : Z) (rest : list ascii) :
  In (d, rest) (match_d l) -> 1 <= d <= 31.
Proof.
  unfold match_d. intros H.
  destruct l as [|a [|b r]];
    repeat match goal with
           | H : In _ (_ ++ _) |- _ => apply in_app_iff in H; destruct H as [H|H]
           | H : In _ (if ?c then _ else _) |- _ => destruct c eqn:?
           | H : In _ [_] |- _ => destruct H as [H|[]]
           | H : In _ [] |- _ => destruct H
           | H : (_, _) = (_, _) |- _ => injection H as <- _
           end;
    repeat match goal with
           | H : _ && _ = true |- _ => apply andb_true_iff in H; destruct H
           | H : _ || _ = true |- _ => apply orb_true_iff in H; destruct H
           | H : negb _ = true |- _ => apply negb_true_iff in H
           end;
    repeat match goal with
           | H : is_digit ?c = true, H' : Ascii.eqb ?c "0" = false |- _ =>
               pose proof (digit_not_zero c H H'); clear H'
           | H : is_digit ?c = true |- _ => pose proof (code_digit c H); clear H
           | H : Ascii.eqb ?c ?k = true |- _ =>
               apply eqb_digit_val in H;
               match type of H with _ = ?v => let v' := eval vm_compute in v in
                                              change v with v' in H end
           end;
    lia.
Qed.

#[local] Transparent Z.add Z.mul.

Lemma lookup_abbr_range (s : string) (m : Z) :
  lookup_abbr s month_abbr = Some m -> 1 <= m <= 12.
Proof.
  unfold month_abbr. cbn [lookup_abbr].
  repeat (destruct (String.eqb s _); [intros H; injection H as <-; lia|]).
  discriminate.
Qed.

Lemma match_after_d_month (dr : Z * list ascii) (d : date) :
  match_after_d dr = Some d -> 1 <= d_month d <= 12.
Proof.
  unfold match_after_d. destruct (snd dr) as [|c r]; [discriminate|].
  destruct (Ascii.eqb c "-"); [|discriminate].
  unfold match_b. destruct r as [|a [|b [|c' r']]]; try discriminate.
  destruct (lookup_abbr _ month_abbr) as [m|] eqn:Em; [|discriminate].
  destruct (match_Y r') as [y|]; [|discriminate].
  intros H; injection H as <-. cbn. eapply lookup_abbr_range; eauto.
Qed.

Lemma to_datetime_valid (s : string) (d : date) : to_datetime s = Some d -> valid_date d.
Proof.
  unfold to_datetime.
  destruct (first_match _ _) as [d'|] eqn:E; [|discriminate].
  destruct (_ && _) eqn:Hv; [|discriminate]. intros H; injection H as <-.
  apply andb_true_iff in Hv. destruct Hv as [_ Hday]. apply Z.leb_le in Hday.
  apply first_match_some in E. destruct E as ((dd & rest) & Hin & Hafter).
  pose proof (match_d_range _ _ _ Hin) as Hd.
  pose proof (match_after_d_month _ _ Hafter) as Hm.
  apply match_after_d_year in Hafter. destruct Hafter as [Hday' _]. cbn [fst] in Hday'.
  unfold valid_date. lia.
Qed.

Lemma emitted_fields (lab : option string) (hour y : Z) (v : Q) (r : processed_row) :
  In r (emitted lab hour (y, v)) ->
  Year r = y /\ 1 <= Month r <= 12 /\ 1 <= Day r <= 31 /\ 0 <= Hour r <= 23.
Proof.
  unfold emitted, full_date_of. cbn [fst snd].
  destruct (to_datetime (date_string lab y)) as [d|] eqn:E; [|contradiction].
  unfold add_hours. destruct (timedelta_fits hour); [|contradiction].
  destruct (timestamp_fits _); [|contradiction].
  intros [<-|[]]. cbn [Year Month Day Hour].
  pose proof (add_days_valid (hour / 24) d (to_datetime_valid _ _ E)) as [Hm Hd].
  cbn [ts_date ts_hour].
  pose proof (days_in_month_bounds (d_year (add_days (hour / 24) d))
                                   (d_month (add_days (hour / 24) d))).
  pose proof (Z.mod_pos_bound hour 24 ltac:(lia)). repeat split; lia.
Qed.

(** X1: whatever the table, every record that the scan returns has a tracked
    year, a month of the calendar, a day between 1 and 31 and an hour of the
    day; this holds also when the hour offset of a row moves the date to
    another day, month or year. *)
Theorem process_fields_in_range (data : list RawRow) (pd : list processed_row)
        (r : processed_row) :
  process_solar_data data = Ok pd -> In r pd ->
  In (Year r) years /\ 1 <= Month r <= 12 /\ 1 <= Day r <= 31 /\ 0 <= Hour r <= 23.
Proof.
  intros Hpd Hr.
  destruct (process_origin data pd r Hpd Hr) as (lab & row & hour & y & v & _ & _ & _ & Hyv & He).
  apply combine_years_in in Hyv. destruct Hyv as [Hy _].
  apply emitted_fields in He. destruct He as (-> & H). split; [exact Hy|exact H].
Qed.

Lemma process_fields_in_range_witness :
  In (Year (mkRec 2020 2 29 12 2)) years /\
  1 <= Month (mkRec 2020 2 29 12 2) <= 12 /\
  1 <= Day (mkRec 2020 2 29 12 2) <= 31 /\ 0 <= Hour (mkRec 2020 2 29 12 2) <= 23.
Proof.
  apply (process_fields_in_range sample_table sample_records (mkRec 2020 2 29 12 2)).
  - vm_compute. reflexivity.
  - vm_compute. tauto.
Defined.

(** ** Hours of the day *)

Lemma process_scan_from (data : list RawRow) :
  process_solar_data data = out <- scan_from None data ;; Ok (snd (fst out)).
Proof.
  unfold process_solar_data, scan. rewrite for_each_row_step.
  cbn [initial_state current_date processed_data skipped app].
  now destruct (scan_from None data) as [[[l rs] k]|].
Qed.

(** X2: when the hour of every value row is an hour of the day, every record
    carries a value and the hour of a row of the table: the zeroing branch of
    the loop body is never taken, and a record dated February 29 exists for a
    leap year only. *)
Theorem process_within_day (data : list RawRow) (pd : list processed_row)
        (r : processed_row) :
  (forall row hour, In row data -> is_value_row row = true ->
                    int_of_cell (first row) = Ok hour -> 0 <= hour < 24) ->
  process_solar_data data = Ok pd -> In r pd ->
  (exists row, In row data /\ is_value_row row = true /\
               int_of_cell (first row) = Ok (Hour r) /\
               In (Solar_Radiation r) (values row)) /\
  (Month r = 2 -> Day r = 29 -> is_leap_year (Year r) = true).
Proof.
  intros Hday Hpd Hr.
  destruct (process_origin data pd r Hpd Hr)
    as (lab & row & hour & y & v & Hrow & Hv & Hh & Hyv & He).
  apply combine_years_in in Hyv. destruct Hyv as [Hy Hvs].
  destruct (zeroing_unreachable_within_day lab hour y v r Hy (Hday row hour Hrow Hv Hh) He)
    as (-> & -> & -> & Hleap).
  split; [|exact Hleap]. exists row. auto.
Qed.

Lemma process_within_day_witness :
  (exists row, In row sample_table /\ is_value_row row = true /\
               int_of_cell (first row) = Ok (Hour (mkRec 2020 2 29 12 2)) /\
               In (Solar_Radiation (mkRec 2020 2 29 12 2)) (values row)) /\
  (Month (mkRec 2020 2 29 12 2) = 2 -> Day (mkRec 2020 2 29 12 2) = 29 ->
   is_leap_year (Year (mkRec 2020 2 29 12 2)) = true).
Proof.
  apply (process_within_day sample_table sample_records (mkRec 2020 2 29 12 2)).
  - intros row hour Hin Hv Hh. cbn in Hin.
    repeat (destruct Hin as [<-|Hin];
            [first [discriminate Hv | vm_compute in Hh; injection Hh as <-; lia]|]).
    contradiction.
  - vm_compute. reflexivity.
  - vm_compute. tauto.
Defined.

(** ** A cell that is not an hour *)

Lemma scan_from_raise (data : list RawRow) (label : option string) (row : RawRow)
      (e : exn) :
  In row data -> is_value_row row = true -> int_of_cell (first row) = Raise e ->
  exists e', scan_from label data = Raise e'.
Proof.
  revert label; induction data as [|a data IH]; intros label Hin Hv He; [contradiction|].
  cbn [scan_from]. destruct Hin as [->|Hin].
  - unfold is_value_row in Hv. destruct (is_date_marker (first row)); [discriminate|].
    rewrite He. now exists e.
  - destruct (is_date_marker (first a)); [now apply IH|].
    destruct (int_of_cell (first a)) as [hour|e0]; [|now exists e0].
    cbn [bind]. destruct (IH label Hin Hv He) as [e' ->]. now exists e'.
Qed.

(** X4: a value row whose first cell [int] does not convert stops the whole
    run: the error is not caught by the loop, and no record of any row is
    returned. *)
Theorem process_bad_hour_aborts (data : list RawRow) (row : RawRow) (e : exn) :
  In row data -> is_value_row row = true -> int_of_cell (first row) = Raise e ->
  exists e', process_solar_data data = Raise e'.
Proof.
  intros Hin Hv He. rewrite process_scan_from.
  destruct (scan_from_raise data None row e Hin Hv He) as [e' ->]. now exists e'.
Qed.

Lemma process_bad_hour_aborts_witness :
  exists e', process_solar_data
               (sample_table ++ [mkRow (CStr "noon") sample_values]) = Raise e'.
Proof.
  apply (process_bad_hour_aborts (sample_table ++ [mkRow (CStr "noon") sample_values])
                                 (mkRow (CStr "noon") sample_values)
                                 (InvalidLiteral "noon")).
  - apply in_or_app. right. now left.
  - reflexivity.
  - reflexivity.
Defined.

(** ** Hours written as strings *)

Lemma int_digits_nonneg (l : list ascii) (st : lit_state) (acc n : Z) :
  0 <= acc -> int_digits st acc l = Some n -> 0 <= n.
Proof.
  revert st acc; induction l as [|c l IH]; intros st acc Hacc; cbn [int_digits].
  - destruct st; try discriminate. intros H; injection H as <-. exact Hacc.
  - unfold digit_of. destruct (_ && _) eqn:E.
    + apply andb_true_iff in E. destruct E as [E _]. apply Z.leb_le in E.
      apply IH. lia.
    + destruct (Ascii.eqb c "_"); [|discriminate].
      destruct st; try discriminate. now apply IH.
Qed.

Lemma lstrip_with_in (space : ascii -> bool) (l : list ascii) (c : ascii) :
  In c (lstrip_with space l) -> In c l.
Proof.
  destruct (lstrip_with_suffix space l) as [p Hp]. intros H. rewrite Hp.
  apply in_or_app. now right.
Qed.

Lemma int_strip_in (l : list ascii) (c : ascii) : In c (int_strip l) -> In c l.
Proof.
  unfold int_strip. intros H. apply in_rev in H. apply lstrip_with_in in H.
  apply in_rev in H. now apply lstrip_with_in in H.
Qed.

(** X5: an hour that comes from a string cell is never negative: a cell with a
    minus sign is taken as a date marker, so [int] never sees one. *)
Theorem string_hour_nonnegative (s : string) (hour : Z) :
  is_date_marker (CStr s) = None -> int_of_cell (CStr s) = Ok hour -> 0 <= hour.
Proof.
  cbn [is_date_marker int_of_cell]. unfold contains_dash.
  destruct (existsb _ _) eqn:Ed; [discriminate|]. intros _.
  destruct (int_of_str s) as [n|] eqn:En; [|discriminate].
  intros H; injection H as <-. unfold int_of_str in En.
  destruct (int_strip (list_ascii_of_string s)) as [|c l] eqn:Es; [discriminate|].
  destruct (Ascii.eqb c "+"); [now apply int_digits_nonneg in En|].
  destruct (Ascii.eqb c "-") eqn:Ec; [|now apply int_digits_nonneg in En].
  exfalso. apply Ascii.eqb_eq in Ec. subst c.
  assert (Hin : In "-"%char (list_ascii_of_string s))
    by (apply int_strip_in; rewrite Es; now left).
  assert (Hex : existsb (Ascii.eqb "-") (list_ascii_of_string s) = true)
    by (apply existsb_exists; exists "-"%char; split; [exact Hin|reflexivity]).
  congruence.
Qed.

Lemma string_hour_nonnegative_witness : 0 <= 10.
Proof.
  apply (string_hour_nonnegative " 1_0 " 10); reflexivity.
Defined.

(** ** Cutting the table at a date marker *)

(** X8: the table can be cut in front of any date marker: the records of the
    whole are the records of the first part followed by those of the second,
    and an error of either part is the error of the whole. *)
Theorem process_cut_at_marker (pre rest : list RawRow) (mk : RawRow) (s : string) :
  is_date_marker (first mk) = Some s ->
  process_solar_data (pre ++ mk :: rest) =
  a <- process_solar_data pre ;; b <- process_solar_data (mk :: rest) ;; Ok (a ++ b).
Proof.
  intros Hmk. rewrite !process_scan_from, scan_from_app.
  destruct (scan_from None pre) as [[[l rs] k]|]; [|reflexivity].
  cbn [bind fst snd scan_from]. rewrite Hmk.
  now destruct (scan_from (Some s) rest) as [[[l' rs'] k']|].
Qed.

Lemma process_cut_at_marker_witness :
  process_solar_data (firstn 4 sample_table ++ mkRow (CStr "31-Apr") [] :: skipn 5 sample_table) =
  a <- process_solar_data (firstn 4 sample_table) ;;
  b <- process_solar_data (mkRow (CStr "31-Apr") [] :: skipn 5 sample_table) ;;
  Ok (a ++ b).
Proof.
  apply (process_cut_at_marker (firstn 4 sample_table) (skipn 5 sample_table)
                               (mkRow (CStr "31-Apr") []) "31-Apr").
  reflexivity.
Defined.

(** ** The labels of the calendar *)

Lemma one_to_in (n : nat) (z : Z) : 1 <= z <= Z.of_nat n -> In z (one_to n).
Proof.
  intros H. unfold one_to. rewrite <- (Z2Nat.id z) by lia.
  apply in_map, in_seq. lia.
Qed.

Lemma date_eqb_eq (a b : date) : date_eqb a b = true -> a = b.
Proof.
  unfold date_eqb. rewrite !andb_true_iff, !Z.eqb_eq.
  destruct a, b; cbn. intros [[-> ->] ->]. reflexivity.
Qed.

Lemma all_labels_parse :
  forallb (fun y => forallb (fun m => forallb (label_parses y m) (one_to 31)) (one_to 12))
          years = true.
Proof. vm_compute. reflexivity. Qed.

(** X7: the label of every day of the calendar, written as in the tables, is
    read back as that day in each tracked year; the label of a day that the
    month does not have in that year (30-Feb, 31-Apr, 29-Feb outside a leap
    year) is refused. *)
Theorem day_label_round_trip (y m d : Z) :
  In y years -> 1 <= m <= 12 -> 1 <= d <= 31 ->
  to_datetime (date_string (Some (day_label d m)) y) =
  if d <=? days_in_month y m then Some (mkDate y m d) else None.
Proof.
  intros Hy Hm Hd. pose proof all_labels_parse as H.
  rewrite forallb_forall in H. specialize (H y Hy).
  rewrite forallb_forall in H. specialize (H m (one_to_in 12 m Hm)).
  rewrite forallb_forall in H. specialize (H d (one_to_in 31 d Hd)).
  unfold label_parses in H.
  destruct (to_datetime (date_string (Some (day_label d m)) y)) as [dt|].
  - apply andb_true_iff in H. destruct H as [-> H]. now rewrite (date_eqb_eq _ _ H).
  - apply negb_true_iff in H. now rewrite H.
Qed.

Lemma day_label_round_trip_witness :
  to_datetime (date_string (Some (day_label 29 2)) 2021) =
  if 29 <=? days_in_month 2021 2 then Some (mkDate 2021 2 29) else None.
Proof.
  apply (day_label_round_trip 2021 2 29); [cbn; tauto | lia | lia].
Defined.

(** * Further properties of the assembly *)

(** X16: the assembly fails on an empty list of selections (nothing to
    concatenate) and, when there are selections, on an empty record set (no
    Month column); otherwise it returns the blocks of the selections. *)
Theorem calculate_tmy_cases (sels : list tmm_row) (recs : list processed_row) :
  calculate_tmy sels recs =
  match sels, recs with
  | [], _ => Raise NoObjectsToConcatenate
  | _ :: _, [] => Raise (KeyError "Month")
  | _ :: _, _ :: _ =>
      Ok (flat_map (fun s => filter (fun r => (Month r =? T_Month s)
                                              && (Year r =? Representative_Year s)) recs)
                   sels)
  end.
Proof.
  destruct sels as [|s sels]; [reflexivity|].
  destruct recs as [|r recs].
  - unfold calculate_tmy. now rewrite for_each_collect.
  - now rewrite calculate_tmy_ok.
Qed.

(** X17: the series of two lists of selections, one after the other, is the
    series of the first followed by the series of the second; in particular a
    selection that is supplied twice contributes its block twice. *)
Theorem calculate_tmy_app (s1 s2 : list tmm_row) (recs : list processed_row) :
  s1 <> [] -> s2 <> [] ->
  calculate_tmy (s1 ++ s2) recs =
  a <- calculate_tmy s1 recs ;; b <- calculate_tmy s2 recs ;; Ok (a ++ b).
Proof.
  intros H1 H2.
  destruct s1 as [|a s1]; [contradiction|]. destruct s2 as [|b s2]; [contradiction|].
  destruct recs as [|r recs].
  - unfold calculate_tmy. now rewrite !for_each_collect.
  - rewrite !calculate_tmy_ok by discriminate.
    cbn [bind]. now rewrite flat_map_app.
Qed.

Lemma calculate_tmy_app_witness :
  calculate_tmy (reversed_selections ++ reversed_selections) two_month_records =
  a <- calculate_tmy reversed_selections two_month_records ;;
  b <- calculate_tmy reversed_selections two_month_records ;; Ok (a ++ b).
Proof.
  apply (calculate_tmy_app reversed_selections reversed_selections two_month_records);
    discriminate.
Defined.

(** * The steps of the script together *)

Lemma months_nodup : NoDup months.
Proof.
  unfold months. repeat (constructor; [cbn; intuition lia|]). constructor.
Qed.

Lemma filter_none {A : Type} (f : A -> bool) (l : list A) :
  (forall x, In x l -> f x = false) -> filter f l = [].
Proof.
  induction l as [|a l IH]; intros H; [reflexivity|]. cbn [filter].
  rewrite (H a (or_introl eq_refl)). apply IH. intros; apply H; now right.
Qed.

Lemma filter_all {A : Type} (f : A -> bool) (l : list A) :
  (forall x, In x l -> f x = true) -> filter f l = l.
Proof.
  induction l as [|a l IH]; intros H; [reflexivity|]. cbn [filter].
  rewrite (H a (or_introl eq_refl)). f_equal. apply IH. intros; apply H; now right.
Qed.

Lemma filter_flat_map {A B : Type} (f : B -> bool) (g : A -> list B) (l : list A) :
  filter f (flat_map g l) = flat_map (fun a => filter f (g a)) l.
Proof.
  induction l as [|a l IH]; [reflexivity|]. cbn [flat_map].
  now rewrite filter_app, IH.
Qed.

Lemma flat_map_none {A B : Type} (g : A -> list B) (l : list A) :
  (forall a, In a l -> g a = []) -> flat_map g l = [].
Proof.
  induction l as [|a l IH]; intros H; [reflexivity|]. cbn [flat_map].
  rewrite (H a (or_introl eq_refl)). apply IH. intros; apply H; now right.
Qed.

Lemma month_of_blocks (recs : list processed_row) (sels : list tmm_row) (row : tmm_row) :
  NoDup (map T_Month sels) -> In row sels ->
  filter (month_is (T_Month row)) (flat_map (block_of recs) sels) = block_of recs row.
Proof.
  induction sels as [|s sels IH]; intros Hnd Hin; [contradiction|].
  cbn [map] in Hnd. apply NoDup_cons_iff in Hnd. destruct Hnd as [Hs Hnd].
  cbn [flat_map]. rewrite filter_app. destruct Hin as [->|Hin].
  - rewrite filter_all.
    + rewrite filter_flat_map, flat_map_none; [now rewrite app_nil_r|].
      intros s' Hs'. apply filter_none. intros r Hr.
      apply block_of_month in Hr. destruct Hr as (_ & Hm & _).
      unfold month_is. apply Z.eqb_neq. rewrite Hm. intros E.
      apply Hs. rewrite <- E. now apply in_map.
    + intros r Hr. apply block_of_month in Hr. destruct Hr as (_ & Hm & _).
      unfold month_is. now apply Z.eqb_eq.
  - rewrite IH by assumption. rewrite filter_none; [reflexivity|].
    intros r Hr. apply block_of_month in Hr. destruct Hr as (_ & Hm & _).
    unfold month_is. apply Z.eqb_neq. rewrite Hm. intros E.
    apply Hs. rewrite E. now apply in_map.
Qed.

Lemma selection_nonempty (pd : list processed_row) (tmm : list tmm_row) :
  calculate_tmm pd = Ok tmm -> tmm <> [] /\ pd <> [].
Proof.
  intros Htmm. pose proof (calculate_tmm_rows pd tmm Htmm) as HF. unfold months in HF.
  inversion HF as [|m r ms rs Hrow _]; subst. split; [discriminate|].
  apply tmm_month_inv in Hrow. tauto.
Qed.

(** X18: when the selection step returns, the assembly step that follows it in
    the script returns too.  The series has its months in ascending order;
    its records of each month are exactly the records of that month's
    representative year, in their original order, so no month mixes two
    years; and every record is a record of the input. *)
Theorem tmy_of_tmm (pd : list processed_row) (tmm : list tmm_row) :
  calculate_tmm pd = Ok tmm ->
  exists tmy,
    calculate_tmy tmm pd = Ok tmy /\
    StronglySorted Z.le (map Month tmy) /\
    (forall row, In row tmm ->
       filter (fun r => Month r =? T_Month row) tmy =
       filter (fun r => (Month r =? T_Month row) && (Year r =? Representative_Year row)) pd) /\
    (forall r, In r tmy -> In r pd /\ 1 <= Month r <= 12 /\ In (Year r) years).
Proof.
  intros Htmm. destruct (calculate_tmm_shape pd tmm Htmm) as [Hmonths Hyears].
  assert (Hne : tmm <> []) by (intros ->; discriminate).
  assert (Hpd : pd <> []).
  { destruct tmm as [|row tmm]; [contradiction|].
    pose proof (calculate_tmm_rows pd _ Htmm) as HF. unfold months in HF.
    inversion HF as [|m r ms rs Hrow _]; subst.
    apply tmm_month_inv in Hrow. tauto. }
  exists (flat_map (block_of pd) tmm).
  split; [now apply calculate_tmy_ok|]. split; [|split].
  - apply blocks_month_sorted. rewrite Hmonths. unfold months.
    repeat (constructor; [|repeat constructor; lia]). constructor.
  - intros row Hrow.
    apply (month_of_blocks pd tmm row); [|exact Hrow].
    rewrite Hmonths. apply months_nodup.
  - intros r Hr. apply in_flat_map in Hr. destruct Hr as (s & Hs & Hr).
    apply block_of_month in Hr. destruct Hr as (Hin & Hm & Hy).
    split; [exact Hin|]. rewrite Hm, Hy. split.
    + assert (Hms : In (T_Month s) months) by (rewrite <- Hmonths; now apply in_map).
      unfold months in Hms. cbn in Hms. intuition lia.
    + rewrite Forall_forall in Hyears. now apply Hyears.
Qed.

Lemma tmy_of_tmm_witness :
  exists tmy,
    calculate_tmy spread_selections spread_records = Ok tmy /\
    StronglySorted Z.le (map Month tmy) /\
    (forall row, In row spread_selections ->
       filter (fun r => Month r =? T_Month row) tmy =
       filter (fun r => (Month r =? T_Month row) && (Year r =? Representative_Year row))
              spread_records) /\
    (forall r, In r tmy -> In r spread_records /\ 1 <= Month r <= 12 /\ In (Year r) years).
Proof.
  apply (tmy_of_tmm spread_records spread_selections). vm_compute. reflexivity.
Defined.

(** X19: when the scan and the selection step return, the script as a whole
    returns: the assembly step never fails after them, and the selection
    table has twelve rows. *)
Theorem main_returns (data : list RawRow) (pd : list processed_row) (tmm : list tmm_row) :
  process_solar_data data = Ok pd -> calculate_tmm pd = Ok tmm ->
  exists tmy,
    main data = Ok (pd, tmm, tmy) /\ calculate_tmy tmm pd = Ok tmy /\
    List.length tmm = 12%nat.
Proof.
  intros Hpd Htmm. destruct (selection_nonempty pd tmm Htmm) as [Hne Hrecs].
  pose proof (calculate_tmy_ok tmm pd Hne Hrecs) as Htmy.
  exists (flat_map (block_of pd) tmm). unfold main. rewrite Hpd. cbn [bind]. rewrite Htmm. cbn [bind].
  rewrite Htmy. repeat split.
  destruct (calculate_tmm_shape pd tmm Htmm) as [Hm _].
  now rewrite <- (length_map T_Month), Hm.
Qed.

(** X20: a table without any date-marker row, whose rows all have an hour
    that converts, gives no record at all, and the script fails at the
    selection step with the key error of a frame without columns. *)
Theorem main_without_records (data : list RawRow) :
  Forall hour_converts data ->
  process_solar_data data = Ok [] /\ main data = Raise (KeyError "Month").
Proof.
  intros H.
  assert (Hpd : process_solar_data data = Ok []).
  { rewrite process_scan_from, (scan_from_unlabelled data H). reflexivity. }
  split; [exact Hpd|]. unfold main. rewrite Hpd. reflexivity.
Qed.

Lemma main_without_records_witness :
  process_solar_data (firstn 2 sample_table) = Ok [] /\
  main (firstn 2 sample_table) = Raise (KeyError "Month").
Proof.
  apply (main_without_records (firstn 2 sample_table)).
  repeat constructor; eexists; reflexivity.
Defined.

(** * Further properties of the selection *)

Lemma selection_minimal (pd : list processed_row) (out : list tmm_row) (row : tmm_row) :
  calculate_tmm pd = Ok out -> In row out ->
  In (Representative_Year row) years /\
  exists v,
    fs_stat (month_data_of pd (T_Month row)) (Representative_Year row) = Ok v /\
    forall y, In y years ->
      exists w, fs_stat (month_data_of pd (T_Month row)) y = Ok w /\
                (v <= w)%Q /\ ((w == v)%Q -> Representative_Year row <= y).
Proof.
  intros Hout Hrow.
  destruct (Forall2_in_r _ _ _ _ (calculate_tmm_rows pd out Hout) Hrow) as (m & _ & Hm).
  split; [eapply tmm_month_year; eauto|].
  apply tmm_month_inv in Hm. destruct Hm as (_ & stats & Hs & Hmin & -> & _).
  apply fs_statistics_inv in Hs. destruct Hs as (vs & Hvs & ->).
  apply map_result_ok in Hvs.
  destruct (min_by_value_spec _ _ (years_sorted vs) Hmin) as (v & Hv & Hall).
  exists v. split; [exact (Forall2_combine_in _ _ _ _ _ Hvs Hv)|].
  intros y Hy. destruct (Forall2_combine_ex _ _ _ _ Hvs Hy) as (w & Hw & Hfs).
  exists w. split; [exact Hfs|]. now apply Hall.
Qed.

Lemma fold_Qplus_nonneg (l : list Q) (a : Q) :
  (forall x, In x l -> (0 <= x)%Q) -> (0 <= a)%Q -> (0 <= fold_left Qplus l a)%Q.
Proof.
  revert a; induction l as [|x l IH]; intros a Hl Ha; [exact Ha|].
  cbn [fold_left]. apply IH; [intros; apply Hl; now right|].
  pose proof (Hl x (or_introl eq_refl)). lra.
Qed.

Lemma Qsum_abs_nonneg (g : Q -> Q) (l : list Q) :
  (0 <= Qsum (map (fun x => Qabs (g x)) l))%Q.
Proof.
  unfold Qsum. apply fold_Qplus_nonneg; [|apply Qle_refl].
  intros x Hx. apply in_map_iff in Hx. destruct Hx as (d & Hd & _).
  rewrite <- Hd. apply Qabs_nonneg.
Qed.

Lemma fs_stat_nonneg (md : list processed_row) (y : Z) (v : Q) :
  fs_stat md y = Ok v -> (0 <= v)%Q.
Proof.
  unfold fs_stat. destruct (np_sub _ _) as [diff|]; [|discriminate].
  destruct (np_max _) as [hi|]; [|discriminate].
  destruct (np_min _) as [lo|]; [|discriminate].
  intros H. injection H as H. rewrite <- H.
  apply (Qsum_abs_nonneg (fun x => x / (hi - lo + eps))%Q).
Qed.

Lemma years_from_2019 (y : Z) : In y years -> 2019 <= y.
Proof. unfold years. cbn. intuition lia. Qed.

(** ** When the selection returns *)

Lemma np_sub_cases (a b : list Q) :
  (broadcastable (List.length a) (List.length b) = true /\ exists d, np_sub a b = Ok d) \/
  (broadcastable (List.length a) (List.length b) = false /\
   np_sub a b = Raise (BroadcastError (List.length a) (List.length b))).
Proof.
  unfold np_sub, broadcastable.
  destruct (Nat.eqb (List.length a) (List.length b)) eqn:E; [left; split; eauto|].
  destruct a as [|x [|x' a]]; destruct b as [|y [|y' b]]; cbn in *;
    try discriminate; try (left; split; eauto; fail); right; split; reflexivity.
Qed.

Lemma group_keys_empty (df : list processed_row) : group_keys df = [] -> df = [].
Proof.
  intros H. destruct df as [|r df]; [reflexivity|].
  exfalso. now apply (group_keys_nonempty (r :: df)).
Qed.

Lemma fs_stat_ok_iff (md : list processed_row) (y : Z) :
  (exists v, fs_stat md y = Ok v) <->
  md <> [] /\
  broadcastable (List.length (group_keys md))
                (List.length (group_keys (year_data_of md y))) = true.
Proof.
  unfold fs_stat. fold (year_data_of md y).
  destruct (np_sub_cases (series_values (groupby_hour_mean md))
                         (series_values (groupby_hour_mean (year_data_of md y))))
    as [[Hb [d Hd]]|[Hb Hd]]; rewrite !series_values_length in Hb; rewrite Hd; cbn [bind].
  - destruct md as [|r md].
    + split; [intros [v Hv]; discriminate|intros [H _]; contradiction].
    + split; [intros _; split; [discriminate|exact Hb]|intros _].
      assert (Hne : series_values (groupby_hour_mean (r :: md)) <> []).
      { apply length_nonempty. rewrite series_values_length.
        apply length_nonempty. now apply group_keys_nonempty. }
      destruct (np_max_total _ Hne) as [hi ->]. destruct (np_min_total _ Hne) as [lo ->].
      cbn [bind]. now eexists.
  - split; [intros [v Hv]; discriminate|intros [_ H]; congruence].
Qed.

Lemma tmm_month_ok_iff (pd : list processed_row) (m : Z) :
  (exists row, tmm_month pd m = Ok row) <-> month_selectable pd m.
Proof.
  unfold month_selectable. split.
  - intros [row Hrow]. apply tmm_month_inv in Hrow.
    destruct Hrow as (_ & stats & Hs & _).
    apply fs_statistics_inv in Hs. destruct Hs as (vs & Hvs & _).
    apply map_result_ok in Hvs.
    assert (Hall : forall y, In y years ->
              month_data_of pd m <> [] /\
              broadcastable (List.length (group_keys (month_data_of pd m)))
                (List.length (group_keys (year_data_of (month_data_of pd m) y))) = true).
    { intros y Hy. destruct (Forall2_in_l _ _ _ _ Hvs Hy) as (v & _ & Hv).
      apply fs_stat_ok_iff. now exists v. }
    split; [apply (Hall 2019); now left|]. intros y Hy. now apply Hall.
  - intros [Hmd Hb]. unfold tmm_month.
    destruct pd as [|r pd]; [now contradiction Hmd|].
    fold (month_data_of (r :: pd) m).
    destruct (fs_statistics_total (month_data_of (r :: pd) m)) as (vs & -> & _ & Hvs).
    { intros y Hy. apply fs_stat_ok_iff. split; auto. }
    cbn [bind].
    destruct (min_by_value_total (combine years vs)) as [y ->]; [|now eexists].
    apply length_nonempty. rewrite length_combine, Hvs, Nat.min_id. discriminate.
Qed.

(** X10: the selection step returns exactly when every month has records and,
    in every month, the number of distinct hours of each tracked year can be
    combined with that of the month: the two are equal, or one of them is
    one.  In every other case it raises. *)
Theorem calculate_tmm_returns_iff (pd : list processed_row) :
  (exists out, calculate_tmm pd = Ok out) <->
  forall m, In m months -> month_selectable pd m.
Proof.
  rewrite calculate_tmm_collect. split.
  - intros [out Hout] m Hm. apply map_result_ok in Hout.
    destruct (Forall2_in_l _ _ _ _ Hout Hm) as (row & _ & Hrow).
    apply tmm_month_ok_iff. now exists row.
  - intros H. apply map_result_total. intros m Hm. apply tmm_month_ok_iff. now apply H.
Qed.

(** ** A year without records *)

Lemma fs_stat_no_records (md : list processed_row) (y h : Z) :
  group_keys md = [h] -> year_data_of md y = [] -> fs_stat md y = Ok 0%Q.
Proof.
  intros Hk Hy. unfold fs_stat. fold (year_data_of md y). rewrite Hy.
  unfold groupby_hour_mean. rewrite Hk. reflexivity.
Qed.

(** X14: in a month whose records all fall on one hour, a tracked year without
    any record gets the statistic 0.  So when 2019 has no record in such a
    month, 2019 is made the representative year of the month, and the average
    reported for it is NaN. *)
Theorem empty_year_selected (pd : list processed_row) (out : list tmm_row)
        (row : tmm_row) (h : Z) :
  calculate_tmm pd = Ok out -> In row out ->
  group_keys (month_data_of pd (T_Month row)) = [h] ->
  year_data_of (month_data_of pd (T_Month row)) 2019 = [] ->
  Representative_Year row = 2019 /\ Average_Solar_Radiation row = None.
Proof.
  intros Hout Hrow Hk Hy.
  pose proof (fs_stat_no_records _ 2019 h Hk Hy) as H19.
  destruct (selection_minimal pd out row Hout Hrow) as (Hin & v & Hv & Hall).
  destruct (Hall 2019 (or_introl eq_refl)) as (w & Hw & Hle & Htie).
  rewrite H19 in Hw. injection Hw as <-.
  pose proof (fs_stat_nonneg _ _ _ Hv) as Hnn.
  pose proof (years_from_2019 _ Hin).
  assert (Hrep : Representative_Year row = 2019).
  { assert (Representative_Year row <= 2019); [|lia].
    apply Htie. now apply Qle_antisym. }
  split; [exact Hrep|].
  destruct (Forall2_in_r _ _ _ _ (calculate_tmm_rows pd out Hout) Hrow) as (m & _ & Hm).
  apply tmm_month_inv in Hm. destruct Hm as (_ & stats & _ & _ & <- & Havg).
  now rewrite Havg, Hrep, Hy.
Qed.

Lemma empty_year_selected_witness :
  Representative_Year (mkTmm 2 2019 None) = 2019 /\
  Average_Solar_Radiation (mkTmm 2 2019 None) = None.
Proof.
  apply (empty_year_selected leap_only_records leap_only_selections (mkTmm 2 2019 None) 0).
  - vm_compute. reflexivity.
  - vm_compute. tauto.
  - vm_compute. reflexivity.
  - vm_compute. reflexivity.
Defined.

(** ** The order of the records *)

Lemma filter_perm {A : Type} (f : A -> bool) (l l' : list A) :
  Permutation l l' -> Permutation (filter f l) (filter f l').
Proof.
  induction 1 as [|x l l' _ IH|x y l|l l' l'' _ IH1 _ IH2]; cbn [filter].
  - constructor.
  - destruct (f x); [now constructor|exact IH].
  - destruct (f x), (f y); try apply Permutation_refl. apply perm_swap.
  - now apply Permutation_trans with (filter f l').
Qed.

Lemma sorted_unique (l l' : list Z) :
  StronglySorted Z.lt l -> StronglySorted Z.lt l' ->
  (forall x, In x l <-> In x l') -> l = l'.
Proof.
  intros Hl; revert l'; induction Hl as [|a l Hs IH Ha]; intros l' Hl' Hin.
  - destruct l' as [|b l']; [reflexivity|].
    exfalso. apply (proj2 (Hin b)). now left.
  - destruct Hl' as [|b l' Hs' Hb].
    + exfalso. apply (proj1 (Hin a)). now left.
    + rewrite Forall_forall in Ha, Hb.
      assert (E : a = b).
      { destruct (proj1 (Hin a) (or_introl eq_refl)) as [E|Ha']; [now symmetry|].
        destruct (proj2 (Hin b) (or_introl eq_refl)) as [E|Hb']; [exact E|].
        specialize (Ha _ Hb'). specialize (Hb _ Ha'). lia. }
      subst b. f_equal. apply IH; [exact Hs'|].
      intros x. split; intros Hx.
      * destruct (proj1 (Hin x) (or_intror Hx)) as [E|H]; [|exact H].
        specialize (Ha _ Hx). lia.
      * destruct (proj2 (Hin x) (or_intror Hx)) as [E|H]; [|exact H].
        specialize (Hb _ Hx). lia.
Qed.

Lemma group_keys_perm (df df' : list processed_row) :
  Permutation df df' -> group_keys df = group_keys df'.
Proof.
  intros H. apply sorted_unique; try apply profile_hours_sorted.
  intros h. fold (profile_hours df) (profile_hours df'). rewrite !profile_hours_in.
  split; intros (r & Hr & Hh); exists r; split; auto.
  - eapply Permutation_in; eauto.
  - eapply Permutation_in; [apply Permutation_sym|]; eauto.
Qed.

Lemma fold_Qplus_rel (l l' : list Q) (a b : Q) :
  Forall2 Qeq l l' -> (a == b)%Q -> (fold_left Qplus l a == fold_left Qplus l' b)%Q.
Proof.
  intros H; revert a b; induction H as [|x x' l l' Hx _ IH]; intros a b Hab; [exact Hab|].
  cbn [fold_left]. apply IH. now rewrite Hab, Hx.
Qed.

Lemma Forall2_Qeq_refl (l : list Q) : Forall2 Qeq l l.
Proof. induction l; constructor; [reflexivity|assumption]. Qed.

Lemma fold_Qplus_perm (l l' : list Q) :
  Permutation l l' -> forall a, (fold_left Qplus l a == fold_left Qplus l' a)%Q.
Proof.
  induction 1 as [|x l l' _ IH|x y l|l l' l'' _ IH1 _ IH2]; intros a; cbn [fold_left].
  - reflexivity.
  - apply IH.
  - apply fold_Qplus_rel; [apply Forall2_Qeq_refl|ring].
  - now rewrite IH1.
Qed.

Lemma mean_of_perm (l l' : list Q) : Permutation l l' -> (mean_of l == mean_of l')%Q.
Proof.
  intros H. unfold mean_of, Qsum, Qlen.
  now rewrite (fold_Qplus_perm l l' H), (Permutation_length H).
Qed.

Lemma Forall2_map_same {A B : Type} (R : B -> B -> Prop) (f g : A -> B) (l : list A) :
  (forall x, R (f x) (g x)) -> Forall2 R (map f l) (map g l).
Proof. intros H. induction l; cbn; constructor; auto. Qed.

Lemma groupby_values_perm (md md' : list processed_row) :
  Permutation md md' ->
  Forall2 Qeq (series_values (groupby_hour_mean md))
              (series_values (groupby_hour_mean md')).
Proof.
  intros H. unfold series_values, groupby_hour_mean.
  rewrite !map_map, <- (group_keys_perm md md' H).
  apply Forall2_map_same. intros h. cbn [snd].
  apply mean_of_perm, Permutation_map, filter_perm, H.
Qed.

Lemma zip_with_rel (a a' b b' : list Q) :
  Forall2 Qeq a a' -> Forall2 Qeq b b' ->
  Forall2 Qeq (zip_with Qminus a b) (zip_with Qminus a' b').
Proof.
  intros Ha; revert b b'; induction Ha as [|x x' a a' Hx _ IH]; intros b b' Hb.
  - constructor.
  - destruct Hb as [|y y' b b' Hy Hb]; cbn [zip_with]; constructor.
    + now rewrite Hx, Hy.
    + now apply IH.
Qed.

Lemma map_sub_rel (f f' : Q -> Q) (l l' : list Q) :
  (forall x x', (x == x')%Q -> (f x == f' x')%Q) ->
  Forall2 Qeq l l' -> Forall2 Qeq (map f l) (map f' l').
Proof. intros Hf. induction 1; cbn [map]; constructor; auto. Qed.

Lemma np_sub_rel (a a' b b' : list Q) :
  Forall2 Qeq a a' -> Forall2 Qeq b b' ->
  same_result (Forall2 Qeq) (np_sub a b) (np_sub a' b').
Proof.
  intros Ha Hb. unfold np_sub.
  rewrite <- (Forall2_length Ha), <- (Forall2_length Hb).
  destruct (Nat.eqb (List.length a) (List.length b)); [now apply zip_with_rel|].
  destruct Ha as [|x x' a a' Hx Ha].
  - destruct Hb as [|y y' b b' Hy Hb]; [reflexivity|].
    destruct Hb as [|z z' b b' Hz Hb]; cbn; [constructor|reflexivity].
  - destruct Ha as [|x2 x2' a a' Hx2 Ha].
    + cbn. apply map_sub_rel; [|exact Hb]. intros u u' Hu. now rewrite Hx, Hu.
    + destruct Hb as [|y y' b b' Hy Hb]; [reflexivity|].
      destruct Hb as [|z z' b b' Hz Hb]; [|reflexivity].
      cbn [same_result].
      apply (map_sub_rel (fun u => u - y)%Q (fun u => u - y')%Q).
      * intros u u' Hu. now rewrite Hy, Hu.
      * repeat constructor; assumption.
Qed.

Lemma fold_Qmax_rel (l l' : list Q) (a b : Q) :
  Forall2 Qeq l l' -> (a == b)%Q -> (fold_left Qmax l a == fold_left Qmax l' b)%Q.
Proof.
  intros H; revert a b; induction H as [|x x' l l' Hx _ IH]; intros a b Hab; [exact Hab|].
  cbn [fold_left]. apply IH. now apply Q.max_compat.
Qed.

Lemma fold_Qmin_rel (l l' : list Q) (a b : Q) :
  Forall2 Qeq l l' -> (a == b)%Q -> (fold_left Qmin l a == fold_left Qmin l' b)%Q.
Proof.
  intros H; revert a b; induction H as [|x x' l l' Hx _ IH]; intros a b Hab; [exact Hab|].
  cbn [fold_left]. apply IH. now apply Q.min_compat.
Qed.

Lemma np_max_rel (a a' : list Q) :
  Forall2 Qeq a a' -> same_result Qeq (np_max a) (np_max a').
Proof. destruct 1; cbn; [reflexivity|now apply fold_Qmax_rel]. Qed.

Lemma np_min_rel (a a' : list Q) :
  Forall2 Qeq a a' -> same_result Qeq (np_min a) (np_min a').
Proof. destruct 1; cbn; [reflexivity|now apply fold_Qmin_rel]. Qed.

Lemma fs_stat_perm (md md' : list processed_row) (y : Z) :
  Permutation md md' -> same_result Qeq (fs_stat md y) (fs_stat md' y).
Proof.
  intros H. unfold fs_stat.
  pose proof (groupby_values_perm md md' H) as Hlt.
  pose proof (groupby_values_perm _ _ (filter_perm (year_is y) md md' H)) as Hy.
  pose proof (np_sub_rel _ _ _ _ Hlt Hy) as Hsub.
  pose proof (np_max_rel _ _ Hlt) as Hmax.
  pose proof (np_min_rel _ _ Hlt) as Hmin.
  destruct (np_sub _ _) as [d|e], (np_sub _ _) as [d'|e']; cbn in Hsub;
    try contradiction; cbn [bind]; [|exact Hsub].
  destruct (np_max _) as [hi|e], (np_max _) as [hi'|e']; cbn in Hmax;
    try contradiction; cbn [bind]; [|exact Hmax].
  destruct (np_min _) as [lo|e], (np_min _) as [lo'|e']; cbn in Hmin;
    try contradiction; cbn [bind]; [|exact Hmin].
  cbn [same_result]. unfold Qsum. apply fold_Qplus_rel; [|reflexivity].
  apply (map_sub_rel (fun x => Qabs (x / (hi - lo + eps)))%Q
                     (fun x => Qabs (x / (hi' - lo' + eps)))%Q); [|exact Hsub].
  intros x x' Hx. now rewrite Hx, Hmax, Hmin.
Qed.

Lemma fs_statistics_perm (md md' : list processed_row) :
  Permutation md md' ->
  same_result (Forall2 same_stat) (fs_statistics md) (fs_statistics md').
Proof.
  intros H. unfold fs_statistics, years. cbn [for_each].
  pose proof (fs_stat_perm md md' 2019 H) as H1.
  pose proof (fs_stat_perm md md' 2020 H) as H2.
  pose proof (fs_stat_perm md md' 2021 H) as H3.
  pose proof (fs_stat_perm md md' 2022 H) as H4.
  pose proof (fs_stat_perm md md' 2023 H) as H5.
  destruct (fs_stat md 2019), (fs_stat md' 2019); cbn in H1; try contradiction;
    cbn [bind]; [|exact H1].
  destruct (fs_stat md 2020), (fs_stat md' 2020); cbn in H2; try contradiction;
    cbn [bind]; [|exact H2].
  destruct (fs_stat md 2021), (fs_stat md' 2021); cbn in H3; try contradiction;
    cbn [bind]; [|exact H3].
  destruct (fs_stat md 2022), (fs_stat md' 2022); cbn in H4; try contradiction;
    cbn [bind]; [|exact H4].
  destruct (fs_stat md 2023), (fs_stat md' 2023); cbn in H5; try contradiction;
    cbn [bind]; [|exact H5].
  cbn. repeat constructor; assumption.
Qed.

Lemma Qlt_bool_rel (x x' y y' : Q) :
  (x == x')%Q -> (y == y')%Q -> Qlt_bool x y = Qlt_bool x' y'.
Proof. intros Hx Hy. unfold Qlt_bool. now rewrite Hx, Hy. Qed.

Lemma min_fold_rel (l l' : list (Z * Q)) (x x' : Z * Q) :
  Forall2 same_stat l l' -> same_stat x x' ->
  same_stat (fold_left min_step l x) (fold_left min_step l' x').
Proof.
  intros H; revert x x'; induction H as [|a a' l l' Ha _ IH]; intros x x' Hx; [exact Hx|].
  cbn [fold_left]. apply IH. unfold min_step.
  rewrite (Qlt_bool_rel (snd a) (snd a') (snd x) (snd x')) by (apply Ha || apply Hx).
  now destruct (Qlt_bool (snd a') (snd x')).
Qed.

Lemma min_by_value_rel (d d' : list (Z * Q)) :
  Forall2 same_stat d d' -> min_by_value d = min_by_value d'.
Proof.
  destruct 1 as [|x x' l l' Hx Hl]; [reflexivity|]. cbn [min_by_value].
  f_equal. now apply min_fold_rel.
Qed.

Lemma rint_comp (x y : Q) : (x == y)%Q -> rint x = rint y.
Proof.
  intros H. unfold rint. rewrite (Qfloor_comp x y H).
  assert (E : (x - inject_Z (Qfloor y) ?= 1 # 2)%Q = (y - inject_Z (Qfloor y) ?= 1 # 2)%Q)
    by now rewrite H.
  now rewrite E.
Qed.

Lemma round2_comp (x y : Q) : (x == y)%Q -> round2 x = round2 y.
Proof.
  intros H. unfold round2. rewrite (rint_comp (x * 100) (y * 100)); [reflexivity|].
  now rewrite H.
Qed.

Lemma rounded_mean_perm (l l' : list Q) :
  Permutation l l' ->
  option_map round2 (series_mean l) = option_map round2 (series_mean l').
Proof.
  intros H. destruct l as [|x l].
  - apply Permutation_nil in H. now subst.
  - destruct l' as [|x' l']; [apply Permutation_sym, Permutation_nil in H; discriminate|].
    cbn [series_mean option_map]. f_equal. apply round2_comp. now apply mean_of_perm.
Qed.

Lemma tmm_month_perm (pd pd' : list processed_row) (m : Z) :
  Permutation pd pd' -> tmm_month pd m = tmm_month pd' m.
Proof.
  intros H. unfold tmm_month.
  destruct pd as [|r pd].
  { apply Permutation_nil in H. now subst. }
  destruct pd' as [|r' pd'].
  { apply Permutation_sym, Permutation_nil in H. discriminate. }
  pose proof (filter_perm (month_is m) _ _ H) as Hm.
  pose proof (fs_statistics_perm _ _ Hm) as Hs.
  destruct (fs_statistics (filter (month_is m) (r :: pd))) as [stats|e],
           (fs_statistics (filter (month_is m) (r' :: pd'))) as [stats'|e'];
    cbn in Hs; try contradiction; cbn [bind]; [|now rewrite Hs].
  rewrite (min_by_value_rel _ _ Hs).
  destruct (min_by_value stats') as [y|]; [|reflexivity].
  f_equal. f_equal.
  apply rounded_mean_perm, Permutation_map, filter_perm, Hm.
Qed.

(** X15: the selection does not depend on the order of the records: two record
    sets with the same records, in whatever order, give the same selections
    with the same averages, or fail with the same error (the sums being
    exact). *)
Theorem calculate_tmm_order_independent (pd pd' : list processed_row) :
  Permutation pd pd' -> calculate_tmm pd = calculate_tmm pd'.
Proof.
  intros H. rewrite !calculate_tmm_collect.
  induction months as [|m ms IH]; [reflexivity|].
  cbn [map_result]. now rewrite (tmm_month_perm pd pd' m H), IH.
Qed.

Lemma calculate_tmm_order_independent_witness :
  calculate_tmm spread_records = calculate_tmm (rev spread_records).
Proof.
  apply (calculate_tmm_order_independent spread_records (rev spread_records)).
  apply Permutation_rev.
Defined.

Lemma main_returns_witness :
  exists tmy,
    main first_days_table = Ok (first_days_records, first_days_selections, tmy) /\
    calculate_tmy first_days_selections first_days_records = Ok tmy /\
    List.length first_days_selections = 12%nat.
Proof.
  apply (main_returns first_days_table first_days_records first_days_selections).
  - vm_compute. reflexivity.
  - vm_compute. reflexivity.
Defined.

(** * Further properties of the scan: what is zeroed, what is ignored *)

(** X3: a record dated February 29 whose year is not a leap year always has
    the value 0.  Such a record comes only from an hour offset that carries
    the date into a leap year, the year column keeping the tracked year. *)
Theorem feb29_outside_leap_year_is_zero (data : list RawRow) (pd : list processed_row)
        (r : processed_row) :
  process_solar_data data = Ok pd -> In r pd ->
  Month r = 2 -> Day r = 29 -> is_leap_year (Year r) = false ->
  Solar_Radiation r = 0%Q.
Proof.
  intros Hpd Hr Hm Hd Hleap.
  destruct (process_origin data pd r Hpd Hr) as (lab & row & hour & y & v & _ & _ & _ & _ & He).
  unfold emitted in He. cbn [fst snd] in He.
  destruct (full_date_of lab y hour) as [full_date|]; [|contradiction].
  destruct He as [<-|[]]. cbn [Year Month Day Solar_Radiation] in *.
  unfold is_feb_29. rewrite Hleap, Hm, Hd. reflexivity.
Qed.

Lemma feb29_outside_leap_year_is_zero_witness :
  Solar_Radiation (mkRec 2019 2 29 0 0) = 0%Q.
Proof.
  apply (feb29_outside_leap_year_is_zero rollover_table rollover_records
                                         (mkRec 2019 2 29 0 0)).
  - vm_compute. reflexivity.
  - vm_compute. tauto.
  - reflexivity.
  - reflexivity.
  - reflexivity.
Defined.

Lemma combine_firstn {A B : Type} (l : list A) (l' : list B) :
  combine l (firstn (List.length l) l') = combine l l'.
Proof.
  revert l'; induction l as [|a l IH]; intros l'; [reflexivity|].
  destruct l' as [|b l']; [reflexivity|]. cbn. now rewrite IH.
Qed.

Lemma tidy_row_first (row : RawRow) : first (tidy_row row) = first row.
Proof. unfold tidy_row. now destruct (is_date_marker (first row)). Qed.

Lemma tidy_row_values (row : RawRow) :
  is_date_marker (first row) = None ->
  combine years (values (tidy_row row)) = combine years (values row).
Proof.
  intros H. unfold tidy_row. rewrite H. cbn [values].
  exact (combine_firstn years (values row)).
Qed.

(** X9: the scan reads neither the values of a date-marker row nor the values
    of a value row after the fifth: the records are the same without them. *)
Theorem process_ignores_unread_values (data : list RawRow) :
  process_solar_data (map tidy_row data) = process_solar_data data.
Proof.
  rewrite !process_scan_from.
  assert (H : forall label, scan_from label (map tidy_row data) = scan_from label data).
  { induction data as [|row data IH]; intros label; [reflexivity|].
    cbn [map scan_from]. rewrite tidy_row_first.
    destruct (is_date_marker (first row)) as [s|] eqn:Em; [apply IH|].
    now rewrite IH, (tidy_row_values row Em). }
  now rewrite H.
Qed.

(** ** A statistic of zero *)

Lemma fs_stat_aligned (md : list processed_row) (y : Z) :
  md <> [] -> group_keys (year_data_of md y) = group_keys md ->
  exists r,
    (0 < r)%Q /\
    fs_stat md y =
      Ok (Qsum (map (fun x => Qabs (x / r))%Q
                    (map (fun h => longTermProfile md h - candidateProfile md y h)%Q
                         (group_keys md)))).
Proof.
  intros Hmd Hkeys. pose proof (group_keys_nonempty md Hmd) as Hne.
  unfold fs_stat. fold (year_data_of md y).
  rewrite long_term_values, candidate_values, Hkeys.
  rewrite np_sub_same_length by now rewrite !length_map.
  rewrite zip_with_map. cbn [bind].
  destruct (np_max_over (group_keys md) (longTermProfile md) Hne) as (hi & -> & Hhi).
  destruct (np_min_over (group_keys md) (longTermProfile md) Hne) as (lo & -> & Hlo).
  cbn [bind]. exists (hi - lo + eps)%Q. split; [|reflexivity].
  destruct Hhi as [_ Hhi]. destruct Hlo as [[h [Hh ->]] _].
  specialize (Hhi h Hh). unfold eps. lra.
Qed.

Lemma sum_over_nonneg (hs : list Z) (f : Z -> Q) :
  (forall h, (0 <= f h)%Q) -> (0 <= sum_over hs f)%Q.
Proof.
  intros Hf. induction hs as [|h hs IH]; cbn [sum_over]; [apply Qle_refl|].
  pose proof (Hf h). lra.
Qed.

Lemma sum_over_zero_iff (hs : list Z) (f : Z -> Q) :
  (forall h, (0 <= f h)%Q) ->
  ((sum_over hs f == 0)%Q <-> forall h, In h hs -> (f h == 0)%Q).
Proof.
  intros Hf. induction hs as [|h hs IH]; cbn [sum_over].
  - split; [intros _ h []|reflexivity].
  - pose proof (Hf h) as Hh. pose proof (sum_over_nonneg hs f Hf) as Hs. split.
    + intros H x [<-|Hx].
      * apply Qle_antisym; [lra|exact Hh].
      * apply IH; [|exact Hx]. apply Qle_antisym; [lra|exact Hs].
    + intros H. rewrite (H h (or_introl eq_refl)).
      rewrite (proj2 IH); [ring|]. intros x Hx. apply H. now right.
Qed.

Lemma Qabs_zero_iff (x : Q) : (Qabs x == 0)%Q <-> (x == 0)%Q.
Proof.
  split; intros H.
  - assert (Hle : (Qabs x <= 0)%Q) by (rewrite H; apply Qle_refl).
    apply Qabs_Qle_condition in Hle. destruct Hle. apply Qle_antisym; lra.
  - rewrite H. reflexivity.
Qed.

(** X12: for a month with records and a tracked year whose profile is defined for
    the same hours as the long-term profile, the statistic is zero exactly
    when the two profiles have the same mean at every hour. *)
Theorem zero_statistic_iff_same_profile (md : list processed_row) (y : Z) (v : Q) :
  md <> [] ->
  profile_hours (filter (fun r => Year r =? y) md) = profile_hours md ->
  fs_stat md y = Ok v ->
  ((v == 0)%Q <->
   forall h, In h (profile_hours md) ->
             (longTermProfile md h == candidateProfile md y h)%Q).
Proof.
  unfold profile_hours. intros Hmd Hkeys Hv.
  change (filter (fun r => Year r =? y) md) with (year_data_of md y) in Hkeys.
  destruct (fs_stat_aligned md y Hmd Hkeys) as (r & Hr & Hfs).
  rewrite Hfs in Hv. injection Hv as <-. unfold Qsum.
  rewrite (scaled_sum r (fun h => longTermProfile md h - candidateProfile md y h)%Q)
    by exact Hr.
  set (S := sum_over (group_keys md)
              (fun h => Qabs (longTermProfile md h - candidateProfile md y h))).
  assert (HS : (0 + S / r == 0)%Q <-> (S == 0)%Q).
  { split; intros H.
    - assert (E : (S == (0 + S / r) * r)%Q) by (field; lra). rewrite E, H. ring.
    - rewrite H. field. lra. }
  rewrite HS. unfold S.
  rewrite sum_over_zero_iff by (intros; apply Qabs_nonneg).
  split; intros H h Hh; specialize (H h Hh); cbv beta in *.
  - apply (proj1 (Qabs_zero_iff _)) in H. lra.
  - apply (proj2 (Qabs_zero_iff _)). lra.
Qed.

Lemma zero_statistic_iff_same_profile_witness :
  (spread_stat_2021 == 0)%Q <->
  forall h, In h (profile_hours (month_data_of spread_records 1)) ->
            (longTermProfile (month_data_of spread_records 1) h ==
             candidateProfile (month_data_of spread_records 1) 2021 h)%Q.
Proof.
  apply (zero_statistic_iff_same_profile (month_data_of spread_records 1) 2021
                                         spread_stat_2021).
  - vm_compute. discriminate.
  - vm_compute. reflexivity.
  - vm_compute. reflexivity.
Defined.

(** * The comparison plot *)

Lemma keys_of_in (col : processed_row -> Z) (df : list processed_row) (k : Z) :
  In k (keys_of col df) <-> exists r, In r df /\ col r = k.
Proof.
  unfold keys_of. induction df as [|r df IH]; cbn [map fold_right].
  - split; [intros []|]. now intros [r [[] _]].
  - rewrite insert_key_in, IH. split.
    + intros [->|[r' [? ?]]]; [exists r; split; [now left|reflexivity]|].
      exists r'; split; [now right|assumption].
    + intros [r' [[<-|?] ?]]; [now left|right; now exists r'].
Qed.

Lemma visualize_ok (pd tmy : list processed_row) :
  pd <> [] ->
  visualize_tmy_comparison pd tmy =
  Ok (map (fun year => (year, scatter_points (original_monthly_avg pd) year)) years,
      tmy_monthly_avg tmy).
Proof. destruct pd; [contradiction|reflexivity]. Qed.

(** X21: for the records and the series of the script, every point of the line
    of the typical year lies on a point of the scatter series of the year that
    was selected for that month, and the average of the selection table is the
    value of that point rounded to two decimals. *)
Theorem tmy_line_on_selected_year (pd : list processed_row) (tmm : list tmm_row)
        (tmy : list processed_row) (series : list (Z * list (Z * Q)))
        (line : list (Z * Q)) (m : Z) (v : Q) :
  calculate_tmm pd = Ok tmm -> calculate_tmy tmm pd = Ok tmy ->
  visualize_tmy_comparison pd tmy = Ok (series, line) ->
  In (m, v) line ->
  exists row points,
    In row tmm /\ T_Month row = m /\
    In (Representative_Year row, points) series /\ In (m, v) points /\
    Average_Solar_Radiation row = Some (round2 v).
Proof.
  intros Htmm Htmy Hvis Hline.
  destruct (calculate_tmm_shape pd tmm Htmm) as [Hmonths Hyears].
  destruct (calculate_tmy_inv tmm pd tmy Htmy) as [Hne Hpd].
  rewrite calculate_tmy_ok in Htmy by assumption. injection Htmy as Etmy.
  symmetry in Etmy.
  rewrite visualize_ok in Hvis by assumption. injection Hvis as <- <-.
  unfold tmy_monthly_avg in Hline. apply in_map_iff in Hline.
  destruct Hline as (m' & Hmv & Hm'). injection Hmv as -> <-.
  apply keys_of_in in Hm'. destruct Hm' as (r & Hr & Hrm).
  rewrite Etmy in Hr. apply in_flat_map in Hr. destruct Hr as (row & Hrow & Hr).
  pose proof (block_of_month pd row r Hr) as (Hrpd & Hrm' & Hry).
  assert (Hblock : filter (month_is m) tmy = block_of pd row).
  { rewrite Etmy, <- Hrm, Hrm'. apply month_of_blocks; [|exact Hrow].
    rewrite Hmonths. apply months_nodup. }
  assert (Hsame : filter (year_is (Representative_Year row)) (filter (month_is m) pd)
                  = block_of pd row).
  { rewrite filter_filter. unfold block_of. apply filter_ext. intros x.
    unfold selected_by. now rewrite <- Hrm, Hrm'. }
  exists row, (scatter_points (original_monthly_avg pd) (Representative_Year row)).
  split; [exact Hrow|]. split; [now rewrite <- Hrm'|]. split; [|split].
  - apply (in_map (fun year => (year, scatter_points (original_monthly_avg pd) year))
                  years (Representative_Year row)).
    rewrite Forall_forall in Hyears. now apply Hyears.
  - unfold scatter_points. apply in_map_iff.
    exists (m, Representative_Year row,
            mean_of (map Solar_Radiation
                         (filter (year_is (Representative_Year row))
                                 (filter (month_is m) pd)))).
    split; [cbn [fst snd]; now rewrite Hsame, Hblock|].
    apply filter_In. split; [|cbn [fst snd]; apply Z.eqb_refl].
    unfold original_monthly_avg. apply in_flat_map. exists m. split.
    + apply keys_of_in. exists r. auto.
    + apply in_map_iff. exists (Representative_Year row). split; [reflexivity|].
      apply keys_of_in. exists r. split; [|exact Hry].
      apply filter_In. split; [exact Hrpd|]. unfold month_is. now apply Z.eqb_eq.
  - destruct (Forall2_in_r _ _ _ _ (calculate_tmm_rows pd tmm Htmm) Hrow) as (mm & _ & Hmm).
    apply tmm_month_inv in Hmm. destruct Hmm as (_ & stats & _ & _ & Hmm & Havg).
    subst mm. assert (Et : T_Month row = m) by congruence.
    rewrite Et in Havg. unfold year_data_of, month_data_of in Havg.
    rewrite Hsame in Havg. rewrite Havg, Hblock.
    assert (Hnb : block_of pd row <> []) by (intros E; rewrite E in Hr; contradiction).
    destruct (block_of pd row) as [|b bl]; [contradiction|]. reflexivity.
Qed.

Lemma tmy_line_on_selected_year_witness :
  exists row points,
    In row first_days_selections /\ T_Month row = 1 /\
    In (Representative_Year row, points) (fst first_days_plot) /\
    In (1, 3%Q) points /\
    Average_Solar_Radiation row = Some (round2 3).
Proof.
  apply (tmy_line_on_selected_year first_days_records first_days_selections
           first_days_series (fst first_days_plot) (snd first_days_plot) 1 3%Q).
  - vm_compute. reflexivity.
  - vm_compute. reflexivity.
  - vm_compute. reflexivity.
  - vm_compute. left. reflexivity.
Defined.

(** * The hour cells of the tables *)

Lemma all_hour_cells_read : forallb hour_cell_reads (0 :: one_to 23) = true.
Proof. vm_compute. reflexivity. Qed.

(** X6: every hour of the day, written in decimal in a string cell, is taken as
    a value row and read back as that hour. *)
Theorem hour_cell_round_trip (h : Z) :
  0 <= h <= 23 ->
  is_date_marker (CStr (str_of_int h)) = None /\
  int_of_cell (CStr (str_of_int h)) = Ok h.
Proof.
  intros H. pose proof all_hour_cells_read as Hall. rewrite forallb_forall in Hall.
  assert (Hin : In h (0 :: one_to 23)).
  { destruct (Z.eq_dec h 0) as [->|Hn]; [now left|right]. apply one_to_in. lia. }
  specialize (Hall h Hin). unfold hour_cell_reads in Hall.
  destruct (is_date_marker (CStr (str_of_int h))); [discriminate|].
  destruct (int_of_cell (CStr (str_of_int h))) as [n|]; [|discriminate].
  apply Z.eqb_eq in Hall. now subst.
Qed.

Lemma hour_cell_round_trip_witness :
  is_date_marker (CStr (str_of_int 23)) = None /\
  int_of_cell (CStr (str_of_int 23)) = Ok 23.
Proof. apply (hour_cell_round_trip 23). lia. Defined.

(** * Records without missing values

    On records that carry a number everywhere, the selection with missing
    values computes what the selection on numbers computes. *)

Lemma numbers_lift (l : list Q) : WithNaN.numbers (map Some l) = l.
Proof. induction l as [|x l IH]; cbn; [reflexivity|now rewrite IH]. Qed.

Lemma filter_map_commute {A B : Type} (p : B -> bool) (q : A -> bool) (f : A -> B)
      (l : list A) :
  (forall a, p (f a) = q a) -> filter p (map f l) = map f (filter q l).
Proof.
  intros H. induction l as [|a l IH]; cbn; [reflexivity|].
  rewrite H, IH. now destruct (q a).
Qed.

Lemma lift_values (df : list processed_row) :
  map WithNaN.Solar_Radiation (map lift_row df) = map Some (map Solar_Radiation df).
Proof. now rewrite !map_map. Qed.

Lemma group_keys_lift (df : list processed_row) :
  WithNaN.group_keys (map lift_row df) = group_keys df.
Proof. unfold WithNaN.group_keys, group_keys. now rewrite map_map. Qed.

Lemma mean_lift (l : list Q) : WithNaN.mean (map Some l) = series_mean l.
Proof. unfold WithNaN.mean. now rewrite numbers_lift. Qed.

Lemma group_nonempty (df : list processed_row) (h : Z) :
  In h (group_keys df) -> map Solar_Radiation (filter (hour_is h) df) <> [].
Proof.
  intros Hh. apply (proj1 (profile_hours_in df h)) in Hh. destruct Hh as (r & Hr & Hhr).
  assert (Hin : In r (filter (hour_is h) df))
    by (apply filter_In; split; [exact Hr|]; unfold hour_is; now apply Z.eqb_eq).
  intros E. apply (in_map Solar_Radiation) in Hin. rewrite E in Hin. contradiction.
Qed.

Lemma groupby_lift (df : list processed_row) :
  WithNaN.groupby_hour_mean (map lift_row df) = map lift_stat (groupby_hour_mean df).
Proof.
  unfold WithNaN.groupby_hour_mean, groupby_hour_mean.
  rewrite group_keys_lift, map_map. apply map_ext_in. intros h Hh.
  unfold lift_stat. cbn [fst snd]. f_equal.
  rewrite (filter_map_commute (WithNaN.hour_is h) (hour_is h)) by reflexivity.
  rewrite lift_values, mean_lift. unfold series_mean.
  pose proof (group_nonempty df h Hh) as Hne.
  now destruct (map Solar_Radiation (filter (hour_is h) df)).
Qed.

Lemma series_values_lift (s : list (Z * Q)) :
  WithNaN.series_values (map lift_stat s) = map Some (series_values s).
Proof. unfold WithNaN.series_values, series_values. now rewrite !map_map. Qed.

Lemma zip_with_lift (op : Q -> Q -> Q) (a b : list Q) :
  zip_with (WithNaN.lift2 op) (map Some a) (map Some b) = map Some (zip_with op a b).
Proof.
  revert b; induction a as [|x a IH]; intros [|y b]; cbn; try reflexivity.
  now rewrite IH.
Qed.

Lemma np_sub_lift (a b : list Q) :
  WithNaN.np_sub (map Some a) (map Some b) = d <- np_sub a b ;; Ok (map Some d).
Proof.
  unfold WithNaN.np_sub, np_sub. rewrite !length_map.
  destruct (Nat.eqb (List.length a) (List.length b)).
  - cbn [bind]. unfold WithNaN.fsub. now rewrite zip_with_lift.
  - destruct a as [|x [|x' a]]; destruct b as [|y [|y' b]]; cbn [map bind];
      rewrite ?map_map; cbn [List.length]; try rewrite !length_map; reflexivity.
Qed.

Lemma fold_lift (op : Q -> Q -> Q) (l : list Q) (x : Q) :
  fold_left (WithNaN.lift2 op) (map Some l) (Some x) = Some (fold_left op l x).
Proof. revert x; induction l as [|a l IH]; intros x; cbn; [reflexivity|apply IH]. Qed.

Lemma np_max_lift (a : list Q) :
  WithNaN.np_max (map Some a) = x <- np_max a ;; Ok (Some x).
Proof.
  destruct a as [|x a]; [reflexivity|]. cbn [map WithNaN.np_max np_max bind].
  unfold WithNaN.fmax. now rewrite fold_lift.
Qed.

Lemma np_min_lift (a : list Q) :
  WithNaN.np_min (map Some a) = x <- np_min a ;; Ok (Some x).
Proof.
  destruct a as [|x a]; [reflexivity|]. cbn [map WithNaN.np_min np_min bind].
  unfold WithNaN.fmin. now rewrite fold_lift.
Qed.

Lemma fs_stat_lift (md : list processed_row) (y : Z) :
  WithNaN.fs_stat (map lift_row md) y = v <- fs_stat md y ;; Ok (Some v).
Proof.
  unfold WithNaN.fs_stat, fs_stat.
  rewrite (filter_map_commute (WithNaN.year_is y) (year_is y)) by reflexivity.
  rewrite !groupby_lift, !series_values_lift, np_sub_lift.
  destruct (np_sub _ _) as [diff|e]; [|reflexivity]. cbn [bind].
  rewrite np_max_lift. destruct (np_max _) as [hi|e]; [|reflexivity]. cbn [bind].
  rewrite np_min_lift. destruct (np_min _) as [lo|e]; [|reflexivity]. cbn [bind].
  rewrite map_map.
  rewrite (map_ext _ (fun x => Some (Qabs (x / (hi - lo + eps)))))%Q by reflexivity.
  rewrite <- (map_map (fun x => Qabs (x / (hi - lo + eps)))%Q Some).
  unfold WithNaN.fadd. now rewrite fold_lift.
Qed.

Lemma dict_set_lift (k : Z) (v : Q) (d : list (Z * Q)) :
  WithNaN.dict_set k (Some v) (map lift_stat d) = map lift_stat (dict_set k v d).
Proof.
  induction d as [|[k' v'] d IH]; [reflexivity|].
  cbn [map WithNaN.dict_set dict_set lift_stat fst snd].
  destruct (k' =? k); [reflexivity|]. cbn [map]. now rewrite <- IH.
Qed.

Lemma fs_statistics_lift (md : list processed_row) :
  WithNaN.fs_statistics (map lift_row md) = d <- fs_statistics md ;; Ok (map lift_stat d).
Proof.
  unfold WithNaN.fs_statistics, fs_statistics.
  change (@nil (Z * WithNaN.float)) with (map lift_stat []).
  generalize (@nil (Z * Q)). induction years as [|y ys IH]; intros acc; [reflexivity|].
  cbn [for_each]. rewrite fs_stat_lift.
  destruct (fs_stat md y) as [v|e]; [|reflexivity]. cbn [bind].
  rewrite dict_set_lift. apply IH.
Qed.

Lemma min_fold_lift (l : list (Z * Q)) (x : Z * Q) :
  fold_left WithNaN.min_step (map lift_stat l) (lift_stat x) =
  lift_stat (fold_left min_step l x).
Proof.
  revert x; induction l as [|a l IH]; intros x; [reflexivity|].
  cbn [map fold_left]. rewrite <- IH. f_equal.
  unfold WithNaN.min_step, min_step, lift_stat. cbn [fst snd WithNaN.flt].
  now destruct (Qlt_bool (snd a) (snd x)).
Qed.

Lemma min_by_value_lift (d : list (Z * Q)) :
  WithNaN.min_by_value (map lift_stat d) = min_by_value d.
Proof.
  destruct d as [|x l]; [reflexivity|].
  cbn [map WithNaN.min_by_value min_by_value]. now rewrite min_fold_lift.
Qed.

Lemma tmm_month_lift (pd : list processed_row) (m : Z) :
  WithNaN.tmm_month (map lift_row pd) m = tmm_month pd m.
Proof.
  unfold WithNaN.tmm_month, tmm_month. destruct pd as [|r pd]; [reflexivity|].
  cbn [map]. change (lift_row r :: map lift_row pd) with (map lift_row (r :: pd)).
  rewrite (filter_map_commute (WithNaN.month_is m) (month_is m)) by reflexivity.
  rewrite fs_statistics_lift.
  destruct (fs_statistics _) as [stats|e]; [|reflexivity]. cbn [bind].
  rewrite min_by_value_lift. destruct (min_by_value stats) as [ry|]; [|reflexivity].
  rewrite (filter_map_commute (WithNaN.year_is ry) (year_is ry)) by reflexivity.
  now rewrite lift_values, mean_lift.
Qed.

Lemma map_result_ext {X Y : Type} (f g : X -> result Y) (l : list X) :
  (forall x, f x = g x) -> map_result f l = map_result g l.
Proof.
  intros H. induction l as [|x l IH]; [reflexivity|]. cbn. now rewrite H, IH.
Qed.

(** The two selections agree on records without missing values. *)
Lemma calculate_tmm_lift (pd : list processed_row) :
  WithNaN.calculate_tmm (map lift_row pd) = calculate_tmm pd.
Proof.
  rewrite calculate_tmm_collect. unfold WithNaN.calculate_tmm.
  rewrite for_each_collect. cbn [app bind].
  rewrite (map_result_ext _ (tmm_month pd)) by (intros; apply tmm_month_lift).
  now destruct (map_result (tmm_month pd) months).
Qed.

(** * The representative year *)

Lemma common_hours_aligned (md : list processed_row) (y : Z) :
  profile_hours (year_data_of md y) = profile_hours md ->
  common_hours md y = profile_hours md.
Proof.
  intros H. unfold common_hours. rewrite H. apply filter_all.
  intros h Hh. apply existsb_exists. exists h. split; [exact Hh|apply Z.eqb_refl].
Qed.

(** With hours that agree, the statistic of the code is the statistic of the
    specification, with one range for all the years of a month. *)
Lemma fs_stat_FS (md : list processed_row) :
  md <> [] ->
  exists hi lo,
    is_max_over (profile_hours md) (longTermProfile md) hi /\
    is_min_over (profile_hours md) (longTermProfile md) lo /\
    forall y, profile_hours (year_data_of md y) = profile_hours md ->
      exists w, fs_stat md y = Ok w /\ (w == FS md y hi lo)%Q.
Proof.
  intros Hmd. pose proof (group_keys_nonempty md Hmd) as Hne.
  destruct (np_max_over (group_keys md) (longTermProfile md) Hne) as (hi & Ehi & Hhi).
  destruct (np_min_over (group_keys md) (longTermProfile md) Hne) as (lo & Elo & Hlo).
  exists hi, lo. split; [exact Hhi|]. split; [exact Hlo|].
  intros y Hkeys. unfold FS. rewrite (common_hours_aligned md y Hkeys).
  unfold profile_hours in *. unfold fs_stat. fold (year_data_of md y).
  rewrite long_term_values, candidate_values, Hkeys.
  rewrite np_sub_same_length by now rewrite !length_map.
  rewrite zip_with_map, Ehi, Elo. cbn [bind]. eexists. split; [reflexivity|].
  assert (Hr : (0 < hi - lo + eps)%Q).
  { destruct Hhi as [_ Hhi]. destruct Hlo as [[h [Hh ->]] _].
    specialize (Hhi h Hh). unfold eps. lra. }
  unfold Qsum. rewrite (scaled_sum _ (fun h => longTermProfile md h - candidateProfile md y h)%Q)
    by exact Hr.
  unfold eps. ring.
Qed.

(** C3 as stated fails, in two ways.  With the empty cell of January 2019 the
    statistic of 2019 is NaN; no comparison with it holds, so the scan keeps
    2019, the first key, although 2021 has the least statistic.  With a
    January in which 2019 has one hour of the month's two, the value of 2019
    is stretched over both hours; 2021 is selected, although the statistic of
    2019 over the hours present in both profiles is zero, less than that of
    2021. *)
Lemma C3_selection_not_minimal_counterexample :
  (WithNaN.calculate_tmm blank_cell_records = Ok blank_cell_selections /\
   In (mkTmm 1 2019 None) blank_cell_selections /\
   WithNaN.fs_stat (filter (WithNaN.month_is 1) blank_cell_records) 2019 = Ok None /\
   WithNaN.fs_stat (filter (WithNaN.month_is 1) blank_cell_records) 2021
     = Ok (Some (320000000000 # 64)%Q) /\
   WithNaN.flt (Some (320000000000 # 64)%Q) None = false /\
   WithNaN.flt None (Some (320000000000 # 64)%Q) = false) /\
  (WithNaN.calculate_tmm (map lift_row short_year_records) = Ok short_year_selections /\
   In (mkTmm 1 2021 (Some (600 # 100)%Q)) short_year_selections /\
   exists hi lo,
     is_max_over (profile_hours (month_data_of short_year_records 1))
                 (longTermProfile (month_data_of short_year_records 1)) hi /\
     is_min_over (profile_hours (month_data_of short_year_records 1))
                 (longTermProfile (month_data_of short_year_records 1)) lo /\
     (FS (month_data_of short_year_records 1) 2019 hi lo
      < FS (month_data_of short_year_records 1) 2021 hi lo)%Q).
Proof.
  split.
  - split; [vm_compute; reflexivity|]. split; [now left|].
    split; [vm_compute; reflexivity|]. split; [vm_compute; reflexivity|].
    split; reflexivity.
  - split; [vm_compute; reflexivity|]. split; [now left|].
    exists (longTermProfile (month_data_of short_year_records 1) 1),
           (longTermProfile (month_data_of short_year_records 1) 0).
    split; [|split].
    + split; [exists 1; split; [vm_compute; tauto|reflexivity]|].
      intros h Hh. vm_compute in Hh.
      destruct Hh as [<-|[<-|[]]]; vm_compute; discriminate.
    + split; [exists 0; split; [vm_compute; tauto|reflexivity]|].
      intros h Hh. vm_compute in Hh.
      destruct Hh as [<-|[<-|[]]]; vm_compute; discriminate.
    + vm_compute. reflexivity.
Qed.

(** C3, as the code behaves: for records without missing values and a month
    in which every tracked year has records for the same hours as the month
    as a whole, the statistic of the representative year, in the words of
    the specification, is at most that of every tracked year, and the
    representative year is the smallest year among those with exactly that
    statistic.  The selection is a function of the records, so it is the same
    on every run. *)
Theorem C3_representative_year_minimal (pd : list processed_row) (out : list tmm_row)
        (row : tmm_row) :
  WithNaN.calculate_tmm (map lift_row pd) = Ok out -> In row out ->
  (forall y, In y years ->
     profile_hours (filter (fun r => Year r =? y) (month_data_of pd (T_Month row)))
     = profile_hours (month_data_of pd (T_Month row))) ->
  In (Representative_Year row) years /\
  exists hi lo,
    is_max_over (profile_hours (month_data_of pd (T_Month row)))
                (longTermProfile (month_data_of pd (T_Month row))) hi /\
    is_min_over (profile_hours (month_data_of pd (T_Month row)))
                (longTermProfile (month_data_of pd (T_Month row))) lo /\
    forall y, In y years ->
      (FS (month_data_of pd (T_Month row)) (Representative_Year row) hi lo
       <= FS (month_data_of pd (T_Month row)) y hi lo)%Q /\
      ((FS (month_data_of pd (T_Month row)) y hi lo
        == FS (month_data_of pd (T_Month row)) (Representative_Year row) hi lo)%Q ->
       Representative_Year row <= y).
Proof.
  intros Hout Hrow Halign. rewrite calculate_tmm_lift in Hout.
  destruct (selection_minimal pd out row Hout Hrow) as (Hin & v & Hv & Hall).
  split; [exact Hin|].
  set (md := month_data_of pd (T_Month row)) in *.
  assert (Hmd : md <> []) by (intros E; rewrite E in Hv; discriminate).
  destruct (fs_stat_FS md Hmd) as (hi & lo & Hhi & Hlo & HFS).
  exists hi, lo. split; [exact Hhi|]. split; [exact Hlo|].
  intros y Hy.
  destruct (HFS _ (Halign _ Hin)) as (v' & Hv' & Ev).
  rewrite Hv in Hv'. injection Hv' as <-.
  destruct (Hall y Hy) as (w & Hw & Hle & Htie).
  destruct (HFS _ (Halign _ Hy)) as (w' & Hw' & Ew).
  rewrite Hw in Hw'. injection Hw' as <-.
  split.
  - now rewrite <- Ev, <- Ew.
  - intros E. apply Htie. now rewrite Ev, Ew.
Qed.

Lemma C3_representative_year_minimal_witness :
  In 2021 years /\
  exists hi lo,
    is_max_over (profile_hours (month_data_of spread_records 1))
                (longTermProfile (month_data_of spread_records 1)) hi /\
    is_min_over (profile_hours (month_data_of spread_records 1))
                (longTermProfile (month_data_of spread_records 1)) lo /\
    forall y, In y years ->
      (FS (month_data_of spread_records 1) 2021 hi lo
       <= FS (month_data_of spread_records 1) y hi lo)%Q /\
      ((FS (month_data_of spread_records 1) y hi lo
        == FS (month_data_of spread_records 1) 2021 hi lo)%Q -> 2021 <= y).
Proof.
  apply (C3_representative_year_minimal spread_records spread_selections
                                        (mkTmm 1 2021 (Some (111 # 100)%Q))).
  - vm_compute. reflexivity.
  - now left.
  - intros y Hy. cbn in Hy.
    repeat (destruct Hy as [<-|Hy]; [vm_compute; reflexivity|]). contradiction.
Defined.

(** ** A statistic of zero, the first year *)

(** X11: on records without missing values the statistic is never negative,
    so a tracked year whose statistic is zero is a best match: the
    representative year of the month then has statistic zero too, and is
    that year or an earlier one. *)
Theorem zero_statistic_selected (pd : list processed_row) (out : list tmm_row)
        (row : tmm_row) (y : Z) (w : Q) :
  WithNaN.calculate_tmm (map lift_row pd) = Ok out -> In row out -> In y years ->
  WithNaN.fs_stat (map lift_row (month_data_of pd (T_Month row))) y = Ok (Some w) ->
  (w == 0)%Q ->
  exists v,
    WithNaN.fs_stat (map lift_row (month_data_of pd (T_Month row)))
                    (Representative_Year row) = Ok (Some v) /\
    (v == 0)%Q /\ Representative_Year row <= y.
Proof.
  intros Hout Hrow Hy Hw Hzero. rewrite calculate_tmm_lift in Hout.
  rewrite fs_stat_lift in Hw.
  destruct (selection_minimal pd out row Hout Hrow) as (_ & v & Hv & Hall).
  destruct (Hall y Hy) as (w' & Hw' & Hle & Htie).
  rewrite Hw' in Hw. cbn [bind] in Hw. injection Hw as ->.
  pose proof (fs_stat_nonneg _ _ _ Hv) as Hnn.
  assert (Hv0 : (v == 0)%Q) by (apply Qle_antisym; [now rewrite <- Hzero|exact Hnn]).
  exists v. split; [now rewrite fs_stat_lift, Hv|]. split; [exact Hv0|].
  apply Htie. now rewrite Hzero, Hv0.
Qed.

Lemma zero_statistic_selected_witness :
  exists v,
    WithNaN.fs_stat (map lift_row (month_data_of spread_records 1)) 2021 = Ok (Some v) /\
    (v == 0)%Q /\ 2021 <= 2021.
Proof.
  apply (zero_statistic_selected spread_records spread_selections
                                 (mkTmm 1 2021 (Some (111 # 100)%Q)) 2021 spread_stat_2021).
  - vm_compute. reflexivity.
  - now left.
  - cbn. tauto.
  - vm_compute. reflexivity.
  - reflexivity.
Defined.

Lemma nan_min_fold_in (l : list (Z * WithNaN.float)) (x : Z * WithNaN.float) :
  In (fold_left WithNaN.min_step l x) (x :: l).
Proof.
  revert x; induction l as [|a l IH]; intros x; [now left|].
  cbn [fold_left]. destruct (IH (WithNaN.min_step x a)) as [H|H]; [|now right; right].
  rewrite <- H. unfold WithNaN.min_step.
  destruct (WithNaN.flt (snd a) (snd x)); cbn; auto.
Qed.

(** The scan keeps its first key exactly when no later value compares
    smaller than the first. *)
Lemma nan_first_kept (l : list (Z * WithNaN.float)) (x : Z * WithNaN.float) :
  (forall it, In it l -> fst it <> fst x) ->
  (fst (fold_left WithNaN.min_step l x) = fst x <->
   forall it, In it l -> WithNaN.flt (snd it) (snd x) = false).
Proof.
  induction l as [|a l IH]; intros Hkeys.
  - cbn. split; [intros _ it []|reflexivity].
  - assert (Hl : forall it, In it l -> fst it <> fst x)
      by (intros it Hit; apply Hkeys; now right).
    cbn [fold_left]. unfold WithNaN.min_step at 2.
    destruct (WithNaN.flt (snd a) (snd x)) eqn:E.
    + split.
      * intros Hfst. exfalso.
        destruct (nan_min_fold_in l a) as [H|H].
        -- rewrite <- H in Hfst. now apply (Hkeys a (or_introl eq_refl)).
        -- apply (Hkeys _ (or_intror H)). exact Hfst.
      * intros Hall. rewrite (Hall a (or_introl eq_refl)) in E. discriminate.
    + rewrite (IH Hl). split.
      * intros Hall it [<-|Hit]; [exact E|now apply Hall].
      * intros Hall it Hit. apply Hall. now right.
Qed.

Lemma flt_irrefl (v : WithNaN.float) : WithNaN.flt v v = false.
Proof.
  destruct v as [q|]; [|reflexivity]. cbn.
  destruct (Qlt_bool q q) eqn:E; [|reflexivity].
  apply Qlt_bool_iff in E. now apply Qlt_irrefl in E.
Qed.

Lemma nan_calculate_tmm_rows (pd : list WithNaN.processed_row) (out : list tmm_row) :
  WithNaN.calculate_tmm pd = Ok out ->
  Forall2 (fun m row => WithNaN.tmm_month pd m = Ok row) months out.
Proof.
  unfold WithNaN.calculate_tmm. rewrite for_each_collect. cbn [app].
  destruct (map_result (WithNaN.tmm_month pd) months) as [rows|] eqn:E; [|discriminate].
  cbn [bind]. intros H; injection H as <-. now apply map_result_ok.
Qed.

(** X13: the first tracked year wins every tie and every comparison with a
    NaN: it is the representative year of a month exactly when the statistic
    of no tracked year compares smaller than its own, and so always when its
    own statistic is NaN. *)
Theorem first_year_selected_iff (pd : list WithNaN.processed_row) (out : list tmm_row)
        (row : tmm_row) :
  WithNaN.calculate_tmm pd = Ok out -> In row out ->
  exists v,
    WithNaN.fs_stat (filter (WithNaN.month_is (T_Month row)) pd) 2019 = Ok v /\
    (Representative_Year row = 2019 <->
     forall y w, In y years ->
       WithNaN.fs_stat (filter (WithNaN.month_is (T_Month row)) pd) y = Ok w ->
       WithNaN.flt w v = false).
Proof.
  intros Hout Hrow.
  destruct (Forall2_in_r _ _ _ _ (nan_calculate_tmm_rows pd out Hout) Hrow) as (m & _ & Hm).
  unfold WithNaN.tmm_month in Hm. destruct pd as [|r0 pd]; [discriminate|].
  set (md := filter (WithNaN.month_is m) (r0 :: pd)) in *.
  unfold WithNaN.fs_statistics, years in Hm. cbn [for_each bind] in Hm.
  destruct (WithNaN.fs_stat md 2019) as [v1|] eqn:E1; [|discriminate].
  destruct (WithNaN.fs_stat md 2020) as [v2|] eqn:E2; [|discriminate].
  destruct (WithNaN.fs_stat md 2021) as [v3|] eqn:E3; [|discriminate].
  destruct (WithNaN.fs_stat md 2022) as [v4|] eqn:E4; [|discriminate].
  destruct (WithNaN.fs_stat md 2023) as [v5|] eqn:E5; [|discriminate].
  cbn [bind WithNaN.dict_set Z.eqb Pos.eqb WithNaN.min_by_value] in Hm.
  injection Hm as <-. cbn [T_Month Representative_Year]. fold md.
  exists v1. split; [exact E1|].
  rewrite (nan_first_kept [(2020, v2); (2021, v3); (2022, v4); (2023, v5)] (2019, v1))
    by (cbn; intros it Hit; intuition (subst; discriminate)).
  cbn [fst snd]. split.
  - intros Hall y w Hy Hw. unfold years in Hy. cbn in Hy.
    destruct Hy as [<-|[<-|[<-|[<-|[<-|[]]]]]].
    + rewrite E1 in Hw. injection Hw as <-. apply flt_irrefl.
    + rewrite E2 in Hw. injection Hw as <-. apply (Hall (2020, v2)). cbn; tauto.
    + rewrite E3 in Hw. injection Hw as <-. apply (Hall (2021, v3)). cbn; tauto.
    + rewrite E4 in Hw. injection Hw as <-. apply (Hall (2022, v4)). cbn; tauto.
    + rewrite E5 in Hw. injection Hw as <-. apply (Hall (2023, v5)). cbn; tauto.
  - intros Hall it Hit. cbn in Hit.
    destruct Hit as [<-|[<-|[<-|[<-|[]]]]]; cbn [snd];
      [apply (Hall 2020) | apply (Hall 2021) | apply (Hall 2022) | apply (Hall 2023)];
      first [exact E2 | exact E3 | exact E4 | exact E5 | cbn; tauto].
Qed.

Lemma first_year_selected_iff_witness :
  exists v,
    WithNaN.fs_stat (filter (WithNaN.month_is 1) blank_cell_records) 2019 = Ok v /\
    (2019 = 2019 <->
     forall y w, In y years ->
       WithNaN.fs_stat (filter (WithNaN.month_is 1) blank_cell_records) y = Ok w ->
       WithNaN.flt w v = false).
Proof.
  apply (first_year_selected_iff blank_cell_records blank_cell_selections
                                 (mkTmm 1 2019 None)).
  - vm_compute. reflexivity.
  - now left.
Defined.
